(** * Chunking and hybrid retrieval of the AI-Tutor core

    A shallow embedding of [src/core/chunker.py], [src/core/bm25_retriever.py],
    [src/core/embedding_retriever.py] and [src/core/hybrid_retriever.py].

    Conventions of the embedding.
    - A Python [str] is a [string]; a character is read as a code point
      below 256 (Latin-1).
    - A Python [float] the code computes (the reciprocal ranks and fused
      scores of [hybrid_retriever.py]) is a binary64 [float], with the
      rounding, the infinities and the NaN of the machine arithmetic.  A
      score a library hands over ([rank_bm25], [faiss]) is only sorted,
      filtered and passed on; it is an exact rational ([Q]) compared as
      such, so a NaN among those is outside the model.
    - A Python [int] argument is a [Z]; slices and subscripts follow Python
      for negative values.
    - A call that can raise returns [result]; [Raise e] propagates like an
      exception.
    - A chunk dictionary lives in a store; a list of chunks and a result
      pair hold references to it, and [id(chunk)] is the reference.
    - The packages the code calls ([tiktoken], [rank_bm25],
      [sentence_transformers], [faiss]) are parameters of the sections that
      use them; what a statement needs of them is a hypothesis of that
      statement.  A call into them that can raise returns [result] as
      well: the tokenizer refuses a text that holds one of its special
      tokens. *)

From Stdlib Require Import List String Ascii Bool Arith ZArith QArith Lia.
From Stdlib Require Import Sorted Permutation DecimalString Floats.
Import ListNotations.

Set Implicit Arguments.
Open Scope string_scope.
Open Scope list_scope.
Open Scope nat_scope.

(* ================================================================== *)
(** ** Python values and exceptions *)
(* ================================================================== *)

Module Py.

Inductive exn : Type :=
| ValueError
| IndexError
| AssertionError.

Inductive result (A : Type) : Type :=
| Ok (a : A)
| Raise (e : exn).
Arguments Ok {A} a.
Arguments Raise {A} e.

Definition bind {A B : Type} (m : result A) (k : A -> result B) : result B :=
  match m with
  | Ok a => k a
  | Raise e => Raise e
  end.

Definition fmap {A B : Type} (f : A -> B) (m : result A) : result B :=
  bind m (fun a => Ok (f a)).

(** [[f(x) for x in l]] where [f] may raise: the first exception wins. *)
Fixpoint mapM {A B : Type} (f : A -> result B) (l : list A) : result (list B) :=
  match l with
  | [] => Ok []
  | x :: l' => bind (f x) (fun y => bind (mapM f l') (fun ys => Ok (y :: ys)))
  end.

(** [l[i]] for a list [l] and an integer subscript [i]: a negative [i]
    counts from the end, anything out of range raises [IndexError]. *)
Definition getitem {A : Type} (l : list A) (i : Z) : result A :=
  let n := Z.of_nat (List.length l) in
  let j := if (i <? 0)%Z then (n + i)%Z else i in
  if ((j <? 0) || (n <=? j))%Z then Raise IndexError
  else match nth_error l (Z.to_nat j) with
       | Some a => Ok a
       | None => Raise IndexError
       end.

(** [l[:k]]: the first [k] items, or all but the last [-k] when [k < 0]. *)
Definition slice_to {A : Type} (k : Z) (l : list A) : list A :=
  if (k <? 0)%Z then firstn (List.length l - Z.to_nat (- k)) l
  else firstn (Z.to_nat k) l.

(** [range(0, stop, step)] for [stop >= 0] and [step > 0]. *)
Definition range_step (stop step : nat) : list nat :=
  map (fun j => j * step) (seq 0 ((stop + step - 1) / step)).

(** [enumerate(l, start=1)] *)
Definition enumerate1 {A : Type} (l : list A) : list (nat * A) :=
  combine (seq 1 (List.length l)) l.

End Py.

Import Py.

Declare Scope py_scope.
Notation "x <- m ;; k" := (Py.bind m (fun x => k))
  (at level 61, m at next level, right associativity) : py_scope.
Open Scope py_scope.

(* ================================================================== *)
(** ** Strings: [str.strip], [str.split], [str.lower], [re.findall] *)
(* ================================================================== *)

Module PyStr.

Definition code (c : ascii) : nat := nat_of_ascii c.

Definition between (lo hi n : nat) : bool := (lo <=? n) && (n <=? hi).

(** The characters [str.strip()] removes: those with [c.isspace()]. *)
Definition isspace (c : ascii) : bool :=
  let n := code c in
  between 9 13 n || between 28 32 n || (n =? 133) || (n =? 160).

Fixpoint lstrip (s : string) : string :=
  match s with
  | EmptyString => EmptyString
  | String c s' => if isspace c then lstrip s' else s
  end.

Fixpoint rstrip (s : string) : string :=
  match s with
  | EmptyString => EmptyString
  | String c s' =>
      match rstrip s' with
      | EmptyString => if isspace c then EmptyString else String c EmptyString
      | r => String c r
      end
  end.

Definition strip (s : string) : string := rstrip (lstrip s).

(** Truth value of a string: [if s] is [s != ""]. *)
Definition truthy (s : string) : bool :=
  match s with
  | EmptyString => false
  | String _ _ => true
  end.

(** [s.split(sep)] for a non-empty [sep]: cut at each occurrence found
    scanning left to right, the search resuming after the occurrence.
    [skip] counts the characters of a matched separator still to pass. *)
Fixpoint split_from (sep : string) (skip : nat) (s : string) {struct s}
  : list string :=
  match s with
  | EmptyString => [EmptyString]
  | String c s' =>
      match skip with
      | S k => split_from sep k s'
      | O =>
          if prefix sep s
          then EmptyString :: split_from sep (String.length sep - 1) s'
          else match split_from sep 0 s' with
               | p :: ps => String c p :: ps
               | [] => [String c EmptyString]
               end
      end
  end.

Definition split (s sep : string) : list string := split_from sep 0 s.

(** [sep in s] *)
Fixpoint occurs (sep s : string) : bool :=
  prefix sep s
  || match s with
     | EmptyString => false
     | String _ s' => occurs sep s'
     end.

(** [s[i:i+n]] for [i, n >= 0] *)
Definition slice (s : string) (i n : nat) : string := substring i n s.

Definition isupper_latin1 (n : nat) : bool :=
  between 65 90 n || between 192 214 n || between 216 222 n.

(** [s.lower()] *)
Definition lower_char (c : ascii) : ascii :=
  if isupper_latin1 (code c) then ascii_of_nat (code c + 32) else c.

Fixpoint lower (s : string) : string :=
  match s with
  | EmptyString => EmptyString
  | String c s' => String (lower_char c) (lower s')
  end.

(** The characters the pattern [\w] matches. *)
Definition isword (c : ascii) : bool :=
  let n := code c in
  between 48 57 n || between 65 90 n || (n =? 95) || between 97 122 n
  || (n =? 170) || (n =? 178) || (n =? 179) || (n =? 181)
  || (n =? 185) || (n =? 186) || between 188 190 n
  || between 192 214 n || between 216 246 n || between 248 255 n.

(** [re.findall(r'\b\w+\b', s)]: the maximal runs of word characters.
    [cur] is the run being read, kept reversed. *)
Fixpoint findall_words_from (cur : list ascii) (s : string) : list string :=
  let flush := match cur with
               | [] => []
               | _ => [string_of_list_ascii (rev cur)]
               end in
  match s with
  | EmptyString => flush
  | String c s' =>
      if isword c then findall_words_from (c :: cur) s'
      else flush ++ findall_words_from [] s'
  end.

Definition findall_words (s : string) : list string := findall_words_from [] s.

End PyStr.

(* ================================================================== *)
(** ** [src/core/chunker.py] *)
(* ================================================================== *)

Module Chunker.

Record Chunk : Type := mkChunk {
  chunk_id : nat;
  text : string;
  token_count : nat;
  start_pos : nat;
  end_pos : nat
}.

Definition line_break : string := String "010" "".

Definition paragraph_break : string := String "010" (String "010" "").

(** [["\n\n", "\n", ". ", " ", ""]] *)
Definition default_separators : list string :=
  [paragraph_break; line_break; ". "; " "; ""].

Section WithEncoding.

(** [len(encoding.encode(s))] for the [cl100k_base] encoding of
    [tiktoken]; its merge tables are not part of the repository, and
    loading them ([tiktoken.get_encoding]) is taken to succeed.  The call
    can raise: with the arguments the code passes, [ValueError] for a text
    that contains one of the special tokens of the encoding. *)
Variable encode : string -> result nat.

Variable chunk_size : Z.

(** The list comprehension of the empty-separator branch:
    [[text[i:i+chunk_size] for i in range(0, len(text), chunk_size)]]. *)
Definition char_windows (text : string) : result (list string) :=
  if (chunk_size =? 0)%Z then Raise ValueError
  else if (chunk_size <? 0)%Z then Ok []
  else
    let n := Z.to_nat chunk_size in
    Ok (map (fun i => PyStr.slice text i n)
            (range_step (String.length text) n)).

Fixpoint _split_recursive (text : string) (seps : list string)
  : result (list string) :=
  match seps with
  | [] => Ok (if PyStr.truthy (PyStr.strip text) then [text] else [])
  | separator :: remaining_seps =>
      if negb (PyStr.truthy (PyStr.strip text)) then Ok []
      else if PyStr.truthy separator then
        fold_left
          (fun (acc : result (list string)) (split : string) =>
             final_chunks <- acc ;;
             if negb (PyStr.truthy (PyStr.strip split)) then Ok final_chunks
             else
               tokens <- encode split ;;
               if (Z.of_nat tokens <=? chunk_size)%Z
               then Ok (final_chunks ++ [split])
               else
                 sub_chunks <- _split_recursive split remaining_seps ;;
                 Ok (final_chunks ++ sub_chunks))
          (PyStr.split text separator)
          (Ok [])
      else char_windows text
  end.

(** The loop of [chunk_text] over [enumerate(raw_chunks)]; the state is
    the list built so far and [position]. *)
Definition number_chunks (raw_chunks : list string) : result (list Chunk) :=
  Py.fmap fst
    (fold_left
       (fun (acc : result (list Chunk * nat)) (ic : nat * string) =>
          st <- acc ;;
          let '(chunks, position) := st in
          let '(i, raw) := ic in
          let chunk_text := PyStr.strip raw in
          if PyStr.truthy chunk_text then
            tokens <- encode chunk_text ;;
            Ok (chunks ++ [mkChunk i chunk_text tokens
                                   position
                                   (position + String.length chunk_text)],
                position + String.length chunk_text)
          else Ok st)
       (combine (seq 0 (List.length raw_chunks)) raw_chunks)
       (Ok ([], 0))).

Definition chunk_text_with (text : string) (separators : list string)
  : result (list Chunk) :=
  raw_chunks <- _split_recursive text separators ;;
  number_chunks raw_chunks.

(** [chunk_text(text, chunk_size)] with [separators=None]. *)
Definition chunk_text (text : string) : result (list Chunk) :=
  chunk_text_with text default_separators.

End WithEncoding.

End Chunker.

(* ================================================================== *)
(** ** Sorting as [sorted(..., key=..., reverse=True)] does *)
(* ================================================================== *)

Module PySort.

Section ByKey.

Variable A : Type.
Variable key : A -> Q.

(** [key y > key x] *)
Definition key_gt (y x : A) : bool := negb (Qle_bool (key y) (key x)).

(** Place [x] in front of a descending list whose items all came after [x]
    in the input: [x] passes the items with a strictly greater key only, so
    items with equal keys keep their input order. *)
Fixpoint insert_desc (x : A) (l : list A) : list A :=
  match l with
  | [] => [x]
  | y :: l' => if key_gt y x then y :: insert_desc x l' else x :: l
  end.

(** The stable descending sort of Python's [sorted] and [list.sort] with
    [reverse=True]. *)
Fixpoint sorted_desc (l : list A) : list A :=
  match l with
  | [] => []
  | x :: l' => insert_desc x (sorted_desc l')
  end.

(** Descending by key. *)
Definition desc (x y : A) : Prop := (key y <= key x)%Q.

(** Ranked: [x] precedes [y] when its key is greater, or when the keys are
    equal and [x] came [before] [y] in the input. *)
Definition ranked_before (before : A -> A -> Prop) (x y : A) : Prop :=
  (key y < key x)%Q \/ ((key y == key x)%Q /\ before x y).

End ByKey.

End PySort.

(* ================================================================== *)
(** ** Python floats *)
(* ================================================================== *)

Module PyFloat.

(** [float(n)] for an [int] [n >= 0], as the division [1.0 / n] converts
    its divisor: the nearest double. *)
Definition of_int (n : nat) : float :=
  SF2Prim (binary_normalize prec emax (Z.of_nat n) 0 false).

(** The place of a float in the order of [<] and [==]: the sign class
    first, then exponent and mantissa, both negated below zero.  The two
    zeros share a place; NaN has none, it is given the place of zero. *)
Definition order_key (f : spec_float) : Z * (Z * Z) :=
  match f with
  | S754_nan => (0, (0, 0))%Z
  | S754_zero _ => (0, (0, 0))%Z
  | S754_infinity true => (-2, (0, 0))%Z
  | S754_infinity false => (2, (0, 0))%Z
  | S754_finite true m e => (-1, (- e, - Zpos m))%Z
  | S754_finite false m e => (1, (e, Zpos m))%Z
  end.

Definition key_lt (a b : Z * (Z * Z)) : Prop :=
  (fst a < fst b \/
   (fst a = fst b /\
    (fst (snd a) < fst (snd b) \/
     (fst (snd a) = fst (snd b) /\ snd (snd a) < snd (snd b)))))%Z.

Definition place (x : float) : Z * (Z * Z) := order_key (Prim2SF x).

End PyFloat.

(** [sorted(..., key=..., reverse=True)] and [list.sort] on float keys.
    The sort compares with [<] only.  On keys without NaN that is a strict
    weak order and every stable sort returns the same list, the one below;
    with a NaN among the keys the outcome depends on the algorithm and is
    outside the model. *)
Module FloatSort.

Section ByKey.

Variable A : Type.
Variable key : A -> float.

(** [key y > key x] *)
Definition key_gt (y x : A) : bool := (key x <? key y)%float.

Fixpoint insert_desc (x : A) (l : list A) : list A :=
  match l with
  | [] => [x]
  | y :: l' => if key_gt y x then y :: insert_desc x l' else x :: l
  end.

Fixpoint sorted_desc (l : list A) : list A :=
  match l with
  | [] => []
  | x :: l' => insert_desc x (sorted_desc l')
  end.

(** Descending by key: the later item has no greater key. *)
Definition desc (x y : A) : Prop := (key x <? key y)%float = false.

(** Ranked: [x] precedes [y] when its key is greater, or when the keys are
    equal and [x] came [before] [y] in the input. *)
Definition ranked_before (before : A -> A -> Prop) (x y : A) : Prop :=
  (key y <? key x)%float = true \/
  ((key y =? key x)%float = true /\ before x y).

End ByKey.

End FloatSort.

(* ================================================================== *)
(** ** Chunk objects *)
(* ================================================================== *)

(** A chunk dictionary lives in the store; lists and result pairs hold
    references to it, and [id(chunk)] is the reference. *)
Abbreviation ref := nat (only parsing).

Definition Store : Type := ref -> Chunker.Chunk.

(** A score filter [[(chunk, score) for chunk, score in results
    if score >= threshold]]. *)
Definition at_least (threshold : Q) (p : ref * Q) : bool :=
  Qle_bool threshold (snd p).

(* ================================================================== *)
(** ** [src/core/bm25_retriever.py] *)
(* ================================================================== *)

Module BM25.

(** [BM25Retriever._tokenize] *)
Definition _tokenize (text : string) : list string :=
  let text := PyStr.lower text in
  let tokens := PyStr.findall_words text in
  tokens.

Section WithLibrary.

(** The [rank_bm25] package: the index object built by [BM25Okapi(corpus)]
    and its method [get_scores(query_tokens)], one score per document. *)
Variable okapi : Type.
Variable BM25Okapi : list (list string) -> result okapi.
Variable get_scores : okapi -> list string -> list Q.

Variable store : Store.

Record BM25Retriever : Type := mkBM25Retriever {
  chunks : list ref;
  tokenized_chunks : list (list string);
  bm25 : okapi
}.

(** [BM25Retriever.__init__] *)
Definition __init__ (chunks : list ref) : result BM25Retriever :=
  let tokenized_chunks :=
    map (fun chunk => _tokenize (Chunker.text (store chunk))) chunks in
  bm25 <- BM25Okapi tokenized_chunks ;;
  Ok (mkBM25Retriever chunks tokenized_chunks bm25).

(** [sorted(range(len(scores)), key=lambda i: scores[i], reverse=True)[:top_k]] *)
Definition top_indices (scores : list Q) (top_k : Z) : list nat :=
  slice_to top_k
    (PySort.sorted_desc (fun i => nth i scores 0%Q)
                        (seq 0 (List.length scores))).

(** [BM25Retriever.search] *)
Definition search (self : BM25Retriever) (query : string) (top_k : Z)
  : result (list (ref * Q)) :=
  let query_tokens := _tokenize query in
  let scores := get_scores (bm25 self) query_tokens in
  let top_indices := top_indices scores top_k in
  mapM (fun i =>
          chunk <- getitem (chunks self) (Z.of_nat i) ;;
          score <- getitem scores (Z.of_nat i) ;;
          Ok (chunk, score))
       top_indices.

(** [BM25Retriever.search_with_threshold] *)
Definition search_with_threshold (self : BM25Retriever) (query : string)
  (threshold : Q) (top_k : Z) : result (list (ref * Q)) :=
  results <- search self query top_k ;;
  let filtered := filter (at_least threshold) results in
  Ok filtered.

End WithLibrary.

End BM25.

(* ================================================================== *)
(** ** [src/core/embedding_retriever.py] *)
(* ================================================================== *)

Module Embedding.

Section WithLibrary.

(** The [sentence_transformers] and [faiss] packages.  [build_index] stands
    for loading the model, encoding the texts, normalising and adding them
    to an [IndexFlatIP]; [index_search] for encoding and normalising the
    query and calling [index.search(query_embedding, top_k)].  Its value is
    [zip(indices[0], scores[0])]: the rows of labels and scores. *)
Variable flat_index : Type.
Variable build_index : string -> list string -> result flat_index.
Variable index_search : flat_index -> string -> Z -> result (list (Z * Q)).

Variable store : Store.

Record EmbeddingRetriever : Type := mkEmbeddingRetriever {
  chunks : list ref;
  model_name : string;
  index : flat_index
}.

(** [EmbeddingRetriever.__init__] *)
Definition __init__ (chunks : list ref) (model_name : string)
  : result EmbeddingRetriever :=
  let texts := map (fun chunk => Chunker.text (store chunk)) chunks in
  index <- build_index model_name texts ;;
  Ok (mkEmbeddingRetriever chunks model_name index).

(** [EmbeddingRetriever.search] *)
Definition search (self : EmbeddingRetriever) (query : string) (top_k : Z)
  : result (list (ref * Q)) :=
  rows <- index_search (index self) query top_k ;;
  mapM (fun row : Z * Q =>
          let (idx, score) := row in
          chunk <- getitem (chunks self) idx ;;
          Ok (chunk, score))
       rows.

(** [EmbeddingRetriever.search_with_threshold] *)
Definition search_with_threshold (self : EmbeddingRetriever) (query : string)
  (threshold : Q) (top_k : Z) : result (list (ref * Q)) :=
  results <- search self query top_k ;;
  let filtered := filter (at_least threshold) results in
  Ok filtered.

End WithLibrary.

End Embedding.

(* ================================================================== *)
(** ** [src/core/hybrid_retriever.py] *)
(* ================================================================== *)

Module Hybrid.

(** The value stored per chunk in [rrf_scores]: the chunk and its two
    reciprocal-rank parts, each the float 0.0 until a loop sets it. *)
Record Entry : Type := mkEntry {
  chunk : ref;
  bm25_rrf : float;
  embedding_rrf : float
}.

(** [rrf_scores]: a [dict] keyed by [id(chunk)], which keeps its keys in
    the order of their first insertion. *)
Definition Dict : Type := list (ref * Entry).

Fixpoint contains (d : Dict) (k : ref) : bool :=
  match d with
  | [] => false
  | (k', _) :: d' => (k =? k') || contains d' k
  end.

(** [d[k] = v]: replaces the value of a present key in place, appends a new
    key at the end. *)
Fixpoint setitem (d : Dict) (k : ref) (v : Entry) : Dict :=
  match d with
  | [] => [(k, v)]
  | (k', v') :: d' =>
      if k =? k' then (k, v) :: d' else (k', v') :: setitem d' k v
  end.

(** [d[k]['embedding_rrf'] = x] for a present key [k]. *)
Fixpoint set_embedding_rrf (d : Dict) (k : ref) (x : float) : Dict :=
  match d with
  | [] => []
  | (k', v') :: d' =>
      if k =? k' then (k', mkEntry (chunk v') (bm25_rrf v') x) :: d'
      else (k', v') :: set_embedding_rrf d' k x
  end.

Definition k_constant : nat := 60.

(** [1.0 / (k_constant + rank)] *)
Definition rrf_score (rank : nat) : float :=
  (1 / PyFloat.of_int (k_constant + rank))%float.
Arguments rrf_score : simpl never.

(** The first loop of [search], over [enumerate(bm25_results, start=1)]. *)
Definition add_bm25 (rrf_scores : Dict) (bm25_results : list (ref * Q)) : Dict :=
  fold_left
    (fun (rrf_scores : Dict) (item : nat * (ref * Q)) =>
       let '(rank, (chunk, score)) := item in
       let chunk_id := chunk in
       setitem rrf_scores chunk_id (mkEntry chunk (rrf_score rank) 0%float))
    (enumerate1 bm25_results) rrf_scores.

(** The second loop, over [enumerate(embedding_results, start=1)]. *)
Definition add_embedding (rrf_scores : Dict) (embedding_results : list (ref * Q))
  : Dict :=
  fold_left
    (fun (rrf_scores : Dict) (item : nat * (ref * Q)) =>
       let '(rank, (chunk, score)) := item in
       let chunk_id := chunk in
       if contains rrf_scores chunk_id
       then set_embedding_rrf rrf_scores chunk_id (rrf_score rank)
       else setitem rrf_scores chunk_id (mkEntry chunk 0%float (rrf_score rank)))
    (enumerate1 embedding_results) rrf_scores.

(** The third loop: one [(chunk, hybrid_score)] per item of the dictionary.
    [alpha] is a float; an [int] that a double holds exactly gives the same
    scores. *)
Definition hybrid_results (alpha : float) (rrf_scores : Dict)
  : list (ref * float) :=
  map (fun kv : ref * Entry =>
         let data := snd kv in
         let hybrid_score :=
           (alpha * embedding_rrf data + (1 - alpha) * bm25_rrf data)%float in
         (chunk data, hybrid_score))
      rrf_scores.

(** Lines 36 to 71 of [search]: fusion of the two result lists. *)
Definition fuse (bm25_results embedding_results : list (ref * Q))
  (alpha : float) (top_k : Z) : list (ref * float) :=
  let rrf_scores := add_embedding (add_bm25 [] bm25_results) embedding_results in
  let hybrid_results := hybrid_results alpha rrf_scores in
  slice_to top_k (FloatSort.sorted_desc snd hybrid_results).

Section WithLibrary.

Variable okapi : Type.
Variable BM25Okapi : list (list string) -> result okapi.
Variable get_scores : okapi -> list string -> list Q.
Variable flat_index : Type.
Variable build_index : string -> list string -> result flat_index.
Variable index_search : flat_index -> string -> Z -> result (list (Z * Q)).
Variable store : Store.

Record HybridRetriever : Type := mkHybridRetriever {
  chunks : list ref;
  bm25 : BM25.BM25Retriever okapi;
  embedding : Embedding.EmbeddingRetriever flat_index
}.

(** [HybridRetriever.__init__] *)
Definition __init__ (chunks : list ref) (model_name : string)
  : result HybridRetriever :=
  bm25 <- BM25.__init__ BM25Okapi store chunks ;;
  embedding <- Embedding.__init__ build_index store chunks model_name ;;
  Ok (mkHybridRetriever chunks bm25 embedding).

(** [HybridRetriever.search] *)
Definition search (self : HybridRetriever) (query : string) (top_k : Z)
  (alpha : float) (bm25_k embedding_k : Z) : result (list (ref * float)) :=
  bm25_results <- BM25.search get_scores (bm25 self) query bm25_k ;;
  embedding_results <-
    Embedding.search index_search (embedding self) query embedding_k ;;
  Ok (fuse bm25_results embedding_results alpha top_k).

(** [HybridRetriever.search_bm25_only] *)
Definition search_bm25_only (self : HybridRetriever) (query : string)
  (top_k : Z) : result (list (ref * Q)) :=
  BM25.search get_scores (bm25 self) query top_k.

(** [HybridRetriever.search_embedding_only] *)
Definition search_embedding_only (self : HybridRetriever) (query : string)
  (top_k : Z) : result (list (ref * Q)) :=
  Embedding.search index_search (embedding self) query top_k.

End WithLibrary.

End Hybrid.

(* ================================================================== *)
(** ** Reciprocal rank fusion as the specification states it *)
(* ================================================================== *)

Module RRF.

(** The 1-based rank of chunk [c] in a result list whose first item has
    rank [start]. *)
Fixpoint rank_from (start : nat) (results : list (ref * Q)) (c : ref)
  : option nat :=
  match results with
  | [] => None
  | (c', _) :: rest =>
      if c =? c' then Some start else rank_from (S start) rest c
  end.

(** [1 / (60 + r)] for a chunk at rank [r], 0 for a chunk that is absent. *)
Definition contribution_from (start : nat) (results : list (ref * Q)) (c : ref)
  : float :=
  match rank_from start results c with
  | Some r => Hybrid.rrf_score r
  | None => 0%float
  end.

Definition contribution (results : list (ref * Q)) (c : ref) : float :=
  contribution_from 1 results c.

(** The fused score, in the arithmetic of the code. *)
Definition fused_score (alpha semantic lexical : float) : float :=
  (alpha * semantic + (1 - alpha) * lexical)%float.

Definition fused (alpha : float) (lexical semantic : list (ref * Q)) (c : ref)
  : float :=
  fused_score alpha (contribution semantic c) (contribution lexical c).

Definition listed (results : list (ref * Q)) (c : ref) : bool :=
  existsb (Nat.eqb c) (map fst results).

(** The unique chunks in first-seen order: the lexical list, then the
    chunks only the semantic list has. *)
Definition candidates (lexical semantic : list (ref * Q)) : list ref :=
  map fst lexical ++ filter (fun c => negb (listed lexical c)) (map fst semantic).

Definition scored (alpha : float) (lexical semantic : list (ref * Q))
  : list (ref * float) :=
  map (fun c => (c, fused alpha lexical semantic c)) (candidates lexical semantic).

(** The place of a chunk in the first-seen order. *)
Fixpoint position (order : list ref) (c : ref) : nat :=
  match order with
  | [] => 0
  | x :: order' => if c =? x then 0 else S (position order' c)
  end.

Definition seen_before (order : list ref) (p q : ref * float) : Prop :=
  position order (fst p) < position order (fst q).

Definition nonzero (p : ref * float) : bool := negb (snd p =? 0)%float.

(** The ranked list of the specification: chunks with a nonzero fused score
    only, descending, ties in first-seen order, cut to [top_k]. *)
Definition ranking (alpha : float) (top_k : Z)
  (lexical semantic : list (ref * Q)) : list (ref * float) :=
  slice_to top_k
    (FloatSort.sorted_desc snd (filter nonzero (scored alpha lexical semantic))).

(** Two rankings restricted to the chunks both contain. *)
Definition restrict (keep ranking : list ref) : list ref :=
  filter (fun c => existsb (Nat.eqb c) keep) ranking.

Definition same_order_on_common (a b : list ref) : bool :=
  if list_eq_dec Nat.eq_dec (restrict b a) (restrict a b) then true else false.

(** A result list that holds a chunk more than once, as the padded rows of
    the semantic retriever do.  The second loop of [search] overwrites
    [embedding_rrf] at every occurrence, so the last rank of a chunk is the
    one that counts. *)
Fixpoint last_rank_from (start : nat) (results : list (ref * Q)) (c : ref)
  : option nat :=
  match results with
  | [] => None
  | (c', _) :: rest =>
      match last_rank_from (S start) rest c with
      | Some r => Some r
      | None => if c =? c' then Some start else None
      end
  end.

Definition last_contribution (results : list (ref * Q)) (c : ref) : float :=
  match last_rank_from 1 results c with
  | Some r => Hybrid.rrf_score r
  | None => 0%float
  end.

Definition fused_left (alpha : float) (lexical semantic : list (ref * Q))
  (c : ref) : float :=
  fused_score alpha (last_contribution semantic c) (contribution lexical c).

(** The chunks of a list in the order of their last occurrences. *)
Fixpoint last_seen (l : list ref) : list ref :=
  match l with
  | [] => []
  | c :: l' =>
      if existsb (Nat.eqb c) l' then last_seen l' else c :: last_seen l'
  end.

(** The lengths of candidate lists for which the properties of the
    reciprocal ranks below are checked by evaluation. *)
Definition rank_bound : nat := 4096.

(** What the boundary values of [alpha] need of the reciprocal rank [x]:
    it is positive, and multiplying by 0 or 1 and adding 0 are exact. *)
Definition exact_at (x : float) : bool :=
  (0 <? x)%float &&
  PrimFloat.Leibniz.eqb (0 * x)%float 0%float &&
  PrimFloat.Leibniz.eqb (1 * x)%float x &&
  PrimFloat.Leibniz.eqb (0 + x)%float x &&
  PrimFloat.Leibniz.eqb (x + 0)%float x.

Definition rank_checked (r : nat) : bool :=
  (Hybrid.rrf_score (S r) <? Hybrid.rrf_score r)%float &&
  exact_at (Hybrid.rrf_score r).

End RRF.

(** The dictionary of [HybridRetriever.search] seen through its key order
    and its lookups, and its two loops with their bodies named. *)
Module DictView.

Import Hybrid.

Definition keys (d : Dict) : list ref := map fst d.

Fixpoint lookup (d : Dict) (k : ref) : option Entry :=
  match d with
  | [] => None
  | (k', v) :: d' => if k =? k' then Some v else lookup d' k
  end.

(** How the key order grows when the keys [cs] are stored in turn. *)
Definition add_keys (ks cs : list ref) : list ref :=
  fold_left (fun ks c => if existsb (Nat.eqb c) ks then ks else ks ++ [c]) cs ks.

Definition bm25_step (rrf_scores : Dict) (item : nat * (ref * Q)) : Dict :=
  let '(rank, (chunk, score)) := item in
  setitem rrf_scores chunk (mkEntry chunk (rrf_score rank) 0%float).

Definition embedding_step (rrf_scores : Dict) (item : nat * (ref * Q)) : Dict :=
  let '(rank, (chunk, score)) := item in
  if contains rrf_scores chunk
  then set_embedding_rrf rrf_scores chunk (rrf_score rank)
  else setitem rrf_scores chunk (mkEntry chunk 0%float (rrf_score rank)).

(** The entry the specification gives a chunk. *)
Definition entry_of (lexical semantic : list (ref * Q)) (c : ref) : Entry :=
  mkEntry c (RRF.contribution lexical c) (RRF.contribution semantic c).

(** The entry the two loops leave for a chunk when the semantic list may
    repeat chunks. *)
Definition entry_left (lexical semantic : list (ref * Q)) (c : ref) : Entry :=
  mkEntry c (RRF.contribution lexical c) (RRF.last_contribution semantic c).

End DictView.

(* ================================================================== *)
(** ** Instrumentation and stand-ins used by the statements *)
(* ================================================================== *)

Module Trace.

(** The branch of [_split_recursive] that returned a piece: the budget test
    ([final_chunks.append(split)]), the character-window comprehension of
    the empty separator, or the exhausted separator list. *)
Inductive origin : Type :=
| Kept
| Window
| Unsplit.

Section WithEncoding.

Variable encode : string -> result nat.
Variable chunk_size : Z.

(** [_split_recursive] with every returned piece tagged by its origin. *)
Fixpoint split_traced (text : string) (seps : list string)
  : result (list (string * origin)) :=
  match seps with
  | [] => Ok (if PyStr.truthy (PyStr.strip text) then [(text, Unsplit)] else [])
  | separator :: remaining_seps =>
      if negb (PyStr.truthy (PyStr.strip text)) then Ok []
      else if PyStr.truthy separator then
        fold_left
          (fun (acc : result (list (string * origin))) (split : string) =>
             final_chunks <- acc ;;
             if negb (PyStr.truthy (PyStr.strip split)) then Ok final_chunks
             else
               tokens <- encode split ;;
               if (Z.of_nat tokens <=? chunk_size)%Z
               then Ok (final_chunks ++ [(split, Kept)])
               else
                 sub_chunks <- split_traced split remaining_seps ;;
                 Ok (final_chunks ++ sub_chunks))
          (PyStr.split text separator)
          (Ok [])
      else
        windows <- Chunker.char_windows chunk_size text ;;
        Ok (map (fun w => (w, Window)) windows)
  end.

(** The origin of the piece a chunk was numbered from. *)
Definition origin_of (traced : list (string * origin)) (c : Chunker.Chunk)
  : option origin :=
  option_map snd (nth_error traced (Chunker.chunk_id c)).

(** The budget invariant as the specification words it: the recorded token
    count is within the budget unless the chunk is a fallback window. *)
Definition within_budget_or_window (traced : list (string * origin))
  (c : Chunker.Chunk) : bool :=
  (Z.of_nat (Chunker.token_count c) <=? chunk_size)%Z
  || match origin_of traced c with
     | Some Window => true
     | _ => false
     end.

End WithEncoding.

End Trace.

(** The loops of [chunk_text], named for the proofs: the body of the loop
    over [splits] with the recursive call abstracted, the body of the
    numbering loop, and what is known of a piece from its origin. *)
Module ChunkerLoops.

Import PyStr Chunker Trace.

Section WithEncoding.

Variable encode : string -> result nat.
Variable chunk_size : Z.

(** The body of the loop over [splits], the recursive call abstracted. *)
Definition body (rec : string -> result (list string))
  (acc : result (list string)) (split : string) : result (list string) :=
  final_chunks <- acc ;;
  if negb (truthy (strip split)) then Ok final_chunks
  else
    tokens <- encode split ;;
    if (Z.of_nat tokens <=? chunk_size)%Z
    then Ok (final_chunks ++ [split])
    else sub_chunks <- rec split ;; Ok (final_chunks ++ sub_chunks).

Definition body_traced (rec : string -> result (list (string * origin)))
  (acc : result (list (string * origin))) (split : string)
  : result (list (string * origin)) :=
  final_chunks <- acc ;;
  if negb (truthy (strip split)) then Ok final_chunks
  else
    tokens <- encode split ;;
    if (Z.of_nat tokens <=? chunk_size)%Z
    then Ok (final_chunks ++ [(split, Kept)])
    else sub_chunks <- rec split ;; Ok (final_chunks ++ sub_chunks).

(** A piece passed the budget test: its token count is at most
    [chunk_size]. *)
Definition within (piece : string) : Prop :=
  exists tokens, encode piece = Ok tokens /\ (Z.of_nat tokens <= chunk_size)%Z.

Definition origin_ok (seps : list string) (po : string * origin) : Prop :=
  match snd po with
  | Kept => within (fst po)
  | Window => (Z.of_nat (String.length (fst po)) <= chunk_size)%Z
  | Unsplit => ~ In EmptyString seps
  end.

Definition number_step (acc : result (list Chunk * nat)) (ic : nat * string)
  : result (list Chunk * nat) :=
  st <- acc ;;
  let '(chunks, position) := st in
  let '(i, raw) := ic in
  let chunk_text := strip raw in
  if truthy chunk_text then
    tokens <- encode chunk_text ;;
    Ok (chunks ++ [mkChunk i chunk_text tokens position
                           (position + String.length chunk_text)],
        position + String.length chunk_text)
  else Ok st.

(** A chunk of the output and the piece it was numbered from. *)
Definition numbered (raw : list string) (c : Chunk) : Prop :=
  exists p, nth_error raw (chunk_id c) = Some p /\
            text c = strip p /\
            truthy (text c) = true /\
            encode (text c) = Ok (token_count c).

End WithEncoding.

End ChunkerLoops.

Module Examples.

(** A byte-pair style tokenizer in miniature: the longest entry of [vocab]
    that starts the rest of the text is one token, any other character is a
    token of its own. *)
Definition longest_match (vocab : list string) (s : string) : nat :=
  fold_left
    (fun best tok => if prefix tok s then Nat.max best (String.length tok) else best)
    vocab 1.

Fixpoint greedy_len_from (vocab : list string) (skip : nat) (s : string) : nat :=
  match s with
  | EmptyString => 0
  | String _ s' =>
      match skip with
      | S k => greedy_len_from vocab k s'
      | O => S (greedy_len_from vocab (longest_match vocab s - 1) s')
      end
  end.

Definition greedy_len (vocab : list string) (s : string) : nat :=
  greedy_len_from vocab 0 s.

(** A vocabulary with a merged token that starts with a space, as the
    vocabularies of byte-pair encodings have for frequent words: the word
    after a space is one token, the word alone is two. *)
Definition space_vocab : list string := [" nucleus"; "nucle"; "us"].

(** A tokenizer call that never raises and counts with [count]. *)
Definition counting (count : string -> nat) (s : string) : result nat :=
  Ok (count s).

(** One token per character. *)
Definition chars : string -> result nat := counting String.length.

(** A tokenizer call that refuses a text containing one of the [special]
    tokens, as the default call of [tiktoken] does, and counts with [count]
    otherwise. *)
Definition guarded (special : list string) (count : string -> nat) (s : string)
  : result nat :=
  if existsb (fun t => PyStr.occurs t s) special then Raise ValueError
  else Ok (count s).

Definition endoftext : list string := ["<|endoftext|>"].

(** A lexical index for examples: the score of a document is the number of
    occurrences of the query tokens in it. *)
Definition count_index : Type := list (list string).

Definition count_build (corpus : list (list string)) : result count_index :=
  Ok corpus.

Definition count_scores (ix : count_index) (query_tokens : list string) : list Q :=
  map (fun doc =>
         fold_left
           (fun (score : Q) q =>
              (score + inject_Z (Z.of_nat (count_occ string_dec doc q)))%Q)
           query_tokens 0%Q)
      ix.

(** The value the exact inner-product index reports for a missing row:
    the most negative single-precision number. *)
Definition lowest_float32 : Q :=
  (- inject_Z (2 ^ 128 - 2 ^ 104))%Q.

(** An exact inner-product index for examples: it holds, per query, the
    similarity of every stored vector.  [flat_search] ranks them, returns
    exactly [k] rows and labels the rows it cannot fill with [-1].  Of two
    vectors with the same similarity it lists the later one first. *)
Definition flat : Type := string -> list Q.

Definition flat_search (ix : flat) (query : string) (k : Z)
  : result (list (Z * Q)) :=
  if (k <=? 0)%Z then Raise AssertionError
  else
    let sims := ix query in
    let ranked :=
      PySort.sorted_desc (fun i => nth i sims 0%Q)
                         (rev (seq 0 (List.length sims))) in
    let found :=
      map (fun i => (Z.of_nat i, nth i sims 0%Q)) (firstn (Z.to_nat k) ranked) in
    Ok (found ++ repeat ((-1)%Z, lowest_float32) (Z.to_nat k - List.length found)).

(** A store for examples: chunk [r] has the text [texts[r]]. *)
Definition store_of (texts : list string) : Store :=
  fun r =>
    let t := nth r texts EmptyString in
    Chunker.mkChunk r t 0 0 (String.length t).

(** Three chunks and a query of punctuation marks, with the default
    [top_k]. *)
Definition three_texts : list string :=
  ["Force equals mass times acceleration.";
   "A line has a slope.";
   "Cells have a nucleus."].

(** An embedding index for examples, built from a table of similarities. *)
Definition flat_build (similarities : string -> list Q) (model_name : string)
  (texts : list string) : result flat :=
  Ok similarities.

(** Three chunks on which the lexical and the semantic order disagree: the
    query shares two words with the first text and one with the second,
    and is closest in the embedding space to the third. *)
Definition physics_texts : list string :=
  ["Force equals mass times acceleration.";
   "A force is a push.";
   "Cells have a nucleus."].

Definition physics_similarities (query : string) : list Q :=
  [(1 # 10)%Q; (5 # 10)%Q; (9 # 10)%Q].

(** What the semantic retriever returns for the three chunks when asked
    for [3 + m] rows: the three real pairs, then [m] times the last chunk
    with the padding score. *)
Definition padded_rows (m : nat) : list (ref * Q) :=
  [(2, (9 # 10)%Q); (1, (5 # 10)%Q); (0, (1 # 10)%Q)]
  ++ repeat (2, lowest_float32) m.

Definition physics_retriever : Hybrid.HybridRetriever count_index flat :=
  Hybrid.mkHybridRetriever
    [0; 1; 2]
    (BM25.mkBM25Retriever [0; 1; 2] (map BM25._tokenize physics_texts)
                          (map BM25._tokenize physics_texts))
    (Embedding.mkEmbeddingRetriever [0; 1; 2] "all-MiniLM-L6-v2"
                                    physics_similarities).

End Examples.

(* ================================================================== *)
(** ** The layout of numbered chunks *)
(* ================================================================== *)

Module Layout.

Import PyStr Chunker.

(** [s[n:]] *)
Fixpoint drop (n : nat) (s : string) : string :=
  match n, s with
  | O, _ => s
  | S n', String _ s' => drop n' s'
  | S _, EmptyString => EmptyString
  end.

(** Chunks laid end to end from [position]: each starts where the one
    before it ended and spans the length of its text. *)
Fixpoint laid_out (position : nat) (chunks : list Chunk) : Prop :=
  match chunks with
  | [] => True
  | c :: rest =>
      start_pos c = position /\
      end_pos c = position + String.length (Chunker.text c) /\
      laid_out (end_pos c) rest
  end.

Section WithEncoding.

Variable encode : string -> result nat.

(** The numbering loop of [chunk_text] read front to back: the chunks made
    from the enumerated pieces [items] when the loop enters them with
    [position]. *)
Fixpoint number_from (position : nat) (items : list (nat * string))
  : result (list Chunk) :=
  match items with
  | [] => Ok []
  | (i, raw) :: rest =>
      let chunk_text := strip raw in
      if truthy chunk_text then
        tokens <- encode chunk_text ;;
        chunks <- number_from (position + String.length chunk_text) rest ;;
        Ok (mkChunk i chunk_text tokens position
                    (position + String.length chunk_text) :: chunks)
      else number_from position rest
  end.

End WithEncoding.

End Layout.

(* ================================================================== *)
(** ** Shapes of tokens and subscripts *)
(* ================================================================== *)

Module Shapes.

(** A character [str.lower] leaves as it is. *)
Definition is_lowered (c : ascii) : bool :=
  if ascii_dec (PyStr.lower_char c) c then true else false.

(** A subscript a list of length [n] accepts: [-n <= i < n]. *)
Definition in_range (n : nat) (i : Z) : Prop :=
  (- Z.of_nat n <= i < Z.of_nat n)%Z.

(** What every entry of the fusion dictionary satisfies: it is filed under
    its own chunk. *)
Definition entry_ok (kv : ref * Hybrid.Entry) : Prop :=
  Hybrid.chunk (snd kv) = fst kv.

End Shapes.

(* ================================================================== *)
(** ** Exceptions of the ingestion pipeline *)
(* ================================================================== *)

Module Pipe.

(** What the pipeline can raise besides the built-in exceptions of [Py]:
    a missing dictionary key, a missing file, and whatever a package
    ([pdfplumber], [csv]) raises. *)
Inductive failure : Type :=
| Builtin (e : Py.exn)
| KeyError (key : string)
| FileNotFoundError (path : string)
| LibraryError.

Inductive outcome (A : Type) : Type :=
| Done (a : A)
| Fail (e : failure).
Arguments Done {A} a.
Arguments Fail {A} e.

Definition bind {A B : Type} (m : outcome A) (k : A -> outcome B) : outcome B :=
  match m with
  | Done a => k a
  | Fail e => Fail e
  end.

(** A call into the code of [Py]. *)
Definition lift {A : Type} (m : Py.result A) : outcome A :=
  match m with
  | Py.Ok a => Done a
  | Py.Raise e => Fail (Builtin e)
  end.

(** [d[key]] on a dictionary field that may be absent. *)
Definition subscript {A : Type} (key : string) (field : option A) : outcome A :=
  match field with
  | Some a => Done a
  | None => Fail (KeyError key)
  end.

Fixpoint mapM {A B : Type} (f : A -> outcome B) (l : list A) : outcome (list B) :=
  match l with
  | [] => Done []
  | x :: l' => bind (f x) (fun y => bind (mapM f l') (fun ys => Done (y :: ys)))
  end.

End Pipe.

Notation "x <~ m ;; k" := (Pipe.bind m (fun x => k))
  (at level 61, m at next level, right associativity) : py_scope.

(* ================================================================== *)
(** ** Documents, metadata rows and chunk dictionaries *)
(* ================================================================== *)

Module Docs.

Import Pipe.

(** A dictionary with string keys, in insertion order. *)
Definition StrDict (V : Type) : Type := list (string * V).

(** [d.get(key)]; [key in d] is [d.get(key)] being present. *)
Fixpoint get {V : Type} (d : StrDict V) (key : string) : option V :=
  match d with
  | [] => None
  | (k, v) :: d' => if String.eqb key k then Some v else get d' key
  end.

(** [d[key] = v] *)
Fixpoint set {V : Type} (d : StrDict V) (key : string) (v : V) : StrDict V :=
  match d with
  | [] => [(key, v)]
  | (k, v') :: d' =>
      if String.eqb key k then (k, v) :: d' else (k, v') :: set d' key v
  end.

(** A row of the metadata file: column name to cell. *)
Definition Metadata : Type := StrDict string.

(** The dictionary [extract_text_from_pdf] returns, with the [metadata] key
    the loaders add; a key that is absent is [None]. *)
Record Document : Type := mkDocument {
  doc_filename : option string;
  doc_num_pages : option nat;
  doc_text : option string;
  doc_pages : option (list string);
  doc_metadata : option Metadata
}.

(** [doc['metadata'] = m] *)
Definition with_metadata (doc : Document) (m : Metadata) : Document :=
  mkDocument (doc_filename doc) (doc_num_pages doc) (doc_text doc)
             (doc_pages doc) (Some m).

(** A chunk dictionary after [chunk_document]. *)
Record DocChunk : Type := mkDocChunk {
  base : Chunker.Chunk;
  filename : string;
  metadata : Metadata
}.

Definition get_default {A : Type} (field : option A) (default : A) : A :=
  match field with
  | Some a => a
  | None => default
  end.

Section WithEncoding.

Variable encode : string -> result nat.

(** [chunk_document] of [src/core/chunker.py] *)
Definition chunk_document (document : Document) (chunk_size : Z)
  : outcome (list DocChunk) :=
  text <~ subscript "text" (doc_text document) ;;
  chunks <~ lift (Chunker.chunk_text encode chunk_size text) ;;
  Done (map (fun chunk =>
               mkDocChunk chunk
                          (get_default (doc_filename document) "unknown")
                          (get_default (doc_metadata document) []))
            chunks).

End WithEncoding.

End Docs.

(* ================================================================== *)
(** ** [src/core/csv_loader.py] *)
(* ================================================================== *)

Module CsvLoader.

Import Pipe Docs.

Section WithFiles.

(** [Path.exists] and the rows [csv.DictReader] yields for a file. *)
Variable path_exists : string -> bool.
Variable read_rows : string -> outcome (list Metadata).

(** [load_csv_metadata] *)
Definition load_csv_metadata (csv_path : string) : outcome (list Metadata) :=
  if negb (path_exists csv_path) then Fail (FileNotFoundError csv_path)
  else
    rows <~ read_rows csv_path ;;
    let metadata_list := fold_left (fun acc row => acc ++ [row]) rows [] in
    Done metadata_list.

End WithFiles.

(** [{item['filename']: item for item in metadata}] *)
Definition metadata_lookup (metadata : list Metadata)
  : outcome (StrDict Metadata) :=
  fold_left
    (fun (acc : outcome (StrDict Metadata)) (item : Metadata) =>
       d <~ acc ;;
       key <~ subscript "filename" (get item "filename") ;;
       Done (set d key item))
    metadata (Done []).

(** [match_metadata_to_documents] *)
Definition match_metadata_to_documents (documents : list Document)
  (metadata : list Metadata) : outcome (list Document) :=
  metadata_lookup <~ metadata_lookup metadata ;;
  Pipe.mapM
    (fun doc =>
       filename <~ subscript "filename" (doc_filename doc) ;;
       match get metadata_lookup filename with
       | Some row => Done (with_metadata doc row)
       | None => Done (with_metadata doc [])
       end)
    documents.

(** The last row of [metadata] whose [filename] cell is [name]. *)
Fixpoint last_row (metadata : list Metadata) (name : string) : option Metadata :=
  match metadata with
  | [] => None
  | item :: rest =>
      match last_row rest name with
      | Some row => Some row
      | None =>
          match get item "filename" with
          | Some k => if String.eqb name k then Some item else None
          | None => None
          end
      end
  end.

End CsvLoader.

(* ================================================================== *)
(** ** [src/core/pdf_extractor.py] *)
(* ================================================================== *)

Module PdfExtractor.

Import Pipe Docs.

(** [s[-1]] and [s[0]] of a non-empty string *)
Fixpoint last_char (s : string) : option ascii :=
  match s with
  | EmptyString => None
  | String c EmptyString => Some c
  | String _ s' => last_char s'
  end.

Definition first_char (s : string) : option ascii :=
  match s with
  | EmptyString => None
  | String c _ => Some c
  end.

(** [stripped[-1] in '.!?:'] *)
Definition ends_sentence (stripped : string) : bool :=
  match last_char stripped with
  | Some c => existsb (Ascii.eqb c) ["."; "!"; "?"; ":"]%char
  | None => false
  end.

(** [s[0].isupper()] *)
Definition starts_upper (s : string) : bool :=
  match first_char s with
  | Some c => PyStr.isupper_latin1 (PyStr.code c)
  | None => false
  end.

(** The loop over [enumerate(lines)]: every non-blank line trimmed, and an
    empty entry after a line that ends a sentence when the line after it is
    not blank and starts with a capital. *)
Fixpoint process_lines (lines : list string) : list string :=
  match lines with
  | [] => []
  | line :: rest =>
      let stripped := PyStr.strip line in
      if negb (PyStr.truthy stripped) then process_lines rest
      else
        let paragraph_end :=
          match rest with
          | [] => false
          | next :: _ =>
              PyStr.truthy stripped
              && ends_sentence stripped
              && PyStr.truthy (PyStr.strip next)
              && starts_upper (PyStr.strip next)
          end in
        stripped :: (if paragraph_end then [EmptyString] else [])
                 ++ process_lines rest
  end.

(** The text kept for a page with text. *)
Definition process_page (page_text : string) : string :=
  let lines := PyStr.split page_text Chunker.line_break in
  String.concat Chunker.line_break (process_lines lines).

(** The pages with text, processed; a page without text ([None] or empty)
    is left out. *)
Definition pages_text (pages : list (option string)) : list string :=
  flat_map
    (fun page_text : option string =>
       match page_text with
       | Some t => if PyStr.truthy t then [process_page t] else []
       | None => []
       end)
    pages.

Section WithFiles.

(** [Path.exists], [Path.name], and [pdfplumber]: the value of
    [page.extract_text()] for each page of the file. *)
Variable path_exists : string -> bool.
Variable path_name : string -> string.
Variable open_pages : string -> outcome (list (option string)).

(** [extract_text_from_pdf] *)
Definition extract_text_from_pdf (pdf_path : string) : outcome Document :=
  if negb (path_exists pdf_path) then Fail (FileNotFoundError pdf_path)
  else
    pages <~ open_pages pdf_path ;;
    let pages_text := pages_text pages in
    let full_text := String.concat Chunker.paragraph_break pages_text in
    Done (mkDocument (Some (path_name pdf_path))
                     (Some (List.length pages_text))
                     (Some full_text)
                     (Some pages_text)
                     None).

(** [extract_from_multiple_pdfs]: a path whose extraction raises is
    reported and skipped. *)
Definition extract_from_multiple_pdfs (pdf_paths : list string) : list Document :=
  fold_left
    (fun results pdf_path =>
       match extract_text_from_pdf pdf_path with
       | Done result => results ++ [result]
       | Fail _ => results
       end)
    pdf_paths [].

End WithFiles.

End PdfExtractor.

(* ================================================================== *)
(** ** [src/core/ingestion.py] *)
(* ================================================================== *)

Module Ingestion.

Import Pipe Docs.

Record IngestionPipeline : Type := mkIngestionPipeline {
  chunk_size : Z
}.

Section WithFiles.

Variable encode : string -> result nat.
Variable path_exists : string -> bool.
Variable path_name : string -> string.
Variable open_pages : string -> outcome (list (option string)).
Variable read_rows : string -> outcome (list Metadata).

(** [pdf_dir.glob("*.pdf")], as path strings. *)
Variable glob_pdf : string -> list string.

(** The loop [for doc in documents: all_chunks.extend(chunk_document(...))] *)
Definition chunk_all (self : IngestionPipeline) (documents : list Document)
  : outcome (list DocChunk) :=
  fold_left
    (fun (acc : outcome (list DocChunk)) (doc : Document) =>
       all_chunks <~ acc ;;
       chunks <~ chunk_document encode doc (chunk_size self) ;;
       Done (all_chunks ++ chunks))
    documents (Done []).

(** [IngestionPipeline.ingest_documents] *)
Definition ingest_documents (self : IngestionPipeline) (pdf_dir : string)
  (csv_path : option string) : outcome (list DocChunk) :=
  let pdf_files := glob_pdf pdf_dir in
  match pdf_files with
  | [] => Fail (Builtin ValueError)
  | _ =>
      let pdf_paths := pdf_files in
      let documents :=
        PdfExtractor.extract_from_multiple_pdfs
          path_exists path_name open_pages pdf_paths in
      documents <~
        match csv_path with
        | Some path =>
            if PyStr.truthy path then
              metadata <~ CsvLoader.load_csv_metadata path_exists read_rows path ;;
              CsvLoader.match_metadata_to_documents documents metadata
            else Done documents
        | None => Done documents
        end ;;
      chunk_all self documents
  end.

(** [IngestionPipeline.ingest_single_pdf] *)
Definition ingest_single_pdf (self : IngestionPipeline) (pdf_path : string)
  (metadata : option Metadata) : outcome (list DocChunk) :=
  document <~
    PdfExtractor.extract_text_from_pdf path_exists path_name open_pages pdf_path ;;
  let document :=
    match metadata with
    | Some (item :: items) => with_metadata document (item :: items)
    | _ => with_metadata document []
    end in
  chunk_document encode document (chunk_size self).

End WithFiles.

End Ingestion.

(* ================================================================== *)
(** ** Shapes and stand-ins for the pipeline statements *)
(* ================================================================== *)

Module PipeShapes.

Import Pipe Docs.

(** Text lines with at most one empty entry between two of them: the list
    neither starts nor ends with an empty entry and has no two in a row. *)
Fixpoint separated (l : list string) : Prop :=
  match l with
  | [] => True
  | x :: rest =>
      PyStr.truthy x = true /\
      match rest with
      | EmptyString :: rest' => rest' <> [] /\ separated rest'
      | _ => separated rest
      end
  end.

Definition has_text (page_text : option string) : bool :=
  match page_text with
  | Some t => PyStr.truthy t
  | None => false
  end.

Definition succeeds {A : Type} (m : outcome A) : bool :=
  match m with
  | Done _ => true
  | Fail _ => false
  end.

(** The metadata [match_metadata_to_documents] gives a document. *)
Definition matched (metadata : list Metadata) (doc : Document) : Document :=
  with_metadata doc
    match doc_filename doc with
    | Some name => get_default (CsvLoader.last_row metadata name) []
    | None => []
    end.

End PipeShapes.

Module Shelf.

Import Pipe Docs.

(** A directory for examples: one readable PDF of two pages (the second
    without text), one PDF that cannot be read, and a metadata file; and a
    second directory whose only PDF cannot be read. *)
Fixpoint basename_from (cur s : string) : string :=
  match s with
  | EmptyString => cur
  | String c s' =>
      if Ascii.eqb c "/" then basename_from EmptyString s'
      else basename_from (cur ++ String c EmptyString) s'
  end.

Definition path_name (path : string) : string := basename_from EmptyString path.

Definition path_exists (path : string) : bool :=
  existsb (String.eqb path) ["docs/physics.pdf"; "docs/broken.pdf"; "docs/meta.csv"].

Definition physics_page : string :=
  " Force is mass times acceleration." ++ Chunker.line_break
  ++ "It is a law" ++ Chunker.line_break
  ++ "  " ++ Chunker.line_break
  ++ "of motion. ".

Definition open_pages (path : string) : outcome (list (option string)) :=
  if String.eqb path "docs/physics.pdf" then Done [Some physics_page; None]
  else Fail LibraryError.

Definition read_rows (path : string) : outcome (list Metadata) :=
  Done [[("filename", "physics.pdf"); ("subject", "Maths")];
        [("filename", "physics.pdf"); ("subject", "Physics")]].

Definition glob_pdf (pdf_dir : string) : list string :=
  if String.eqb pdf_dir "docs" then ["docs/broken.pdf"; "docs/physics.pdf"]
  else if String.eqb pdf_dir "cellar" then ["cellar/torn.pdf"]
  else [].

End Shelf.

(* ================================================================== *)
(** ** [src/core/prompts.py] *)
(* ================================================================== *)

Module Prompts.

Import Pipe Docs.

Section WithTexts.

(** The prompt texts of the module, as they stand in the source. *)
Variable MARK_MODE_PROMPT : string.
Variable EXPLAIN_MODE_PROMPT : string.
Variable EXAMPLE_MODE_PROMPT : string.
Variable FLASHCARDS_MODE_PROMPT : string.
Variable GRADE_LEVEL_ADJUSTMENTS : StrDict string.

(** [get_system_prompt]; [grade_level] may be [None]. *)
Definition get_system_prompt (mode : string) (grade_level : option string)
  : outcome string :=
  let mode_prompts :=
    [("mark", MARK_MODE_PROMPT);
     ("explain", EXPLAIN_MODE_PROMPT);
     ("example", EXAMPLE_MODE_PROMPT);
     ("flashcards", FLASHCARDS_MODE_PROMPT)] in
  match get mode_prompts mode with
  | None => Fail (Builtin ValueError)
  | Some prompt =>
      let adjustment :=
        match grade_level with
        | Some level =>
            if PyStr.truthy level then get GRADE_LEVEL_ADJUSTMENTS level
            else None
        | None => None
        end in
      match adjustment with
      | Some text => Done (prompt ++ Chunker.paragraph_break ++ text)%string
      | None => Done prompt
      end
  end.

End WithTexts.

End Prompts.

(* ================================================================== *)
(** ** [src/core/llm_client.py] *)
(* ================================================================== *)

Module LLM.

Import Pipe.

Record LLMClient : Type := mkLLMClient {
  model : string;
  temperature : Q;
  max_tokens : Z
}.

(** The keyword arguments of [chat.completions.create]; a message is its
    [role] and its [content]. *)
Record Request : Type := mkRequest {
  req_model : string;
  req_messages : list (string * string);
  req_temperature : Q;
  req_max_tokens : Z
}.

(** What [generate] reads of the response: [choices[0].message.content],
    [usage.total_tokens] and [choices[0].finish_reason]. *)
Record Completion : Type := mkCompletion {
  content : option string;
  total_tokens : Z;
  finish_reason : string
}.

(** The dictionary [generate] returns; a key that is absent is [None]
    ([response] is always present, and its value may be [None]). *)
Record Generation : Type := mkGeneration {
  gen_response : option string;
  gen_tokens_used : Z;
  gen_model : string;
  gen_finish_reason : option string;
  gen_error : option string
}.

(** [x or default] for an optional number *)
Definition float_or (x : option Q) (default : Q) : Q :=
  match x with
  | Some v => if Qeq_bool v 0 then default else v
  | None => default
  end.

Definition int_or (x : option Z) (default : Z) : Z :=
  match x with
  | Some v => if (v =? 0)%Z then default else v
  | None => default
  end.

Section WithClient.

(** The call to the API and everything read from its response inside the
    [try]; [str e] is the text of the exception caught. *)
Variable create : Request -> outcome Completion.
Variable str : failure -> string.

(** The messages [generate] builds. *)
Definition messages_for (system_prompt user_message : string)
  (context : option string) : list (string * string) :=
  let messages := [("system", system_prompt)] in
  let messages :=
    match context with
    | Some c =>
        if PyStr.truthy c then
          messages
          ++ [("system",
               ("Relevant context from educational documents:"
                ++ Chunker.paragraph_break ++ c)%string)]
        else messages
    | None => messages
    end in
  messages ++ [("user", user_message)].

(** [LLMClient.generate] *)
Definition generate (self : LLMClient) (system_prompt user_message : string)
  (context : option string) (temperature : option Q) (max_tokens : option Z)
  : Generation :=
  let messages := messages_for system_prompt user_message context in
  match create (mkRequest (model self) messages
                          (float_or temperature (LLM.temperature self))
                          (int_or max_tokens (LLM.max_tokens self))) with
  | Done response =>
      mkGeneration (content response) (total_tokens response) (model self)
                   (Some (finish_reason response)) None
  | Fail e =>
      mkGeneration None 0 (model self) None (Some (str e))
  end.

End WithClient.

End LLM.

(* ================================================================== *)
(** ** [src/core/modes.py] *)
(* ================================================================== *)

Module Modes.

Import Pipe Docs LLM.

(** [str(i)] of a non-negative integer *)
Definition str_of_int (i : nat) : string :=
  NilEmpty.string_of_uint (Nat.to_uint i).

(** The dictionary a mode returns. *)
Record ModeResult : Type := mkModeResult {
  response : option string;
  context_used : nat;
  tokens_used : Z;
  error : option string
}.

Definition str_or (x : option string) (default : string) : string :=
  match x with
  | Some v => if PyStr.truthy v then v else default
  | None => default
  end.

Section WithLibrary.

Variable okapi : Type.
Variable get_scores : okapi -> list string -> list Q.
Variable flat_index : Type.
Variable index_search : flat_index -> string -> Z -> Py.result (list (Z * Q)).
Variable create : Request -> outcome Completion.
Variable str : failure -> string.
Variable MARK_MODE_PROMPT : string.
Variable EXPLAIN_MODE_PROMPT : string.
Variable EXAMPLE_MODE_PROMPT : string.
Variable FLASHCARDS_MODE_PROMPT : string.
Variable GRADE_LEVEL_ADJUSTMENTS : StrDict string.

(** The chunk dictionaries the references stand for: those
    [ingest_documents] returned, which the retriever was built on. *)
Variable docs : ref -> DocChunk.

Record EducationalModes : Type := mkEducationalModes {
  retriever : Hybrid.HybridRetriever okapi flat_index;
  llm : LLMClient;
  default_grade_level : string
}.

Local Abbreviation get_system_prompt :=
  (Prompts.get_system_prompt MARK_MODE_PROMPT EXPLAIN_MODE_PROMPT
     EXAMPLE_MODE_PROMPT FLASHCARDS_MODE_PROMPT GRADE_LEVEL_ADJUSTMENTS).

(** [EducationalModes._format_context] *)
Definition _format_context (chunks : list (ref * float)) : string :=
  match chunks with
  | [] => "No relevant context found."
  | _ =>
      let context_parts :=
        map (fun item : nat * (ref * float) =>
               let i := fst item in
               let chunk := docs (fst (snd item)) in
               let text := Chunker.text (base chunk) in
               let metadata := metadata chunk in
               let subject := get_default (get metadata "subject") "Unknown" in
               let grade := get_default (get metadata "grade_level") "Unknown" in
               ("[Source " ++ str_of_int i ++ " - " ++ subject
                ++ ", Grade " ++ grade ++ "]" ++ Chunker.line_break ++ text)%string)
            (Py.enumerate1 chunks) in
      String.concat Chunker.paragraph_break context_parts
  end.

(** [EducationalModes.mark] *)
Definition mark (self : EducationalModes) (student_answer question : string)
  (grade_level : option string) (top_k : Z) : outcome ModeResult :=
  chunks <~
    lift (Hybrid.search get_scores index_search (retriever self) question top_k
            0.5%float 20 20) ;;
  let context := _format_context chunks in
  system_prompt <~
    get_system_prompt "mark"
      (Some (str_or grade_level (default_grade_level self))) ;;
  let user_message :=
    ("Question: " ++ question ++ Chunker.paragraph_break
     ++ "Student's Answer:" ++ Chunker.line_break
     ++ student_answer ++ Chunker.paragraph_break
     ++ "Please evaluate this answer and provide constructive feedback.")%string in
  let result :=
    generate create str (llm self) system_prompt user_message (Some context)
             (Some (3 # 10)) None in
  Done (mkModeResult (gen_response result) (List.length chunks)
                    (gen_tokens_used result) (gen_error result)).

(** [EducationalModes.explain] *)
Definition explain (self : EducationalModes) (query : string)
  (grade_level : option string) (top_k : Z) : outcome ModeResult :=
  chunks <~
    lift (Hybrid.search get_scores index_search (retriever self) query top_k
            0.5%float 20 20) ;;
  let context := _format_context chunks in
  system_prompt <~
    get_system_prompt "explain"
      (Some (str_or grade_level (default_grade_level self))) ;;
  let user_message :=
    ("Please explain this concept: " ++ query ++ Chunker.paragraph_break
     ++ "Help me understand it clearly.")%string in
  let result :=
    generate create str (llm self) system_prompt user_message (Some context)
             (Some (7 # 10)) None in
  Done (mkModeResult (gen_response result) (List.length chunks)
                    (gen_tokens_used result) (gen_error result)).

(** [EducationalModes.example] *)
Definition example (self : EducationalModes) (topic : string)
  (grade_level : option string) (top_k : Z) : outcome ModeResult :=
  chunks <~
    lift (Hybrid.search get_scores index_search (retriever self) topic top_k
            0.5%float 20 20) ;;
  let context := _format_context chunks in
  system_prompt <~
    get_system_prompt "example"
      (Some (str_or grade_level (default_grade_level self))) ;;
  let user_message :=
    ("Topic: " ++ topic ++ Chunker.paragraph_break
     ++ "Please create practice problems and examples to help me practice this concept.")%string in
  let result :=
    generate create str (llm self) system_prompt user_message (Some context)
             (Some (8 # 10)) (Some 1500%Z) in
  Done (mkModeResult (gen_response result) (List.length chunks)
                    (gen_tokens_used result) (gen_error result)).

(** [EducationalModes.flashcards] *)
Definition flashcards (self : EducationalModes) (topic : string)
  (grade_level : option string) (top_k : Z) : outcome ModeResult :=
  chunks <~
    lift (Hybrid.search get_scores index_search (retriever self) topic top_k
            0.5%float 20 20) ;;
  let context := _format_context chunks in
  system_prompt <~
    get_system_prompt "flashcards"
      (Some (str_or grade_level (default_grade_level self))) ;;
  let user_message :=
    ("Topic: " ++ topic ++ Chunker.paragraph_break
     ++ "Please create study flashcards covering the key concepts I need to know.")%string in
  let result :=
    generate create str (llm self) system_prompt user_message (Some context)
             (Some (5 # 10)) (Some 1500%Z) in
  Done (mkModeResult (gen_response result) (List.length chunks)
                    (gen_tokens_used result) (gen_error result)).

End WithLibrary.

End Modes.

(* ================================================================== *)
(** ** The four modes under one name *)
(* ================================================================== *)

Module ModeShapes.

Import Pipe Docs LLM Modes.

Inductive Mode : Type :=
| Mark (student_answer : string)
| Explain
| Example
| Flashcards.

Definition mode_name (m : Mode) : string :=
  match m with
  | Mark _ => "mark"
  | Explain => "explain"
  | Example => "example"
  | Flashcards => "flashcards"
  end.

Definition mode_temperature (m : Mode) : Q :=
  match m with
  | Mark _ => 3 # 10
  | Explain => 7 # 10
  | Example => 8 # 10
  | Flashcards => 5 # 10
  end.

Definition mode_max_tokens (m : Mode) (client : LLMClient) : Z :=
  match m with
  | Mark _ | Explain => max_tokens client
  | Example | Flashcards => 1500
  end.

(** What a mode returns for the reply of the API. *)
Definition relayed (str : failure -> string) (chunks : list (ref * float))
  (reply : outcome Completion) : ModeResult :=
  match reply with
  | Done c =>
      mkModeResult (content c) (List.length chunks) (total_tokens c) None
  | Fail e =>
      mkModeResult None (List.length chunks) 0 (Some (str e))
  end.

Section WithLibrary.

Variable okapi : Type.
Variable get_scores : okapi -> list string -> list Q.
Variable flat_index : Type.
Variable index_search : flat_index -> string -> Z -> Py.result (list (Z * Q)).
Variable create : Request -> outcome Completion.
Variable str : failure -> string.
Variable MARK_MODE_PROMPT : string.
Variable EXPLAIN_MODE_PROMPT : string.
Variable EXAMPLE_MODE_PROMPT : string.
Variable FLASHCARDS_MODE_PROMPT : string.
Variable GRADE_LEVEL_ADJUSTMENTS : StrDict string.
Variable docs : ref -> DocChunk.

Definition run (m : Mode) (self : EducationalModes okapi flat_index)
  (query : string) (grade_level : option string) (top_k : Z)
  : outcome ModeResult :=
  match m with
  | Mark student_answer =>
      mark get_scores index_search create str MARK_MODE_PROMPT
           EXPLAIN_MODE_PROMPT EXAMPLE_MODE_PROMPT FLASHCARDS_MODE_PROMPT
           GRADE_LEVEL_ADJUSTMENTS docs self student_answer query grade_level top_k
  | Explain =>
      explain get_scores index_search create str MARK_MODE_PROMPT
              EXPLAIN_MODE_PROMPT EXAMPLE_MODE_PROMPT FLASHCARDS_MODE_PROMPT
              GRADE_LEVEL_ADJUSTMENTS docs self query grade_level top_k
  | Example =>
      example get_scores index_search create str MARK_MODE_PROMPT
              EXPLAIN_MODE_PROMPT EXAMPLE_MODE_PROMPT FLASHCARDS_MODE_PROMPT
              GRADE_LEVEL_ADJUSTMENTS docs self query grade_level top_k
  | Flashcards =>
      flashcards get_scores index_search create str MARK_MODE_PROMPT
                 EXPLAIN_MODE_PROMPT EXAMPLE_MODE_PROMPT FLASHCARDS_MODE_PROMPT
                 GRADE_LEVEL_ADJUSTMENTS docs self query grade_level top_k
  end.

End WithLibrary.

End ModeShapes.

Module Desk.

Import Pipe Docs LLM Modes.

(** Stand-ins for examples: the three physics chunks with their metadata,
    short prompt texts, and an API that answers every request, or none. *)
Definition docs (r : ref) : DocChunk :=
  mkDocChunk (Examples.store_of Examples.physics_texts r) "physics.pdf"
             [("filename", "physics.pdf"); ("subject", "Physics")].

Definition adjustments : StrDict string :=
  [("high", "Use clear language.")].

Definition answering (request : Request) : outcome Completion :=
  Done (mkCompletion (Some "Well done.") 42 "stop").

Definition unreachable (request : Request) : outcome Completion :=
  Fail LibraryError.

Definition str (e : failure) : string := "Connection error.".

Definition tutor : EducationalModes Examples.count_index Examples.flat :=
  mkEducationalModes Examples.physics_retriever
                     (mkLLMClient "llama" (7 # 10) 1000) "high".

(** A tutor over no chunks at all. *)
Definition empty_tutor : EducationalModes Examples.count_index Examples.flat :=
  mkEducationalModes
    (Hybrid.mkHybridRetriever
       [] (BM25.mkBM25Retriever [] [] [])
       (Embedding.mkEmbeddingRetriever [] "all-MiniLM-L6-v2" (fun _ => [])))
    (mkLLMClient "llama" (7 # 10) 1000) "high".

Definition ask (create : Request -> outcome Completion) :=
  ModeShapes.run Examples.count_scores Examples.flat_search create str
    "Mark the answer." "Explain the concept." "Give examples."
    "Make flashcards." adjustments docs.

End Desk.

(* ================================================================== *)
(** ** [src/core/database.py]: the quota check *)
(* ================================================================== *)

Module Quota.

Import Pipe.

(** The columns of a [tenants] row that [check_quota] reads; [is_active]
    may be [NULL]. *)
Record Tenant : Type := mkTenant {
  tier : string;
  daily_token_limit : Z;
  monthly_token_limit : Z;
  is_active : option Z
}.

(** The dictionary [check_quota] returns for a tenant it has looked up. *)
Record Usage : Type := mkUsage {
  tenant_id : string;
  usage_tier : string;
  daily_usage : Z;
  daily_limit : Z;
  monthly_usage : Z;
  monthly_limit : Z;
  can_proceed : bool;
  reason : option string
}.

(** The two dictionaries [check_quota] returns: one with the key [error]
    alone, or one with the keys of [Usage]. *)
Inductive UsageInfo : Type :=
| InfoError (error : string)
| InfoUsage (usage : Usage).

(** [usage_info[key]] for one of the four numbers *)
Definition number (key : string) (field : Usage -> Z) (info : UsageInfo)
  : outcome Z :=
  match info with
  | InfoError _ => Fail (KeyError key)
  | InfoUsage usage => Done (field usage)
  end.

(** [usage_info.get("reason")] *)
Definition get_reason (info : UsageInfo) : option string :=
  match info with
  | InfoError _ => None
  | InfoUsage usage => reason usage
  end.

Definition truthy_int (x : option Z) : bool :=
  match x with
  | Some v => negb (v =? 0)%Z
  | None => false
  end.

Section WithDatabase.

(** What the two [SELECT] statements answer: the row of a tenant, and the
    sum of [tokens_used] of a tenant since [days] days ago.  [with_commas]
    is the format [{:,}]. *)
Variable fetch_tenant : string -> option Tenant.
Variable sum_tokens : string -> Z -> Z.
Variable with_commas : Z -> string.

(** [QuotaDatabase.get_tenant] *)
Definition get_tenant (tenant_id : string) : option Tenant :=
  match fetch_tenant tenant_id with
  | Some row => Some row
  | None => None
  end.

(** [QuotaDatabase._get_usage_in_period], for a number of days *)
Definition _get_usage_in_period (tenant_id : string) (days : Z) : Z :=
  sum_tokens tenant_id days.

(** [QuotaDatabase.check_quota] *)
Definition check_quota (tenant_id : string) : bool * UsageInfo :=
  match get_tenant tenant_id with
  | None => (false, InfoError ("Tenant " ++ tenant_id ++ " not found")%string)
  | Some tenant =>
      if negb (truthy_int (is_active tenant)) then
        (false, InfoError ("Tenant " ++ tenant_id ++ " is inactive")%string)
      else
        let daily_usage := _get_usage_in_period tenant_id 1 in
        let monthly_usage := _get_usage_in_period tenant_id 30 in
        let daily_limit := daily_token_limit tenant in
        let monthly_limit := monthly_token_limit tenant in
        let '(can_proceed, reason) :=
          if negb (daily_limit =? -1)%Z && (daily_limit <=? daily_usage)%Z then
            (false,
             Some ("Daily quota exceeded: " ++ with_commas daily_usage ++ " / "
                   ++ with_commas daily_limit ++ " tokens")%string)
          else if negb (monthly_limit =? -1)%Z
                  && (monthly_limit <=? monthly_usage)%Z then
            (false,
             Some ("Monthly quota exceeded: " ++ with_commas monthly_usage
                   ++ " / " ++ with_commas monthly_limit ++ " tokens")%string)
          else (true, None) in
        (can_proceed,
         InfoUsage (mkUsage tenant_id (tier tenant) daily_usage daily_limit
                            monthly_usage monthly_limit can_proceed reason))
  end.

End WithDatabase.

End Quota.

(* ================================================================== *)
(** ** [src/api/middleware.py] *)
(* ================================================================== *)

Module Middleware.

Import Pipe Quota.

(** What [dispatch] does with a request: hand it on, with or without the
    tenant recorded on [request.state], or answer 429 itself. *)
Inductive Dispatched : Type :=
| CallNext (state : option (string * UsageInfo))
| TooManyRequests (detail : option string)
                  (daily_usage daily_limit monthly_usage monthly_limit : Z).

Definition exempt_paths : list string :=
  ["/health"; "/docs"; "/redoc"; "/openapi.json"; "/admin"].

Definition exempt_exact_paths : list string := ["/"].

Section WithDatabase.

Variable fetch_tenant : string -> option Tenant.
Variable sum_tokens : string -> Z -> Z.
Variable with_commas : Z -> string.

(** [QuotaMiddleware.dispatch]: [path] is [request.url.path], [header] the
    value of [X-Tenant-ID], and [has_db] tells whether reading
    [request.app.state.quota_db] succeeds. *)
Definition dispatch (path : string) (header : option string) (has_db : bool)
  : outcome Dispatched :=
  if existsb (String.eqb path) exempt_exact_paths then Done (CallNext None)
  else if existsb (fun exempt_path => String.prefix exempt_path path) exempt_paths
  then Done (CallNext None)
  else if negb has_db then Done (CallNext None)
  else
    let tenant_id :=
      match header with
      | Some t => if PyStr.truthy t then t else "demo_user"
      | None => "demo_user"
      end in
    let '(can_proceed, usage_info) :=
      check_quota fetch_tenant sum_tokens with_commas tenant_id in
    if negb can_proceed then
      daily_usage <~ number "daily_usage" daily_usage usage_info ;;
      daily_limit <~ number "daily_limit" daily_limit usage_info ;;
      monthly_usage <~ number "monthly_usage" monthly_usage usage_info ;;
      monthly_limit <~ number "monthly_limit" monthly_limit usage_info ;;
      Done (TooManyRequests (get_reason usage_info) daily_usage daily_limit
                            monthly_usage monthly_limit)
    else Done (CallNext (Some (tenant_id, usage_info))).

End WithDatabase.

(** The tenant a request is charged to, and whether its path skips the
    quota check. *)
Definition tenant_for (header : option string) : string :=
  match header with
  | Some t => if PyStr.truthy t then t else "demo_user"
  | None => "demo_user"
  end.

Definition exempt (path : string) : bool :=
  existsb (String.eqb path) exempt_exact_paths
  || existsb (fun exempt_path => String.prefix exempt_path path) exempt_paths.

End Middleware.

Module Ledger.

Import Quota.

(** A database for examples: one free tenant who has used up the day's
    tokens, one enterprise tenant, one tenant switched off. *)
Definition fetch_tenant (tenant_id : string) : option Tenant :=
  if String.eqb tenant_id "school" then Some (mkTenant "free" 10000 100000 (Some 1%Z))
  else if String.eqb tenant_id "campus" then Some (mkTenant "enterprise" (-1) (-1) (Some 1%Z))
  else if String.eqb tenant_id "closed" then Some (mkTenant "free" 10000 100000 (Some 0%Z))
  else None.

Definition sum_tokens (tenant_id : string) (days : Z) : Z :=
  if String.eqb tenant_id "school" then 10000 else 250000.

Definition with_commas (n : Z) : string :=
  if (n =? 10000)%Z then "10,000" else "250,000".

End Ledger.

(* ================================================================== *)
(** ** Facts about the Python primitives *)
(* ================================================================== *)

Module PyFacts.

Lemma bind_Ok_inv (A B : Type) (m : result A) (k : A -> result B) (b : B) :
  Py.bind m k = Ok b -> exists a, m = Ok a /\ k a = Ok b.
Proof.
  destruct m as [a|e]; simpl; intros H; [eauto | discriminate].
Qed.

Lemma mapM_Ok_map (A B : Type) (f : A -> result B) (g : A -> B) (l : list A) :
  (forall x, In x l -> f x = Ok (g x)) -> mapM f l = Ok (map g l).
Proof.
  induction l as [|x l IH]; intros H; simpl; [reflexivity|].
  rewrite (H x (or_introl eq_refl)); simpl.
  rewrite IH by (intros y Hy; apply H; now right).
  reflexivity.
Qed.

Lemma mapM_length (A B : Type) (f : A -> result B) (l : list A) (r : list B) :
  mapM f l = Ok r -> List.length r = List.length l.
Proof.
  revert r; induction l as [|x l IH]; simpl; intros r H.
  - now inversion H.
  - destruct (f x) as [y|e]; simpl in H; [|discriminate].
    destruct (mapM f l) as [ys|e]; simpl in H; [|discriminate].
    inversion H; subst; simpl; f_equal; now apply IH.
Qed.

Lemma mapM_firstn (A B : Type) (f : A -> result B) (l : list A) (r : list B) (n : nat) :
  mapM f l = Ok r -> mapM f (firstn n l) = Ok (firstn n r).
Proof.
  revert r n; induction l as [|x l IH]; simpl; intros r n H.
  - inversion H; subst. now destruct n.
  - destruct (f x) as [y|e] eqn:Ey; simpl in H; [|discriminate].
    destruct (mapM f l) as [ys|e] eqn:Eys; simpl in H; [|discriminate].
    inversion H; subst. destruct n as [|n]; simpl; [reflexivity|].
    rewrite Ey; simpl. rewrite (IH ys n eq_refl). reflexivity.
Qed.

Lemma mapM_app (A B : Type) (f : A -> result B) (l1 l2 : list A) (r1 r2 : list B) :
  mapM f l1 = Ok r1 -> mapM f l2 = Ok r2 -> mapM f (l1 ++ l2) = Ok (r1 ++ r2).
Proof.
  revert r1; induction l1 as [|x l1 IH]; simpl; intros r1 H1 H2.
  - now inversion H1.
  - destruct (f x) as [y|e]; simpl in *; [|discriminate].
    destruct (mapM f l1) as [ys|e]; simpl in *; [|discriminate].
    inversion H1; subst. rewrite (IH ys eq_refl H2). reflexivity.
Qed.

Lemma getitem_nat (A : Type) (l : list A) (i : nat) (a : A) :
  nth_error l i = Some a -> getitem l (Z.of_nat i) = Ok a.
Proof.
  intros H. unfold getitem.
  assert (Hlt : i < List.length l) by (apply nth_error_Some; congruence).
  rewrite (proj2 (Z.ltb_ge (Z.of_nat i) 0)) by lia.
  rewrite (proj2 (Z.ltb_ge (Z.of_nat i) 0)) by lia.
  rewrite (proj2 (Z.leb_gt _ _)) by lia.
  simpl. rewrite Nat2Z.id, H. reflexivity.
Qed.

Lemma getitem_minus_one (A : Type) (l : list A) (a : A) :
  getitem (l ++ [a]) (-1) = Ok a.
Proof.
  unfold getitem. rewrite length_app; simpl List.length.
  replace (Z.of_nat (List.length l + 1) + -1)%Z with (Z.of_nat (List.length l)) by lia.
  change (-1 <? 0)%Z with true; cbv iota.
  rewrite (proj2 (Z.ltb_ge (Z.of_nat (List.length l)) 0)) by lia.
  rewrite (proj2 (Z.leb_gt _ _)) by lia.
  simpl. rewrite Nat2Z.id, nth_error_app2, Nat.sub_diag by lia. reflexivity.
Qed.

Lemma slice_to_nonneg (A : Type) (k : Z) (l : list A) :
  (0 <= k)%Z -> slice_to k l = firstn (Z.to_nat k) l.
Proof.
  intros H. unfold slice_to. destruct (Z.ltb_spec k 0); [lia|reflexivity].
Qed.

Lemma slice_to_firstn (A : Type) (k : Z) (l : list A) :
  exists n, slice_to k l = firstn n l.
Proof.
  unfold slice_to. destruct (k <? 0)%Z; eauto.
Qed.

Lemma slice_to_all (A : Type) (k : Z) (l : list A) :
  (Z.of_nat (List.length l) <= k)%Z -> slice_to k l = l.
Proof.
  intros H. rewrite slice_to_nonneg by lia. apply firstn_all2. lia.
Qed.

Lemma slice_to_length (A : Type) (k : Z) (l : list A) :
  (0 <= k)%Z -> (Z.of_nat (List.length (slice_to k l)) <= k)%Z.
Proof.
  intros H. rewrite slice_to_nonneg by lia.
  pose proof (firstn_le_length (Z.to_nat k) l).
  rewrite length_firstn. lia.
Qed.

Lemma slice_to_map (A B : Type) (f : A -> B) (k : Z) (l : list A) :
  slice_to k (map f l) = map f (slice_to k l).
Proof.
  unfold slice_to. rewrite length_map.
  destruct (k <? 0)%Z; now rewrite firstn_map.
Qed.

(** A shorter slice of the same list is a prefix of a longer one. *)
Lemma slice_to_prefix (A : Type) (k K : Z) (l : list A) :
  (0 <= k)%Z -> (k <= Z.of_nat (List.length (slice_to K l)))%Z ->
  slice_to k l = firstn (Z.to_nat k) (slice_to K l).
Proof.
  intros Hk Hle. rewrite slice_to_nonneg by lia.
  destruct (slice_to_firstn K l) as [n Hn]. rewrite Hn in *.
  rewrite firstn_firstn. rewrite length_firstn in Hle.
  f_equal. lia.
Qed.

End PyFacts.

Module PyStrFacts.

Import PyStr.

Lemma rstrip_idem (s : string) : rstrip (rstrip s) = rstrip s.
Proof.
  induction s as [|c s IH]; simpl; [reflexivity|].
  destruct (rstrip s) as [|d r] eqn:E.
  - destruct (isspace c) eqn:Ec; simpl; [reflexivity|].
    now rewrite Ec.
  - simpl in IH |- *. destruct (rstrip r) eqn:Er.
    + destruct (isspace d); [discriminate|]. now rewrite IH.
    + now rewrite IH.
Qed.

Lemma lstrip_head (s : string) :
  lstrip s = EmptyString \/
  exists c r, lstrip s = String c r /\ isspace c = false.
Proof.
  induction s as [|c s IH]; simpl; [now left|].
  destruct (isspace c) eqn:Ec; [exact IH|].
  right; eauto.
Qed.

Lemma rstrip_head (c : ascii) (r : string) :
  isspace c = false -> exists r', rstrip (String c r) = String c r'.
Proof.
  intros Hc. simpl. destruct (rstrip r); [rewrite Hc|]; eauto.
Qed.

Lemma strip_idem (s : string) : strip (strip s) = strip s.
Proof.
  unfold strip.
  destruct (lstrip_head s) as [E|(c & r & E & Hc)]; rewrite E.
  - reflexivity.
  - destruct (@rstrip_head c r Hc) as [r' E']. rewrite E'.
    simpl lstrip. rewrite Hc. rewrite <- E'. apply rstrip_idem.
Qed.

Lemma rstrip_length (s : string) : String.length (rstrip s) <= String.length s.
Proof.
  induction s as [|c s IH]; simpl; [lia|].
  destruct (rstrip s); [destruct (isspace c)|]; simpl in *; lia.
Qed.

Lemma lstrip_length (s : string) : String.length (lstrip s) <= String.length s.
Proof.
  induction s as [|c s IH]; simpl; [lia|].
  destruct (isspace c); simpl; lia.
Qed.

Lemma strip_length (s : string) : String.length (strip s) <= String.length s.
Proof.
  unfold strip. pose proof (rstrip_length (lstrip s)). pose proof (lstrip_length s). lia.
Qed.

Lemma split_absent (sep s : string) :
  PyStr.occurs sep s = false -> split s sep = [s].
Proof.
  unfold split. induction s as [|c s IH]; simpl; intros H; [reflexivity|].
  apply orb_false_iff in H. destruct H as [Hp Ho].
  simpl in Hp. rewrite Hp. now rewrite (IH Ho).
Qed.

Lemma substring_length_le (i n : nat) (s : string) :
  String.length (substring i n s) <= n.
Proof.
  revert i n; induction s as [|c s IH]; intros i n.
  - destruct i, n; simpl; lia.
  - destruct i as [|i].
    + destruct n as [|n]; simpl; [lia|]. specialize (IH 0 n). lia.
    + simpl. apply IH.
Qed.

End PyStrFacts.

(* ================================================================== *)
(** ** The chunker *)
(* ================================================================== *)

Module ChunkerFacts.

Import PyStr Chunker Trace.

Section WithEncoding.

Variable encode : string -> result nat.
Variable chunk_size : Z.

Local Abbreviation body := (ChunkerLoops.body encode chunk_size).
Local Abbreviation body_traced := (ChunkerLoops.body_traced encode chunk_size).
Local Abbreviation origin_ok := (ChunkerLoops.origin_ok encode chunk_size).
Local Abbreviation within := (ChunkerLoops.within encode chunk_size).
Local Abbreviation number_step := (ChunkerLoops.number_step encode).
Local Abbreviation numbered := (ChunkerLoops.numbered encode).

Lemma split_recursive_cons (text separator : string) (rest : list string) :
  _split_recursive encode chunk_size text (separator :: rest) =
  if negb (truthy (strip text)) then Ok []
  else if truthy separator
       then fold_left (body (fun s => _split_recursive encode chunk_size s rest))
                      (split text separator) (Ok [])
       else char_windows chunk_size text.
Proof. reflexivity. Qed.

Lemma split_traced_cons (text separator : string) (rest : list string) :
  split_traced encode chunk_size text (separator :: rest) =
  if negb (truthy (strip text)) then Ok []
  else if truthy separator
       then fold_left (body_traced (fun s => split_traced encode chunk_size s rest))
                      (split text separator) (Ok [])
       else windows <- char_windows chunk_size text ;;
            Ok (map (fun w => (w, Window)) windows).
Proof. reflexivity. Qed.

Lemma fold_body_traced_Raise rec splits e :
  fold_left (body_traced rec) splits (Raise e) = Raise e.
Proof. induction splits as [|s splits IH]; simpl; auto. Qed.

(** *** Erasing the tags gives back [_split_recursive] *)

Lemma erase_loop rec recT :
  (forall s, Py.fmap (map fst) (recT s) = rec s) ->
  forall splits accT,
    Py.fmap (map fst) (fold_left (body_traced recT) splits accT) =
    fold_left (body rec) splits (Py.fmap (map fst) accT).
Proof.
  intros Hrec. induction splits as [|s splits IH]; intros accT; simpl; [reflexivity|].
  rewrite IH. f_equal.
  destruct accT as [acc|e]; simpl; [|reflexivity].
  destruct (negb (truthy (strip s))); simpl; [reflexivity|].
  destruct (encode s) as [tokens|e]; simpl; [|reflexivity].
  destruct (Z.of_nat tokens <=? chunk_size)%Z; simpl.
  - now rewrite map_app.
  - rewrite <- Hrec. destruct (recT s); simpl; [now rewrite map_app|reflexivity].
Qed.

Lemma erase_traced (seps : list string) (text : string) :
  Py.fmap (map fst) (split_traced encode chunk_size text seps) =
  _split_recursive encode chunk_size text seps.
Proof.
  revert text. induction seps as [|sep rest IH]; intros text.
  - simpl. now destruct (truthy (strip text)).
  - rewrite split_traced_cons, split_recursive_cons.
    destruct (negb (truthy (strip text))); [reflexivity|].
    destruct (truthy sep).
    + now rewrite (erase_loop _ _ IH).
    + destruct (char_windows chunk_size text); simpl; [|reflexivity].
      rewrite map_map. simpl. now rewrite map_id.
Qed.

(** *** What each origin guarantees *)

Lemma char_windows_length (text : string) (ws : list string) :
  char_windows chunk_size text = Ok ws ->
  Forall (fun w => (Z.of_nat (String.length w) <= chunk_size)%Z) ws.
Proof.
  unfold char_windows.
  destruct (chunk_size =? 0)%Z; [discriminate|].
  destruct (Z.ltb_spec chunk_size 0) as [Hneg|Hpos]; intros Hw0; inversion Hw0; subst;
    [constructor|].
  apply Forall_forall. intros w Hw. apply in_map_iff in Hw.
  destruct Hw as (i & <- & _). unfold slice.
  pose proof (PyStrFacts.substring_length_le i (Z.to_nat chunk_size) text). lia.
Qed.

Lemma origin_loop rec (P P' : string * origin -> Prop) :
  (forall s r, rec s = Ok r -> Forall P r) ->
  (forall po, P po -> P' po) ->
  (forall s, within s -> P' (s, Kept)) ->
  forall splits acc out,
    Forall P' acc ->
    fold_left (body_traced rec) splits (Ok acc) = Ok out ->
    Forall P' out.
Proof.
  intros Hrec Himp Hkept.
  induction splits as [|s splits IH]; simpl; intros acc out Hacc Hout.
  - now inversion Hout; subst.
  - destruct (negb (truthy (strip s))); simpl in Hout; [eauto|].
    destruct (encode s) as [tokens|e] eqn:Es; simpl in Hout;
      [|rewrite fold_body_traced_Raise in Hout; discriminate].
    destruct (Z.leb_spec (Z.of_nat tokens) chunk_size) as [Hle|Hgt].
    + apply (IH (acc ++ [(s, Kept)]) out); [|exact Hout].
      apply Forall_app; split; [exact Hacc|].
      constructor; [|constructor]. apply Hkept. exists tokens. auto.
    + destruct (rec s) as [r|e] eqn:Er; simpl in Hout.
      * apply (IH (acc ++ r) out); [|exact Hout].
        apply Forall_app; split; [exact Hacc|].
        eapply Forall_impl; [exact Himp|]. eapply Hrec; eauto.
      * rewrite fold_body_traced_Raise in Hout. discriminate.
Qed.

Lemma traced_origin (seps : list string) (text : string)
  (traced : list (string * origin)) :
  split_traced encode chunk_size text seps = Ok traced ->
  Forall (origin_ok seps) traced.
Proof.
  revert text traced. induction seps as [|sep rest IH]; intros text traced.
  - simpl. destruct (truthy (strip text)); intros H; inversion H; subst;
      repeat constructor. unfold ChunkerLoops.origin_ok; simpl. tauto.
  - rewrite split_traced_cons.
    destruct (negb (truthy (strip text))); [intros H; inversion H; constructor|].
    destruct (truthy sep) eqn:Esep.
    + apply (@origin_loop _ (origin_ok rest) (origin_ok (sep :: rest))); auto.
      * intros [p o]; unfold ChunkerLoops.origin_ok; simpl; destruct o; auto.
        intros Hn [Heq|Hin]; [subst sep; discriminate|tauto].
    + intros H. apply PyFacts.bind_Ok_inv in H. destruct H as (ws & Hws & H).
      inversion H; subst. apply Forall_map.
      eapply Forall_impl; [|apply (char_windows_length _ Hws)].
      intros w Hw. exact Hw.
Qed.

(** *** Numbering the pieces *)

Lemma number_chunks_fold (raw : list string) :
  number_chunks encode raw =
  Py.fmap fst
    (fold_left number_step (combine (seq 0 (List.length raw)) raw) (Ok ([], 0))).
Proof. reflexivity. Qed.

Lemma fold_number_Raise (items : list (nat * string)) (e : exn) :
  fold_left number_step items (Raise e) = Raise e.
Proof. induction items as [|ic items IH]; simpl; auto. Qed.

Lemma number_loop (P : Chunk -> Prop) (items : list (nat * string)) :
  (forall i p pos tokens, In (i, p) items -> truthy (strip p) = true ->
     encode (strip p) = Ok tokens ->
     P (mkChunk i (strip p) tokens pos (pos + String.length (strip p)))) ->
  forall acc pos out, Forall P acc ->
    fold_left number_step items (Ok (acc, pos)) = Ok out ->
    Forall P (fst out).
Proof.
  induction items as [|[i p] items IH]; intros HP acc pos out Hacc; simpl.
  - intros H. inversion H; subst. exact Hacc.
  - destruct (truthy (strip p)) eqn:Ep.
    + destruct (encode (strip p)) as [tokens|e] eqn:Et; simpl;
        [|rewrite fold_number_Raise; discriminate].
      apply IH; [intros; eapply HP; simpl; eauto|].
      apply Forall_app; split; [exact Hacc|].
      constructor; [|constructor]. eapply HP; simpl; eauto.
    + apply IH; [intros; eapply HP; simpl; eauto|exact Hacc].
Qed.

Lemma in_combine_seq (A : Type) (l : list A) (s i : nat) (a : A) :
  In (i, a) (combine (seq s (List.length l)) l) ->
  s <= i /\ nth_error l (i - s) = Some a.
Proof.
  revert s. induction l as [|x l IH]; intros s; simpl; [tauto|].
  intros [Heq|Hin].
  - inversion Heq; subst. rewrite Nat.sub_diag. auto.
  - apply IH in Hin. destruct Hin as [Hle Hn].
    split; [lia|]. replace (i - s) with (S (i - S s)) by lia. exact Hn.
Qed.

Lemma number_chunks_numbered (raw : list string) (chunks : list Chunk) :
  number_chunks encode raw = Ok chunks -> Forall (numbered raw) chunks.
Proof.
  rewrite number_chunks_fold. intros H.
  apply PyFacts.bind_Ok_inv in H. destruct H as (out & Hout & H).
  inversion H; subst.
  eapply number_loop; [|constructor|exact Hout].
  intros i p pos tokens Hin Hp Ht. apply in_combine_seq in Hin.
  destruct Hin as [_ Hn]. rewrite Nat.sub_0_r in Hn. exists p. simpl. auto.
Qed.

Lemma chunk_text_with_traced (text : string) (seps : list string)
  (chunks : list Chunk) :
  chunk_text_with encode chunk_size text seps = Ok chunks ->
  exists traced,
    split_traced encode chunk_size text seps = Ok traced /\
    number_chunks encode (map fst traced) = Ok chunks.
Proof.
  unfold chunk_text_with. intros H.
  apply PyFacts.bind_Ok_inv in H. destruct H as (raw & Hraw & H).
  rewrite <- erase_traced in Hraw.
  destruct (split_traced encode chunk_size text seps) as [traced|e];
    simpl in Hraw; [|discriminate].
  inversion Hraw; subst. eauto.
Qed.

Lemma chunk_text_with_nonempty (input : string) (separators : list string)
  (chunks : list Chunk) :
  chunk_text_with encode chunk_size input separators = Ok chunks ->
  Forall (fun c => truthy (strip (Chunker.text c)) = true) chunks.
Proof.
  intros H. apply chunk_text_with_traced in H.
  destruct H as (traced & _ & H).
  eapply Forall_impl; [|apply (number_chunks_numbered _ H)].
  intros c (p & _ & Ht & Hne & _).
  rewrite Ht, PyStrFacts.strip_idem, <- Ht. exact Hne.
Qed.

(** *** The claims about [chunk_text] *)

(** C10. For every input text, budget and separator list, every chunk
    returned by [chunk_text] has a text that is non-empty after
    trimming. *)
Theorem chunk_text_nonempty (input : string) (separators : list string)
  (chunks : list Chunk) :
  chunk_text_with encode chunk_size input separators = Ok chunks ->
  Forall (fun c => truthy (strip (Chunker.text c)) = true) chunks.
Proof.
  apply chunk_text_with_nonempty.
Qed.

(** C2, what the code guarantees. With the default separators, every chunk
    is the trimmed form of a piece that either passed the budget test
    before trimming (the token count of the untrimmed piece is at most the
    budget) or is a character window of the empty-separator fallback (at
    most [chunk_size] characters); the recorded [token_count] is counted
    anew on the trimmed text, and nothing compares that count with the
    budget. *)
Theorem chunk_budget_before_trim (input : string) (chunks : list Chunk) :
  chunk_text encode chunk_size input = Ok chunks ->
  exists traced,
    split_traced encode chunk_size input default_separators = Ok traced /\
    _split_recursive encode chunk_size input default_separators
    = Ok (map fst traced) /\
    Forall (fun c =>
              exists p o,
                nth_error traced (chunk_id c) = Some (p, o) /\
                Chunker.text c = strip p /\
                encode (strip p) = Ok (token_count c) /\
                match o with
                | Kept =>
                    exists tokens,
                      encode p = Ok tokens /\ (Z.of_nat tokens <= chunk_size)%Z
                | Window => (Z.of_nat (String.length p) <= chunk_size)%Z
                | Unsplit => False
                end) chunks.
Proof.
  intros H. apply chunk_text_with_traced in H. destruct H as (traced & Htr & H).
  exists traced. split; [exact Htr|].
  split; [rewrite <- erase_traced, Htr; reflexivity|].
  pose proof (traced_origin _ _ Htr) as Hok.
  eapply Forall_impl; [|apply (number_chunks_numbered _ H)].
  intros c (p & Hn & Ht & _ & Hc).
  rewrite nth_error_map in Hn.
  destruct (nth_error traced (chunk_id c)) as [[p' o]|] eqn:En; [|discriminate].
  simpl in Hn. inversion Hn; subst p'.
  exists p, o. repeat split; auto; [now rewrite <- Ht|].
  rewrite Forall_forall in Hok. specialize (Hok _ (nth_error_In _ _ En)).
  unfold ChunkerLoops.origin_ok in Hok; simpl in Hok. destruct o; auto.
  apply Hok. unfold default_separators. simpl. tauto.
Qed.

(** C8, as amended. An empty or whitespace-only text gives the empty chunk
    sequence, for every budget and separator list.  A text that is not
    blank, contains no paragraph break and whose token count is at most the
    budget gives exactly one chunk, whose text is the whole trimmed text
    and whose token count is that of the trimmed text; the only way not to
    get it is that the tokenizer raises on the trimmed text. *)
Theorem chunk_text_blank_and_single :
  (forall input separators,
     truthy (strip input) = false ->
     chunk_text_with encode chunk_size input separators = Ok []) /\
  (forall input tokens,
     truthy (strip input) = true ->
     PyStr.occurs paragraph_break input = false ->
     encode input = Ok tokens ->
     (Z.of_nat tokens <= chunk_size)%Z ->
     chunk_text encode chunk_size input =
     (trimmed <- encode (strip input) ;;
      Ok [mkChunk 0 (strip input) trimmed 0 (String.length (strip input))])).
Proof.
  split.
  - intros input separators Hb. unfold chunk_text_with.
    destruct separators as [|sep rest]; simpl; rewrite Hb; reflexivity.
  - intros input tokens Hne Hpar Htok Hle.
    unfold chunk_text, chunk_text_with, default_separators.
    rewrite split_recursive_cons, Hne. simpl negb. cbv iota.
    change (truthy paragraph_break) with true. cbv iota.
    rewrite (PyStrFacts.split_absent _ _ Hpar).
    simpl fold_left. unfold ChunkerLoops.body. simpl Py.bind.
    rewrite Hne. simpl negb. cbv iota. rewrite Htok. simpl Py.bind.
    rewrite (proj2 (Z.leb_le _ _) Hle).
    simpl. unfold number_chunks. simpl. rewrite Hne.
    destruct (encode (strip input)); reflexivity.
Qed.

End WithEncoding.

Lemma chunk_text_nonempty_witness :
  Forall (fun c => truthy (strip (Chunker.text c)) = true)
         [mkChunk 0 "nucleus" 2 0 7].
Proof.
  exact (@chunk_text_nonempty
           (Examples.counting (Examples.greedy_len Examples.space_vocab))
           1%Z " nucleus" default_separators _ eq_refl).
Defined.

Lemma chunk_budget_witness :
  exists traced,
    split_traced Examples.chars 2 "ab  cde" default_separators = Ok traced /\
    Forall (fun c => exists p o, nth_error traced (chunk_id c) = Some (p, o))
           [mkChunk 0 "ab" 2 0 2; mkChunk 1 "cd" 2 2 4; mkChunk 2 "e" 1 4 5].
Proof.
  destruct (@chunk_budget_before_trim Examples.chars 2%Z "ab  cde"
              [mkChunk 0 "ab" 2 0 2; mkChunk 1 "cd" 2 2 4; mkChunk 2 "e" 1 4 5]
              eq_refl)
    as (traced & Htr & _ & Hall).
  exists traced. split; [exact Htr|].
  eapply Forall_impl; [|exact Hall].
  intros c (p & o & Hn & _). eauto.
Defined.

(** C2 fails on the code. The tokenizer tables are not part of the
    repository; the call below counts with a fragment of a byte-pair
    vocabulary in which, as in the encoding the code loads, the word after
    a space is one token and the word alone is two.  With budget 1 the
    piece [" nucleus"] is one token and is kept, while the chunk made from
    it records the two tokens of ["nucleus"]; the chunk is no fallback
    window. *)
Lemma chunk_budget_after_trim_fails :
  chunk_text (Examples.counting (Examples.greedy_len Examples.space_vocab))
             1 " nucleus"
  = Ok [mkChunk 0 "nucleus" 2 0 7] /\
  split_traced (Examples.counting (Examples.greedy_len Examples.space_vocab))
               1 " nucleus" default_separators
  = Ok [(" nucleus", Kept)] /\
  within_budget_or_window 1 [(" nucleus", Kept)] (mkChunk 0 "nucleus" 2 0 7)
  = false.
Proof. repeat split; reflexivity. Qed.

Lemma chunk_text_blank_and_single_witness :
  chunk_text_with Examples.chars 512 "   " default_separators = Ok [] /\
  chunk_text Examples.chars 512 " one paragraph. "
  = Ok [mkChunk 0 "one paragraph." 14 0 14].
Proof.
  split.
  - exact (proj1 (@chunk_text_blank_and_single Examples.chars 512%Z)
             "   " default_separators eq_refl).
  - exact (proj2 (@chunk_text_blank_and_single Examples.chars 512%Z)
             " one paragraph. " 16 eq_refl eq_refl eq_refl
             ltac:(vm_compute; discriminate)).
Defined.

(** C8 as stated fails: a text of four tokens, well below the budget of
    512, that contains a paragraph break gives two chunks. *)
Lemma chunk_text_paragraphs_split :
  (Z.of_nat (String.length ("a" ++ paragraph_break ++ "b")) < 512)%Z /\
  chunk_text Examples.chars 512 ("a" ++ paragraph_break ++ "b")
  = Ok [mkChunk 0 "a" 1 0 1; mkChunk 1 "b" 1 1 2].
Proof. split; reflexivity. Qed.

End ChunkerFacts.

(* ================================================================== *)
(** ** The stable descending sort *)
(* ================================================================== *)

Module PySortFacts.

Import PySort.

Local Open Scope Q_scope.

Lemma StronglySorted_In_impl (A : Type) (R R' : A -> A -> Prop) (l : list A) :
  (forall x y, In x l -> In y l -> R x y -> R' x y) ->
  StronglySorted R l -> StronglySorted R' l.
Proof.
  induction l as [|a l IH]; intros Himp Hs; [constructor|].
  inversion Hs as [|? ? Hs' Hall]; subst. constructor.
  - apply IH; [|exact Hs']. intros x y Hx Hy. apply Himp; now right.
  - rewrite Forall_forall in *. intros y Hy.
    apply Himp; [now left|now right|auto].
Qed.

Lemma StronglySorted_app_intro (A : Type) (R : A -> A -> Prop) (l1 l2 : list A) :
  StronglySorted R l1 -> StronglySorted R l2 ->
  (forall x y, In x l1 -> In y l2 -> R x y) ->
  StronglySorted R (l1 ++ l2).
Proof.
  induction l1 as [|a l1 IH]; simpl; intros H1 H2 Hx; [exact H2|].
  inversion H1 as [|? ? H1' Hall]; subst. constructor.
  - apply IH; auto.
  - apply Forall_app; split; [exact Hall|].
    apply Forall_forall. intros y Hy. apply Hx; auto.
Qed.

Lemma StronglySorted_map_intro (A B : Type) (R : B -> B -> Prop) (f : A -> B)
  (l : list A) :
  StronglySorted (fun x y => R (f x) (f y)) l -> StronglySorted R (map f l).
Proof.
  induction 1 as [|a l Hs IH Hall]; simpl; constructor; auto.
  apply Forall_map. exact Hall.
Qed.

Lemma StronglySorted_filter_intro (A : Type) (R : A -> A -> Prop) (p : A -> bool)
  (l : list A) :
  StronglySorted R l -> StronglySorted R (filter p l).
Proof.
  induction 1 as [|a l Hs IH Hall]; simpl; [constructor|].
  destruct (p a); [|exact IH]. constructor; [exact IH|].
  rewrite Forall_forall in *. intros y Hy. apply filter_In in Hy. apply Hall, Hy.
Qed.

Lemma StronglySorted_lt_seq (s n : nat) : StronglySorted lt (seq s n).
Proof.
  revert s. induction n as [|n IH]; intros s; simpl; constructor; [apply IH|].
  apply Forall_forall. intros y Hy. apply in_seq in Hy. apply Hy.
Qed.

(** Two arrangements of the same items, both sorted for a relation that no
    two of the items satisfy in both directions, are the same list. *)
Lemma sorted_arrangement_unique (A : Type) (R : A -> A -> Prop) (l1 l2 : list A) :
  (forall x y, In x l1 -> In y l1 -> R x y -> R y x -> False) ->
  Permutation l1 l2 ->
  StronglySorted R l1 -> StronglySorted R l2 -> l1 = l2.
Proof.
  revert l2. induction l1 as [|x l1 IH]; intros l2 Hasym Hp H1 H2.
  - apply Permutation_nil in Hp. now subst.
  - destruct l2 as [|y l2]; [apply Permutation_sym, Permutation_nil in Hp; discriminate|].
    inversion H1 as [|? ? H1' Hall1]; subst.
    inversion H2 as [|? ? H2' Hall2]; subst.
    assert (Hxy : x = y).
    { assert (Hx : In x (y :: l2)) by (eapply Permutation_in; [exact Hp|now left]).
      assert (Hy : In y (x :: l1))
        by (eapply Permutation_in; [apply Permutation_sym; exact Hp|now left]).
      destruct Hx as [->|Hx]; [reflexivity|].
      destruct Hy as [->|Hy]; [reflexivity|].
      exfalso. rewrite Forall_forall in Hall1, Hall2.
      apply (Hasym x y); [now left|now right|auto|auto]. }
    subst y. f_equal. apply IH; auto.
    + intros a b Ha Hb. apply Hasym; now right.
    + eapply Permutation_cons_inv; exact Hp.
Qed.

Section ByKey.

Variable A : Type.
Variable key : A -> Q.

Lemma key_gt_true (y x : A) : key_gt key y x = true <-> key x < key y.
Proof.
  unfold key_gt. rewrite negb_true_iff. split.
  - intros H. apply Qnot_le_lt. intros Hle.
    apply Qle_bool_iff in Hle. congruence.
  - intros H. destruct (Qle_bool (key y) (key x)) eqn:E; [|reflexivity].
    apply Qle_bool_iff in E. exfalso. eapply Qlt_not_le; eauto.
Qed.

Lemma key_gt_false (y x : A) : key_gt key y x = false <-> key y <= key x.
Proof.
  unfold key_gt. rewrite negb_false_iff. apply Qle_bool_iff.
Qed.

Lemma insert_desc_In (x : A) (l : list A) (z : A) :
  In z (insert_desc key x l) <-> z = x \/ In z l.
Proof.
  induction l as [|y l IH]; simpl; [intuition|].
  destruct (key_gt key y x); simpl; [rewrite IH|]; intuition.
Qed.

Lemma insert_desc_perm (x : A) (l : list A) :
  Permutation (x :: l) (insert_desc key x l).
Proof.
  induction l as [|y l IH]; simpl; [reflexivity|].
  destruct (key_gt key y x); [|reflexivity].
  rewrite perm_swap. now apply perm_skip.
Qed.

Lemma sorted_desc_perm (l : list A) : Permutation l (sorted_desc key l).
Proof.
  induction l as [|x l IH]; simpl; [reflexivity|].
  rewrite <- insert_desc_perm. now apply perm_skip.
Qed.

Lemma sorted_desc_In (l : list A) (z : A) : In z (sorted_desc key l) <-> In z l.
Proof.
  split; apply Permutation_in;
    [apply Permutation_sym|]; apply sorted_desc_perm.
Qed.

Lemma sorted_desc_length (l : list A) :
  List.length (sorted_desc key l) = List.length l.
Proof. symmetry. apply Permutation_length, sorted_desc_perm. Qed.

(** *** Descending order *)

Lemma insert_desc_sorted (x : A) (l : list A) :
  StronglySorted (desc key) l -> StronglySorted (desc key) (insert_desc key x l).
Proof.
  induction 1 as [|y l Hs IH Hall]; simpl; [repeat constructor|].
  destruct (key_gt key y x) eqn:E.
  - constructor; [exact IH|].
    apply Forall_forall. intros z Hz. apply insert_desc_In in Hz.
    destruct Hz as [->|Hz].
    + apply key_gt_true in E. unfold desc. now apply Qlt_le_weak.
    + rewrite Forall_forall in Hall. auto.
  - apply key_gt_false in E. constructor; [now constructor|].
    constructor; [exact E|].
    rewrite Forall_forall in *. intros z Hz. unfold desc in *.
    eapply Qle_trans; [apply Hall, Hz|exact E].
Qed.

Lemma sorted_desc_sorted (l : list A) : StronglySorted (desc key) (sorted_desc key l).
Proof.
  induction l as [|x l IH]; simpl; [constructor|now apply insert_desc_sorted].
Qed.

(** A list already in descending order is returned as it is. *)
Lemma sorted_desc_fixed (l : list A) :
  StronglySorted (desc key) l -> sorted_desc key l = l.
Proof.
  induction 1 as [|x l Hs IH Hall]; simpl; [reflexivity|].
  rewrite IH. destruct l as [|y l]; simpl; [reflexivity|].
  inversion Hall as [|? ? Hy _]; subst.
  now rewrite (proj2 (key_gt_false y x) Hy).
Qed.

(** *** Ties keep the input order *)

Variable before : A -> A -> Prop.

Lemma insert_desc_ranked (x : A) (l : list A) :
  StronglySorted (ranked_before key before) l ->
  Forall (before x) l ->
  StronglySorted (ranked_before key before) (insert_desc key x l).
Proof.
  induction 1 as [|y l Hs IH Hall]; simpl; intros Hb; [repeat constructor|].
  inversion Hb as [|? ? Hby Hbl]; subst.
  destruct (key_gt key y x) eqn:E.
  - constructor; [now apply IH|].
    apply Forall_forall. intros z Hz. apply insert_desc_In in Hz.
    destruct Hz as [->|Hz].
    + left. now apply key_gt_true.
    + rewrite Forall_forall in Hall. auto.
  - apply key_gt_false in E. constructor; [now constructor|].
    assert (Hx : forall z, key z <= key x -> before x z ->
                           ranked_before key before x z).
    { intros z Hle Hbz. apply Qle_lteq in Hle.
      destruct Hle as [Hlt|Heq]; [now left|right; auto]. }
    constructor; [now apply Hx|].
    rewrite Forall_forall in *. intros z Hz. apply Hx; [|now apply Hbl].
    destruct (Hall z Hz) as [Hlt|[Heq _]].
    + apply Qlt_le_weak. eapply Qlt_le_trans; eauto.
    + rewrite Heq. exact E.
Qed.

Lemma sorted_desc_ranked (l : list A) :
  StronglySorted before l ->
  StronglySorted (ranked_before key before) (sorted_desc key l).
Proof.
  induction 1 as [|x l Hs IH Hall]; simpl; [constructor|].
  apply insert_desc_ranked; [exact IH|].
  rewrite Forall_forall in *. intros z Hz. apply Hall.
  now apply sorted_desc_In.
Qed.

Lemma ranked_before_asym (l : list A) :
  (forall x y, In x l -> In y l -> before x y -> before y x -> False) ->
  forall x y, In x l -> In y l ->
    ranked_before key before x y -> ranked_before key before y x -> False.
Proof.
  intros Hasym x y Hx Hy [H1|[E1 B1]] [H2|[E2 B2]].
  - eapply Qlt_irrefl, Qlt_trans; eauto.
  - rewrite E2 in H1. eapply Qlt_irrefl; eauto.
  - rewrite E1 in H2. eapply Qlt_irrefl; eauto.
  - eauto.
Qed.

(** The sort is the only arrangement that is ranked with ties in input
    order. *)
Lemma sorted_desc_unique (l l' : list A) :
  (forall x y, In x l -> In y l -> before x y -> before y x -> False) ->
  StronglySorted before l ->
  Permutation l l' ->
  StronglySorted (ranked_before key before) l' ->
  sorted_desc key l = l'.
Proof.
  intros Hasym Hs Hp Hs'.
  apply sorted_arrangement_unique with (R := ranked_before key before).
  - intros x y Hx Hy. apply (@ranked_before_asym l Hasym); now apply sorted_desc_In.
  - rewrite <- Hp. apply Permutation_sym, sorted_desc_perm.
  - now apply sorted_desc_ranked.
  - exact Hs'.
Qed.

End ByKey.

End PySortFacts.

(* ================================================================== *)
(** ** The order of floats and the sort on float keys *)
(* ================================================================== *)

Module FloatFacts.

Import PyFloat.

Local Open Scope float_scope.

Ltac order_case :=
  split; intros ?; try discriminate; try reflexivity;
  try (exfalso; lia); try lia;
  try match goal with E : (_, _) = (_, _) |- _ => inversion E; subst end;
  try reflexivity; try (exfalso; lia); try (repeat f_equal; lia).

Lemma SFltb_key (f1 f2 : spec_float) :
  f1 <> S754_nan -> f2 <> S754_nan ->
  (SFltb f1 f2 = true <-> key_lt (order_key f1) (order_key f2)).
Proof.
  intros H1 H2. unfold SFltb, key_lt.
  destruct f1 as [s1|s1| |s1 m1 e1]; destruct f2 as [s2|s2| |s2 m2 e2];
    try congruence; try destruct s1; try destruct s2; simpl;
    try (change (PosDef.Pos.compare_cont Eq m1 m2) with (m1 ?= m2)%positive;
         destruct (Z.compare_spec e1 e2);
         [destruct (Pos.compare_spec m1 m2)| |]; simpl);
    order_case.
Qed.

Lemma SFeqb_key (f1 f2 : spec_float) :
  f1 <> S754_nan -> f2 <> S754_nan ->
  (SFeqb f1 f2 = true <-> order_key f1 = order_key f2).
Proof.
  intros H1 H2. unfold SFeqb.
  destruct f1 as [s1|s1| |s1 m1 e1]; destruct f2 as [s2|s2| |s2 m2 e2];
    try congruence; try destruct s1; try destruct s2; simpl;
    try (change (PosDef.Pos.compare_cont Eq m1 m2) with (m1 ?= m2)%positive;
         destruct (Z.compare_spec e1 e2);
         [destruct (Pos.compare_spec m1 m2)| |]; simpl);
    order_case.
Qed.

Lemma is_nan_false (x : float) : is_nan x = false <-> Prim2SF x <> S754_nan.
Proof.
  unfold is_nan. rewrite negb_false_iff, eqb_spec. unfold SFeqb.
  destruct (Prim2SF x) as [s|s| |s m e]; simpl.
  - split; [discriminate|reflexivity].
  - destruct s; (split; [discriminate|reflexivity]).
  - split; [discriminate|congruence].
  - destruct s; rewrite Z.compare_refl, Pos.compare_cont_refl; simpl;
      (split; [discriminate|reflexivity]).
Qed.

Lemma ltb_place (x y : float) :
  is_nan x = false -> is_nan y = false ->
  ((x <? y) = true <-> key_lt (place x) (place y)).
Proof.
  intros Hx Hy. rewrite ltb_spec. apply SFltb_key; now apply is_nan_false.
Qed.

Lemma eqb_place (x y : float) :
  is_nan x = false -> is_nan y = false ->
  ((x =? y) = true <-> place x = place y).
Proof.
  intros Hx Hy. rewrite eqb_spec. apply SFeqb_key; now apply is_nan_false.
Qed.

Lemma ltb_not_nan (x y : float) :
  (x <? y) = true -> is_nan x = false /\ is_nan y = false.
Proof.
  rewrite ltb_spec. unfold SFltb. intros H.
  split; apply is_nan_false; intros E; rewrite E in H; simpl in H;
    [discriminate|].
  destruct (Prim2SF x); discriminate.
Qed.

Lemma eqb_not_nan (x y : float) :
  (x =? y) = true -> is_nan x = false /\ is_nan y = false.
Proof.
  rewrite eqb_spec. unfold SFeqb. intros H.
  split; apply is_nan_false; intros E; rewrite E in H; simpl in H;
    [discriminate|].
  destruct (Prim2SF x); discriminate.
Qed.

Ltac places :=
  unfold key_lt in *;
  repeat match goal with
         | |- context [place ?x] =>
             let a := fresh "a" in let b := fresh "b" in let c := fresh "c" in
             destruct (place x) as [a [b c]]
         | H : context [place ?x] |- _ =>
             let a := fresh "a" in let b := fresh "b" in let c := fresh "c" in
             destruct (place x) as [a [b c]]
         end;
  simpl in *.

Lemma ltb_irrefl (x : float) : (x <? x) = false.
Proof.
  destruct (x <? x) eqn:E; [|reflexivity].
  destruct (@ltb_not_nan x x E) as [Hx _].
  apply (@ltb_place x x Hx Hx) in E. places. lia.
Qed.

Lemma ltb_trans (x y z : float) :
  (x <? y) = true -> (y <? z) = true -> (x <? z) = true.
Proof.
  intros H1 H2.
  destruct (@ltb_not_nan x y H1) as [Hx Hy].
  destruct (@ltb_not_nan y z H2) as [_ Hz].
  apply (@ltb_place x y Hx Hy) in H1. apply (@ltb_place y z Hy Hz) in H2.
  apply (@ltb_place x z Hx Hz). places. lia.
Qed.

Lemma ltb_asym (x y : float) : (x <? y) = true -> (y <? x) = false.
Proof.
  intros H. destruct (y <? x) eqn:E; [|reflexivity].
  pose proof (@ltb_trans x y x H E) as Hxx. now rewrite ltb_irrefl in Hxx.
Qed.

Lemma ltb_eqb_trans (x y z : float) :
  (x <? y) = true -> (y =? z) = true -> (x <? z) = true.
Proof.
  intros H1 H2.
  destruct (@ltb_not_nan x y H1) as [Hx Hy].
  destruct (@eqb_not_nan y z H2) as [_ Hz].
  apply (@ltb_place x y Hx Hy) in H1. apply (@eqb_place y z Hy Hz) in H2.
  apply (@ltb_place x z Hx Hz). now rewrite <- H2.
Qed.

Lemma eqb_ltb_trans (x y z : float) :
  (x =? y) = true -> (y <? z) = true -> (x <? z) = true.
Proof.
  intros H1 H2.
  destruct (@eqb_not_nan x y H1) as [Hx Hy].
  destruct (@ltb_not_nan y z H2) as [_ Hz].
  apply (@eqb_place x y Hx Hy) in H1. apply (@ltb_place y z Hy Hz) in H2.
  apply (@ltb_place x z Hx Hz). now rewrite H1.
Qed.

Lemma ltb_eqb_false (x y : float) : (x <? y) = true -> (y =? x) = false.
Proof.
  intros H. destruct (y =? x) eqn:E; [|reflexivity].
  pose proof (@ltb_eqb_trans x y x H E) as Hxx. now rewrite ltb_irrefl in Hxx.
Qed.

(** Without NaN, a float that is not below another is above it or equal
    to it. *)
Lemma not_ltb (x y : float) :
  is_nan x = false -> is_nan y = false ->
  (x <? y) = false -> (y <? x) = true \/ (y =? x) = true.
Proof.
  intros Hx Hy H.
  assert (Hn : ~ key_lt (place x) (place y)).
  { intros Hk. apply (@ltb_place x y Hx Hy) in Hk. congruence. }
  assert (Hc : key_lt (place y) (place x) \/ place y = place x).
  { revert Hn. unfold key_lt. destruct (place x) as [a [b c]].
    destruct (place y) as [a' [b' c']]. simpl. intros Hn.
    destruct (Z.eq_dec a' a); [destruct (Z.eq_dec b' b);
      [destruct (Z.eq_dec c' c)|]|]; subst; auto; left; lia. }
  destruct Hc as [Hc|Hc]; [left; now apply (@ltb_place y x Hy Hx)|].
  right. now apply (@eqb_place y x Hy Hx).
Qed.

End FloatFacts.

Module FloatSortFacts.

Import FloatSort.

Local Open Scope float_scope.

Section ByKey.

Variable A : Type.
Variable key : A -> float.

Lemma float_insert_In (x : A) (l : list A) (z : A) :
  In z (insert_desc key x l) <-> z = x \/ In z l.
Proof.
  induction l as [|y l IH]; simpl; [intuition|].
  destruct (key_gt key y x); simpl; [rewrite IH|]; intuition.
Qed.

Lemma float_insert_perm (x : A) (l : list A) :
  Permutation (x :: l) (insert_desc key x l).
Proof.
  induction l as [|y l IH]; simpl; [reflexivity|].
  destruct (key_gt key y x); [|reflexivity].
  rewrite perm_swap. now apply perm_skip.
Qed.

Lemma float_sorted_perm (l : list A) : Permutation l (sorted_desc key l).
Proof.
  induction l as [|x l IH]; simpl; [reflexivity|].
  rewrite <- float_insert_perm. now apply perm_skip.
Qed.

Lemma float_sorted_In (l : list A) (z : A) :
  In z (sorted_desc key l) <-> In z l.
Proof.
  split; apply Permutation_in;
    [apply Permutation_sym|]; apply float_sorted_perm.
Qed.

Lemma float_sorted_length (l : list A) :
  List.length (sorted_desc key l) = List.length l.
Proof. symmetry. apply Permutation_length, float_sorted_perm. Qed.

(** A list already in descending order is returned as it is. *)
Lemma float_sorted_fixed (l : list A) :
  StronglySorted (desc key) l -> sorted_desc key l = l.
Proof.
  induction 1 as [|x l Hs IH Hall]; simpl; [reflexivity|].
  rewrite IH. destruct l as [|y l]; simpl; [reflexivity|].
  inversion Hall as [|? ? Hy _]; subst.
  unfold key_gt. unfold desc in Hy. now rewrite Hy.
Qed.

(** *** Ties keep the input order *)

Variable before : A -> A -> Prop.

Lemma float_insert_ranked (x : A) (l : list A) :
  is_nan (key x) = false ->
  Forall (fun y => is_nan (key y) = false) l ->
  StronglySorted (ranked_before key before) l ->
  Forall (before x) l ->
  StronglySorted (ranked_before key before) (insert_desc key x l).
Proof.
  intros Hx Hnan Hs. revert Hnan.
  induction Hs as [|y l Hs IH Hall]; simpl; intros Hnan Hb;
    [repeat constructor|].
  inversion Hb as [|? ? Hby Hbl]; subst.
  inversion Hnan as [|? ? Hy Hnl]; subst.
  destruct (key_gt key y x) eqn:E; unfold key_gt in E.
  - constructor; [now apply IH|].
    apply Forall_forall. intros z Hz. apply float_insert_In in Hz.
    destruct Hz as [->|Hz].
    + left. exact E.
    + rewrite Forall_forall in Hall. auto.
  - constructor; [now constructor|].
    assert (Hxy : ranked_before key before x y).
    { destruct (@FloatFacts.not_ltb (key x) (key y) Hx Hy E) as [Hlt|Heq].
      - now left.
      - right. split; [exact Heq|exact Hby]. }
    constructor; [exact Hxy|].
    rewrite Forall_forall in *. intros z Hz.
    destruct (Hall z Hz) as [Hzy|[Hzy _]]; destruct Hxy as [Hyx|[Hyx _]].
    + left. eapply FloatFacts.ltb_trans; eauto.
    + left. eapply FloatFacts.ltb_eqb_trans; eauto.
    + left. eapply FloatFacts.eqb_ltb_trans; eauto.
    + right. split; [|now apply Hbl].
      destruct (@FloatFacts.eqb_not_nan (key z) (key y) Hzy) as [Hz' _].
      apply (@FloatFacts.eqb_place (key z) (key x) Hz' Hx).
      apply (@FloatFacts.eqb_place (key z) (key y) Hz' Hy) in Hzy.
      apply (@FloatFacts.eqb_place (key y) (key x) Hy Hx) in Hyx.
      congruence.
Qed.

Lemma float_sorted_ranked (l : list A) :
  Forall (fun y => is_nan (key y) = false) l ->
  StronglySorted before l ->
  StronglySorted (ranked_before key before) (sorted_desc key l).
Proof.
  intros Hnan Hs. revert Hnan.
  induction Hs as [|x l Hs IH Hall]; simpl; intros Hnan; [constructor|].
  inversion Hnan as [|? ? Hx Hnl]; subst.
  apply float_insert_ranked; [exact Hx| |now apply IH|].
  - rewrite Forall_forall in *. intros z Hz. apply Hnl.
    now apply float_sorted_In.
  - rewrite Forall_forall in *. intros z Hz. apply Hall.
    now apply float_sorted_In.
Qed.

Lemma float_ranked_asym (l : list A) :
  (forall x y, In x l -> In y l -> before x y -> before y x -> False) ->
  forall x y, In x l -> In y l ->
    ranked_before key before x y -> ranked_before key before y x -> False.
Proof.
  intros Hasym x y Hx Hy [H1|[E1 B1]] [H2|[E2 B2]].
  - apply FloatFacts.ltb_asym in H1. congruence.
  - apply FloatFacts.ltb_eqb_false in H1. congruence.
  - apply FloatFacts.ltb_eqb_false in H2. congruence.
  - eauto.
Qed.

(** The sort is the only arrangement that is ranked with ties in input
    order. *)
Lemma float_sorted_unique (l l' : list A) :
  Forall (fun y => is_nan (key y) = false) l ->
  (forall x y, In x l -> In y l -> before x y -> before y x -> False) ->
  StronglySorted before l ->
  Permutation l l' ->
  StronglySorted (ranked_before key before) l' ->
  sorted_desc key l = l'.
Proof.
  intros Hnan Hasym Hs Hp Hs'.
  apply PySortFacts.sorted_arrangement_unique
    with (R := ranked_before key before).
  - intros x y Hx Hy.
    apply (@float_ranked_asym l Hasym); now apply float_sorted_In.
  - rewrite <- Hp. apply Permutation_sym, float_sorted_perm.
  - now apply float_sorted_ranked.
  - exact Hs'.
Qed.

End ByKey.

End FloatSortFacts.

(* ================================================================== *)
(** ** The lexical retriever *)
(* ================================================================== *)

Module ExamplesFacts.

Import Examples.

Lemma count_scores_length (corpus : list (list string)) (ix : count_index)
  (query_tokens : list string) :
  count_build corpus = Ok ix ->
  List.length (count_scores ix query_tokens) = List.length corpus.
Proof.
  intros H. inversion H; subst. unfold count_scores. apply length_map.
Qed.

Lemma count_scores_empty (corpus : list (list string)) (ix : count_index) :
  count_build corpus = Ok ix ->
  count_scores ix [] = repeat 0%Q (List.length corpus).
Proof.
  intros H. inversion H; subst. unfold count_scores. simpl.
  induction ix as [|d ix IH]; simpl; [reflexivity|now rewrite IH].
Qed.

End ExamplesFacts.

Module BM25Facts.

Import PySort BM25.

Lemma In_firstn (A : Type) (n : nat) (l : list A) (x : A) :
  In x (firstn n l) -> In x l.
Proof.
  intros H. rewrite <- (firstn_skipn n l). apply in_or_app. now left.
Qed.

Lemma In_slice_to (A : Type) (k : Z) (l : list A) (x : A) :
  In x (slice_to k l) -> In x l.
Proof.
  destruct (PyFacts.slice_to_firstn k l) as [n ->]. apply In_firstn.
Qed.

Lemma map_nth_seq (A B : Type) (f : A -> B) (d : A) (l : list A) :
  map (fun i => f (nth i l d)) (seq 0 (List.length l)) = map f l.
Proof.
  induction l as [|x l IH]; simpl; [reflexivity|].
  f_equal. rewrite <- seq_shift, map_map. exact IH.
Qed.

Lemma In_top_indices (scores : list Q) (top_k : Z) (i : nat) :
  In i (top_indices scores top_k) -> i < List.length scores.
Proof.
  unfold top_indices. intros H. apply In_slice_to in H.
  apply PySortFacts.sorted_desc_In in H. apply in_seq in H. lia.
Qed.

Lemma findall_no_word_chars (s : string) :
  forallb (fun c => negb (PyStr.isword c)) (list_ascii_of_string s) = true ->
  PyStr.findall_words s = [].
Proof.
  unfold PyStr.findall_words. induction s as [|c s IH]; simpl; [reflexivity|].
  intros H. apply andb_true_iff in H. destruct H as [Hc Hs].
  apply negb_true_iff in Hc. rewrite Hc. simpl. now apply IH.
Qed.

(** A query without word characters, such as an empty one or one of
    punctuation marks, has no tokens. *)
Lemma tokenize_no_word_chars (query : string) :
  forallb (fun c => negb (PyStr.isword c))
          (list_ascii_of_string (PyStr.lower query)) = true ->
  _tokenize query = [].
Proof. apply findall_no_word_chars. Qed.

Section WithLibrary.

Variable okapi : Type.
Variable BM25Okapi : list (list string) -> result okapi.
Variable get_scores : okapi -> list string -> list Q.
Variable store : Store.

(** What the retriever relies on from [rank_bm25]: [get_scores] returns one
    score per document of the corpus the index was built from, and a zero
    vector when there is no query token to add a term for. *)
Hypothesis get_scores_length :
  forall corpus ix query_tokens,
    BM25Okapi corpus = Ok ix ->
    List.length (get_scores ix query_tokens) = List.length corpus.

Hypothesis get_scores_empty :
  forall corpus ix,
    BM25Okapi corpus = Ok ix ->
    get_scores ix [] = repeat 0%Q (List.length corpus).

Lemma init_inv (chunks : list ref) (self : BM25Retriever okapi) :
  __init__ BM25Okapi store chunks = Ok self ->
  BM25.chunks self = chunks /\
  BM25Okapi (map (fun chunk => _tokenize (Chunker.text (store chunk))) chunks)
  = Ok (bm25 self).
Proof.
  unfold __init__. intros H. apply PyFacts.bind_Ok_inv in H.
  destruct H as (ix & Hix & H). inversion H; subst. simpl. auto.
Qed.

Lemma search_by_indices (self : BM25Retriever okapi) (query : string) (top_k : Z) :
  let scores := get_scores (bm25 self) (_tokenize query) in
  List.length scores = List.length (BM25.chunks self) ->
  search get_scores self query top_k =
  Ok (map (fun i => (nth i (BM25.chunks self) 0, nth i scores 0%Q))
          (top_indices scores top_k)).
Proof.
  intros scores Hlen. unfold search. fold scores.
  apply PyFacts.mapM_Ok_map. intros i Hi. apply In_top_indices in Hi.
  assert (Hi' : i < List.length (BM25.chunks self)) by lia.
  cbv beta.
  erewrite PyFacts.getitem_nat by (apply nth_error_nth' with (d := 0); exact Hi').
  simpl.
  erewrite PyFacts.getitem_nat by (apply nth_error_nth' with (d := 0%Q); exact Hi).
  reflexivity.
Qed.

(** C5. For every query and every [top_k >= 0], [BM25Retriever.search]
    returns at most [top_k] pairs: the chunks at the first [top_k] positions
    of the ranking that is descending in BM25 score with ties in the
    original chunk order, each chunk paired with its own score for the
    tokenized query. *)
Theorem bm25_search_top_k (chunks : list ref) (self : BM25Retriever okapi)
  (query : string) (top_k : Z) :
  __init__ BM25Okapi store chunks = Ok self ->
  (0 <= top_k)%Z ->
  let scores := get_scores (bm25 self) (_tokenize query) in
  exists ranking results,
    search get_scores self query top_k = Ok results /\
    (Z.of_nat (List.length results) <= top_k)%Z /\
    Permutation (seq 0 (List.length chunks)) ranking /\
    StronglySorted (ranked_before (fun i => nth i scores 0%Q) lt) ranking /\
    results = map (fun i => (nth i chunks 0, nth i scores 0%Q))
                  (firstn (Z.to_nat top_k) ranking).
Proof.
  intros Hinit Hk scores. apply init_inv in Hinit. destruct Hinit as [Hc Hix].
  assert (Hlen : List.length scores = List.length chunks).
  { unfold scores. erewrite get_scores_length by exact Hix. apply length_map. }
  exists (sorted_desc (fun i => nth i scores 0%Q) (seq 0 (List.length scores))).
  eexists. split; [|split; [|split; [|split; [|reflexivity]]]].
  - rewrite search_by_indices by (rewrite Hc; exact Hlen).
    rewrite Hc. unfold top_indices. fold scores.
    now rewrite PyFacts.slice_to_nonneg by exact Hk.
  - rewrite length_map, length_firstn. lia.
  - rewrite Hlen. apply PySortFacts.sorted_desc_perm.
  - apply PySortFacts.sorted_desc_ranked, PySortFacts.StronglySorted_lt_seq.
Qed.

(** C7. For every query whose tokenization yields no token,
    [BM25Retriever.search] returns (it does not raise) the chunks in their
    original order, each with score 0, cut to [top_k]; all of them when
    [top_k] is at least the number of chunks, as with three chunks and the
    default [top_k] of 5. *)
Theorem bm25_search_no_tokens (chunks : list ref) (self : BM25Retriever okapi)
  (query : string) (top_k : Z) :
  __init__ BM25Okapi store chunks = Ok self ->
  _tokenize query = [] ->
  search get_scores self query top_k
  = Ok (slice_to top_k (map (fun chunk => (chunk, 0%Q)) chunks)) /\
  ((Z.of_nat (List.length chunks) <= top_k)%Z ->
   search get_scores self query top_k
   = Ok (map (fun chunk => (chunk, 0%Q)) chunks)).
Proof.
  intros Hinit Htok. apply init_inv in Hinit. destruct Hinit as [Hc Hix].
  assert (Hscores : get_scores (bm25 self) (_tokenize query)
                    = repeat 0%Q (List.length chunks)).
  { rewrite Htok. erewrite get_scores_empty by exact Hix. now rewrite length_map. }
  assert (Hsearch : search get_scores self query top_k
                    = Ok (slice_to top_k (map (fun chunk => (chunk, 0%Q)) chunks))).
  { rewrite search_by_indices by (rewrite Hscores, Hc; apply repeat_length).
    rewrite Hscores, Hc. unfold top_indices. rewrite repeat_length.
    rewrite PySortFacts.sorted_desc_fixed.
    - rewrite <- PyFacts.slice_to_map. do 2 f_equal.
      rewrite <- (map_nth_seq (fun chunk => (chunk, 0%Q)) 0 chunks).
      apply map_ext. intros i. now rewrite nth_repeat.
    - apply PySortFacts.StronglySorted_In_impl with (R := fun _ _ => True).
      + intros x y _ _ _. unfold desc. rewrite !nth_repeat. apply Qle_refl.
      + clear. generalize (seq 0 (List.length chunks)).
        induction l; constructor; auto. apply Forall_forall. auto. }
  split; [exact Hsearch|].
  intros Hall. rewrite Hsearch. f_equal. apply PyFacts.slice_to_all.
  now rewrite length_map.
Qed.

End WithLibrary.

Lemma bm25_search_top_k_witness :
  exists self results,
    __init__ Examples.count_build (Examples.store_of Examples.three_texts) [0; 1; 2] = Ok self /\
    search Examples.count_scores self "a line, a slope" 2 = Ok results /\
    List.length results <= 2.
Proof.
  destruct (__init__ Examples.count_build (Examples.store_of Examples.three_texts) [0; 1; 2])
    as [self|e] eqn:Einit; [|vm_compute in Einit; discriminate].
  destruct (@bm25_search_top_k _ _ _ _ ExamplesFacts.count_scores_length
              [0; 1; 2] self "a line, a slope" 2%Z Einit ltac:(lia))
    as (ranking & results & Hs & Hl & _).
  exists self, results. split; [reflexivity|]. split; [exact Hs|lia].
Defined.

Lemma bm25_search_no_tokens_witness :
  exists self,
    __init__ Examples.count_build (Examples.store_of Examples.three_texts) [0; 1; 2] = Ok self /\
    search Examples.count_scores self "?!..." 5
    = Ok [(0, 0%Q); (1, 0%Q); (2, 0%Q)].
Proof.
  destruct (__init__ Examples.count_build (Examples.store_of Examples.three_texts) [0; 1; 2])
    as [self|e] eqn:Einit; [|vm_compute in Einit; discriminate].
  exists self. split; [reflexivity|].
  exact (proj2 (@bm25_search_no_tokens _ _ _ _ ExamplesFacts.count_scores_empty
                  [0; 1; 2] self "?!..." 5%Z Einit eq_refl) ltac:(simpl; lia)).
Defined.

End BM25Facts.

(* ================================================================== *)
(** ** Threshold search, lexical and semantic *)
(* ================================================================== *)

Module ThresholdFacts.

Lemma filter_at_least_all (t : Q) (results : list (ref * Q)) :
  Forall (fun p => (t <= snd p)%Q) (filter (at_least t) results).
Proof.
  apply Forall_forall. intros p Hp. apply filter_In in Hp.
  destruct Hp as [_ Hp]. now apply Qle_bool_iff.
Qed.

Lemma filter_at_least_mono (t t' : Q) (results : list (ref * Q)) :
  (t <= t')%Q ->
  List.length (filter (at_least t') results)
  <= List.length (filter (at_least t) results).
Proof.
  intros Htt. induction results as [|p results IH]; simpl; [lia|].
  destruct (at_least t' p) eqn:E'.
  - assert (E : at_least t p = true).
    { unfold at_least in *. apply Qle_bool_iff. apply Qle_bool_iff in E'.
      eapply Qle_trans; eauto. }
    rewrite E. simpl. lia.
  - destruct (at_least t p); simpl; lia.
Qed.

(** The shape both [search_with_threshold] methods have. *)
Lemma thresholded_inv (m : result (list (ref * Q))) (t : Q)
  (filtered : list (ref * Q)) :
  Py.fmap (filter (at_least t)) m = Ok filtered ->
  exists results, m = Ok results /\ filtered = filter (at_least t) results.
Proof.
  destruct m as [results|e]; simpl; intros H; [|discriminate].
  inversion H; subst. eauto.
Qed.

Section WithLibrary.

Variable okapi : Type.
Variable get_scores : okapi -> list string -> list Q.
Variable flat_index : Type.
Variable index_search : flat_index -> string -> Z -> result (list (Z * Q)).

(** C6. On both retrievers [search_with_threshold(query, t, k)] is
    [search(query, k)] filtered to the pairs with score at least [t] (and
    raises what [search] raises); so every returned score is at least [t],
    and a threshold [t' >= t] never returns more pairs than [t] does. *)
Theorem search_with_threshold_filters (query : string) (k : Z) :
  (forall (self : BM25.BM25Retriever okapi) t,
     BM25.search_with_threshold get_scores self query t k
     = Py.fmap (filter (at_least t)) (BM25.search get_scores self query k)) /\
  (forall (self : Embedding.EmbeddingRetriever flat_index) t,
     Embedding.search_with_threshold index_search self query t k
     = Py.fmap (filter (at_least t))
               (Embedding.search index_search self query k)) /\
  (forall (self : BM25.BM25Retriever okapi) t filtered,
     BM25.search_with_threshold get_scores self query t k = Ok filtered ->
     Forall (fun p => (t <= snd p)%Q) filtered) /\
  (forall (self : Embedding.EmbeddingRetriever flat_index) t filtered,
     Embedding.search_with_threshold index_search self query t k = Ok filtered ->
     Forall (fun p => (t <= snd p)%Q) filtered) /\
  (forall (self : BM25.BM25Retriever okapi) t t' filtered filtered',
     (t <= t')%Q ->
     BM25.search_with_threshold get_scores self query t k = Ok filtered ->
     BM25.search_with_threshold get_scores self query t' k = Ok filtered' ->
     List.length filtered' <= List.length filtered) /\
  (forall (self : Embedding.EmbeddingRetriever flat_index) t t' filtered filtered',
     (t <= t')%Q ->
     Embedding.search_with_threshold index_search self query t k = Ok filtered ->
     Embedding.search_with_threshold index_search self query t' k = Ok filtered' ->
     List.length filtered' <= List.length filtered).
Proof.
  assert (Hb : forall (self : BM25.BM25Retriever okapi) t,
     BM25.search_with_threshold get_scores self query t k
     = Py.fmap (filter (at_least t)) (BM25.search get_scores self query k))
    by reflexivity.
  assert (He : forall (self : Embedding.EmbeddingRetriever flat_index) t,
     Embedding.search_with_threshold index_search self query t k
     = Py.fmap (filter (at_least t))
               (Embedding.search index_search self query k))
    by reflexivity.
  repeat split; auto.
  - intros self t filtered H. rewrite Hb in H.
    apply thresholded_inv in H. destruct H as (results & _ & ->).
    apply filter_at_least_all.
  - intros self t filtered H. rewrite He in H.
    apply thresholded_inv in H. destruct H as (results & _ & ->).
    apply filter_at_least_all.
  - intros self t t' filtered filtered' Htt H H'. rewrite Hb in H, H'.
    apply thresholded_inv in H. destruct H as (results & Hr & ->).
    apply thresholded_inv in H'. destruct H' as (results' & Hr' & ->).
    rewrite Hr in Hr'. inversion Hr'; subst. now apply filter_at_least_mono.
  - intros self t t' filtered filtered' Htt H H'. rewrite He in H, H'.
    apply thresholded_inv in H. destruct H as (results & Hr & ->).
    apply thresholded_inv in H'. destruct H' as (results' & Hr' & ->).
    rewrite Hr in Hr'. inversion Hr'; subst. now apply filter_at_least_mono.
Qed.

End WithLibrary.

Lemma search_with_threshold_filters_witness :
  let self := BM25.mkBM25Retriever [0; 1; 2] []
                (map BM25._tokenize Examples.three_texts) in
  BM25.search_with_threshold Examples.count_scores self "a line, a slope" 1 10
  = Ok [(1, 6%Q); (2, 2%Q)] /\
  Forall (fun p => (3 <= snd p)%Q) [(1, 6%Q)].
Proof.
  split; [reflexivity|].
  exact (proj1 (proj2 (proj2 (@search_with_threshold_filters
                   Examples.count_index Examples.count_scores
                   Examples.flat Examples.flat_search "a line, a slope" 10%Z)))
           (BM25.mkBM25Retriever [0; 1; 2] []
              (map BM25._tokenize Examples.three_texts))
           3%Q [(1, 6%Q)] eq_refl).
Defined.

End ThresholdFacts.

(* ================================================================== *)
(** ** The semantic retriever *)
(* ================================================================== *)

Module EmbeddingFacts.

Import Embedding Examples.

Lemma mapM_padding (chunks : list ref) (last : ref) (m : nat) :
  mapM (fun row : Z * Q =>
          let (idx, score) := row in
          chunk <- getitem (chunks ++ [last]) idx ;; Ok (chunk, score))
       (repeat ((-1)%Z, lowest_float32) m)
  = Ok (repeat (last, lowest_float32) m).
Proof.
  induction m as [|m IH]; simpl; [reflexivity|].
  rewrite PyFacts.getitem_minus_one. simpl. rewrite IH. reflexivity.
Qed.

(** C3, what the code does. Over [n >= 1] chunks and with [top_k > n], an
    index that pads its rows with the label [-1] makes [search] return
    [top_k] pairs: [n] real ones followed by [top_k - n] copies of the last
    chunk paired with the padding score. *)
Theorem embedding_search_pads (cs : list ref) (last : ref) (model : string)
  (ix : flat) (query : string) (top_k : Z) :
  List.length (ix query) = List.length (cs ++ [last]) ->
  (Z.of_nat (List.length (cs ++ [last])) < top_k)%Z ->
  exists real,
    search flat_search (mkEmbeddingRetriever (cs ++ [last]) model ix) query top_k
    = Ok (real ++ repeat (last, lowest_float32)
                         (Z.to_nat top_k - List.length (cs ++ [last]))) /\
    List.length real = List.length (cs ++ [last]).
Proof.
  intros Hlen Hk. unfold search, flat_search. simpl index. simpl Embedding.chunks.
  rewrite (proj2 (Z.leb_gt top_k 0)) by lia. simpl Py.bind.
  set (sims := ix query) in *.
  set (ranked := PySort.sorted_desc (fun i => nth i sims 0%Q)
                                    (rev (seq 0 (List.length sims)))).
  assert (Hr : List.length ranked = List.length (cs ++ [last])).
  { unfold ranked.
    now rewrite PySortFacts.sorted_desc_length, length_rev, length_seq. }
  rewrite firstn_all2 by lia.
  exists (map (fun i => (nth i (cs ++ [last]) 0, nth i sims 0%Q)) ranked).
  split; [|now rewrite length_map].
  rewrite length_map, Hr.
  apply PyFacts.mapM_app; [|apply mapM_padding].
  assert (Hin : forall i, In i ranked -> i < List.length (cs ++ [last])).
  { intros i Hi. apply PySortFacts.sorted_desc_In, in_rev, in_seq in Hi. lia. }
  clearbody ranked. clear Hr.
  induction ranked as [|i ranked IH]; simpl; [reflexivity|].
  erewrite PyFacts.getitem_nat
    by (apply nth_error_nth' with (d := 0); apply Hin; now left).
  simpl. rewrite IH by (intros j Hj; apply Hin; now right). reflexivity.
Qed.

Lemma embedding_search_pads_witness :
  exists real,
    search flat_search
           (mkEmbeddingRetriever ([0] ++ [1]) "all-MiniLM-L6-v2"
                                 (fun _ => [(1#2)%Q; (9#10)%Q]))
           "slope" 3
    = Ok (real ++ repeat (1, lowest_float32)
                         (Z.to_nat 3 - List.length ([0] ++ [1]))) /\
    List.length real = List.length ([0] ++ [1]).
Proof.
  exact (@embedding_search_pads [0] 1 "all-MiniLM-L6-v2"
           (fun _ => [(1#2)%Q; (9#10)%Q]) "slope" 3%Z eq_refl
           ltac:(simpl; lia)).
Defined.

(** Two chunks, [top_k = 3]: the third pair is the last chunk again, with
    the padding score. *)
Lemma embedding_search_two_chunks_top3 :
  search flat_search
         (mkEmbeddingRetriever [0; 1] "all-MiniLM-L6-v2"
                               (fun _ => [(1#2)%Q; (9#10)%Q]))
         "slope" 3
  = Ok [(1, (9#10)%Q); (0, (1#2)%Q); (1, lowest_float32)].
Proof. reflexivity. Qed.

End EmbeddingFacts.

(* ================================================================== *)
(** ** The hybrid retriever *)
(* ================================================================== *)

Module HybridFacts.

Import FloatSort Hybrid RRF DictView.

(** *** Membership, ranks and positions *)

Lemma existsb_eqb_In (c : ref) (l : list ref) :
  existsb (Nat.eqb c) l = true <-> In c l.
Proof.
  rewrite existsb_exists. split.
  - intros (x & Hx & E). apply Nat.eqb_eq in E. now subst.
  - intros H. exists c. split; [exact H|apply Nat.eqb_refl].
Qed.

Lemma existsb_eqb_not_In (c : ref) (l : list ref) :
  existsb (Nat.eqb c) l = false <-> ~ In c l.
Proof.
  rewrite <- existsb_eqb_In. destruct (existsb (Nat.eqb c) l); split; intros H;
    congruence.
Qed.

Lemma rank_from_None (s : nat) (l : list (ref * Q)) (k : ref) :
  ~ In k (map fst l) -> rank_from s l k = None.
Proof.
  revert s. induction l as [|[c q] l IH]; intros s H; simpl; [reflexivity|].
  simpl in H. destruct (Nat.eqb_spec k c); [subst; tauto|]. apply IH. tauto.
Qed.

Lemma rank_from_In (s : nat) (l : list (ref * Q)) (k : ref) :
  In k (map fst l) -> exists r, rank_from s l k = Some r /\ s <= r.
Proof.
  revert s. induction l as [|[c q] l IH]; intros s H; simpl in *; [tauto|].
  destruct (Nat.eqb_spec k c); [eauto|].
  destruct H as [H|H]; [congruence|].
  destruct (IH (S s) H) as (r & Hr & Hle). exists r. split; [exact Hr|lia].
Qed.

Lemma rank_from_bound (s : nat) (l : list (ref * Q)) (k : ref) (r : nat) :
  rank_from s l k = Some r -> s <= r < s + List.length l.
Proof.
  revert s. induction l as [|[c q] l IH]; intros s; simpl; [discriminate|].
  destruct (k =? c).
  - intros H. inversion H; subst. lia.
  - intros H. apply IH in H. lia.
Qed.

Lemma rank_from_tail (s : nat) (c : ref) (q : Q) (l : list (ref * Q)) (k : ref) :
  k <> c -> rank_from s ((c, q) :: l) k = rank_from (S s) l k.
Proof.
  intros H. simpl. destruct (Nat.eqb_spec k c); [contradiction|reflexivity].
Qed.

Lemma last_rank_from_None (s : nat) (l : list (ref * Q)) (k : ref) :
  ~ In k (map fst l) -> last_rank_from s l k = None.
Proof.
  revert s. induction l as [|[c q] l IH]; intros s H; simpl; [reflexivity|].
  simpl in H. rewrite IH by tauto.
  destruct (Nat.eqb_spec k c); [subst; tauto|reflexivity].
Qed.

Lemma last_rank_from_In (s : nat) (l : list (ref * Q)) (k : ref) :
  In k (map fst l) -> exists r, last_rank_from s l k = Some r /\ s <= r.
Proof.
  revert s. induction l as [|[c q] l IH]; intros s H; simpl in *; [tauto|].
  destruct (in_dec Nat.eq_dec k (map fst l)) as [Hin|Hnin].
  - destruct (IH (S s) Hin) as (r & -> & Hle). exists r. split; [reflexivity|lia].
  - rewrite last_rank_from_None by exact Hnin.
    destruct H as [H|H]; [|contradiction]. subst.
    rewrite Nat.eqb_refl. eauto.
Qed.

Lemma last_rank_from_bound (s : nat) (l : list (ref * Q)) (k : ref) (r : nat) :
  last_rank_from s l k = Some r -> s <= r < s + List.length l.
Proof.
  revert s. induction l as [|[c q] l IH]; intros s; simpl; [discriminate|].
  destruct (last_rank_from (S s) l k) as [r'|] eqn:E.
  - intros H. inversion H; subst. apply IH in E. lia.
  - destruct (k =? c); [|discriminate].
    intros H. inversion H; subst. lia.
Qed.

(** In a list that holds no chunk twice the last rank is the rank. *)
Lemma last_rank_from_NoDup (s : nat) (l : list (ref * Q)) (k : ref) :
  NoDup (map fst l) -> last_rank_from s l k = rank_from s l k.
Proof.
  revert s. induction l as [|[c q] l IH]; intros s Hnd; simpl; [reflexivity|].
  inversion Hnd as [|? ? Hc Hnd']; subst.
  rewrite IH by exact Hnd'.
  destruct (Nat.eqb_spec k c); [|now destruct (rank_from (S s) l k)].
  subst. now rewrite rank_from_None.
Qed.

Lemma last_seen_In (l : list ref) (c : ref) : In c (last_seen l) <-> In c l.
Proof.
  induction l as [|x l IH]; simpl; [tauto|].
  destruct (existsb (Nat.eqb x) l) eqn:E.
  - apply existsb_eqb_In in E. rewrite IH. intuition (subst; auto).
  - simpl. rewrite IH. tauto.
Qed.

Lemma last_seen_NoDup (l : list ref) : NoDup (last_seen l).
Proof.
  induction l as [|x l IH]; simpl; [constructor|].
  destruct (existsb (Nat.eqb x) l) eqn:E; [exact IH|].
  apply existsb_eqb_not_In in E. constructor; [|exact IH].
  now rewrite last_seen_In.
Qed.

Lemma last_seen_fixed (l : list ref) : NoDup l -> last_seen l = l.
Proof.
  induction 1 as [|x l Hx Hnd IH]; simpl; [reflexivity|].
  rewrite (proj2 (existsb_eqb_not_In x l) Hx). now rewrite IH.
Qed.

(** Along the order of last occurrences the last ranks increase. *)
Lemma last_seen_sorted (l : list (ref * Q)) (s : nat) :
  StronglySorted
    (fun c c' => exists r r',
         last_rank_from s l c = Some r /\ last_rank_from s l c' = Some r' /\
         r < r')
    (last_seen (map fst l)).
Proof.
  revert s. induction l as [|[c0 q] l IH]; intros s; simpl; [constructor|].
  assert (Hrest : forall a, In a (map fst l) ->
            exists r, last_rank_from (S s) l a = Some r /\ S s <= r /\
                      last_rank_from s ((c0, q) :: l) a = Some r).
  { intros a Ha. destruct (@last_rank_from_In (S s) l a Ha) as (r & Hr & Hle).
    exists r. simpl. rewrite Hr. auto. }
  assert (Htail : StronglySorted
            (fun c c' => exists r r',
                 last_rank_from s ((c0, q) :: l) c = Some r /\
                 last_rank_from s ((c0, q) :: l) c' = Some r' /\ r < r')
            (last_seen (map fst l))).
  { eapply PySortFacts.StronglySorted_In_impl; [|apply (IH (S s))].
    intros a b Ha Hb (r & r' & Hr & Hr' & Hlt).
    apply (proj1 (last_seen_In _ _)) in Ha.
    apply (proj1 (last_seen_In _ _)) in Hb.
    destruct (Hrest a Ha) as (ra & Ha1 & _ & Ha2).
    destruct (Hrest b Hb) as (rb & Hb1 & _ & Hb2).
    exists ra, rb. repeat split; auto. congruence. }
  destruct (existsb (Nat.eqb c0) (map fst l)) eqn:E; [exact Htail|].
  apply existsb_eqb_not_In in E. constructor; [exact Htail|].
  apply Forall_forall. intros y Hy. apply (proj1 (last_seen_In _ _)) in Hy.
  destruct (Hrest y Hy) as (r & _ & Hle & Hr).
  exists s, r. split; [|split; [exact Hr|lia]].
  simpl. rewrite (@last_rank_from_None (S s) l c0 E), Nat.eqb_refl. reflexivity.
Qed.

Lemma position_sorted (l : list ref) :
  NoDup l -> StronglySorted (fun c c' => position l c < position l c') l.
Proof.
  induction 1 as [|x l Hx Hnd IH]; [constructor|]. constructor.
  - eapply PySortFacts.StronglySorted_In_impl; [|exact IH].
    intros a b Ha Hb Hab. simpl in *.
    destruct (Nat.eqb_spec a x); [subst; contradiction|].
    destruct (Nat.eqb_spec b x); [subst; contradiction|]. lia.
  - apply Forall_forall. intros y Hy. simpl. rewrite Nat.eqb_refl.
    destruct (Nat.eqb_spec y x); [subst; contradiction|]. lia.
Qed.

Lemma candidates_NoDup (lex sem : list (ref * Q)) :
  NoDup (map fst lex) -> NoDup (map fst sem) -> NoDup (candidates lex sem).
Proof.
  intros Hl Hs. unfold candidates. apply NoDup_app; [exact Hl| |].
  - now apply NoDup_filter.
  - intros a Ha Hf. apply filter_In in Hf. destruct Hf as [_ Hf].
    unfold listed in Hf. apply negb_true_iff, existsb_eqb_not_In in Hf. tauto.
Qed.

(** *** The dictionary operations *)

Lemma contains_keys (d : Dict) (k : ref) :
  contains d k = existsb (Nat.eqb k) (keys d).
Proof.
  induction d as [|[k' v] d IH]; simpl; [reflexivity|]. now rewrite IH.
Qed.

Lemma lookup_contains (d : Dict) (k : ref) :
  contains d k = match lookup d k with Some _ => true | None => false end.
Proof.
  induction d as [|[k' v] d IH]; simpl; [reflexivity|].
  destruct (k =? k'); simpl; auto.
Qed.

Lemma keys_setitem (d : Dict) (k : ref) (v : Entry) :
  keys (setitem d k v) = if contains d k then keys d else keys d ++ [k].
Proof.
  induction d as [|[k' v'] d IH]; simpl; [reflexivity|].
  destruct (Nat.eqb_spec k k'); simpl; [now subst|].
  rewrite IH. now destruct (contains d k).
Qed.

Lemma keys_set_embedding_rrf (d : Dict) (k : ref) (x : float) :
  keys (set_embedding_rrf d k x) = keys d.
Proof.
  induction d as [|[k' v'] d IH]; simpl; [reflexivity|].
  destruct (k =? k'); simpl; [reflexivity|now rewrite IH].
Qed.

Lemma lookup_setitem (d : Dict) (k : ref) (v : Entry) (k' : ref) :
  lookup (setitem d k v) k' = if k' =? k then Some v else lookup d k'.
Proof.
  induction d as [|[k0 v0] d IH]; simpl; [reflexivity|].
  destruct (Nat.eqb_spec k k0); simpl.
  - subst. now destruct (k' =? k0).
  - rewrite IH. destruct (Nat.eqb_spec k' k0); [|reflexivity].
    subst. destruct (Nat.eqb_spec k0 k); [congruence|reflexivity].
Qed.

Lemma lookup_set_embedding_rrf (d : Dict) (k : ref) (x : float) (k' : ref) :
  lookup (set_embedding_rrf d k x) k' =
  if k' =? k
  then option_map (fun e => mkEntry (chunk e) (bm25_rrf e) x) (lookup d k')
  else lookup d k'.
Proof.
  induction d as [|[k0 v0] d IH]; simpl; [now destruct (k' =? k)|].
  destruct (Nat.eqb_spec k k0); simpl.
  - subst. now destruct (k' =? k0).
  - rewrite IH. destruct (Nat.eqb_spec k' k0); [|reflexivity].
    subst. destruct (Nat.eqb_spec k0 k); [congruence|reflexivity].
Qed.

(** Two dictionaries with the same keys, in the same order and without
    repetition, and the same lookups are the same dictionary. *)
Lemma dict_ext (d d' : Dict) :
  NoDup (keys d) -> keys d = keys d' ->
  (forall k, In k (keys d) -> lookup d k = lookup d' k) -> d = d'.
Proof.
  revert d'. induction d as [|[k v] d IH]; intros [|[k' v'] d'] Hnd Hk Hl;
    simpl in *; try discriminate; [reflexivity|].
  inversion Hk; subst k'. inversion Hnd as [|? ? Hnin Hnd']; subst.
  pose proof (Hl k (or_introl eq_refl)) as Hkk. rewrite Nat.eqb_refl in Hkk.
  inversion Hkk; subst v'. f_equal. apply IH; auto.
  intros k0 Hk0. specialize (Hl k0 (or_intror Hk0)).
  destruct (Nat.eqb_spec k0 k); [subst; contradiction|exact Hl].
Qed.

Lemma lookup_map_entry (f : ref -> Entry) (l : list ref) (k : ref) :
  In k l -> lookup (map (fun c => (c, f c)) l) k = Some (f k).
Proof.
  induction l as [|x l IH]; simpl; [tauto|].
  intros H. destruct (Nat.eqb_spec k x); [now subst|].
  apply IH. destruct H; [congruence|assumption].
Qed.

(** *** The two loops *)

Lemma add_bm25_fold (d : Dict) (l : list (ref * Q)) :
  add_bm25 d l = fold_left bm25_step (combine (seq 1 (List.length l)) l) d.
Proof. reflexivity. Qed.

Lemma add_embedding_fold (d : Dict) (l : list (ref * Q)) :
  add_embedding d l =
  fold_left embedding_step (combine (seq 1 (List.length l)) l) d.
Proof. reflexivity. Qed.

Lemma add_keys_NoDup (cs ks : list ref) :
  NoDup cs ->
  add_keys ks cs = ks ++ filter (fun c => negb (existsb (Nat.eqb c) ks)) cs.
Proof.
  unfold add_keys. intros Hnd. revert ks.
  induction Hnd as [|c cs Hc Hnd IH]; intros ks; simpl; [now rewrite app_nil_r|].
  destruct (existsb (Nat.eqb c) ks) eqn:E; simpl; [apply IH|].
  rewrite IH, <- app_assoc. simpl. do 2 f_equal.
  apply filter_ext_in. intros a Ha. rewrite existsb_app. simpl.
  destruct (Nat.eqb_spec a c); [subst; contradiction|].
  now rewrite !orb_false_r.
Qed.

Lemma add_keys_In (cs ks : list ref) (c : ref) :
  In c (add_keys ks cs) <-> In c ks \/ In c cs.
Proof.
  unfold add_keys. revert ks. induction cs as [|x cs IH]; intros ks; simpl.
  - tauto.
  - rewrite IH. destruct (existsb (Nat.eqb x) ks) eqn:E.
    + apply existsb_eqb_In in E. intuition (subst; auto).
    + rewrite in_app_iff. simpl. intuition.
Qed.

Lemma add_keys_keeps_NoDup (cs ks : list ref) :
  NoDup ks -> NoDup (add_keys ks cs).
Proof.
  unfold add_keys. revert ks. induction cs as [|x cs IH]; intros ks Hnd; simpl;
    [exact Hnd|].
  apply IH. destruct (existsb (Nat.eqb x) ks) eqn:E; [exact Hnd|].
  apply existsb_eqb_not_In in E.
  apply NoDup_app; [exact Hnd|repeat constructor; simpl; tauto|].
  intros a Ha [Hx|[]]. subst. contradiction.
Qed.

(** The keys that are there stay in front, in their order. *)
Lemma add_keys_split (cs ks : list ref) :
  exists rest,
    add_keys ks cs = ks ++ rest /\ Forall (fun c => ~ In c ks) rest.
Proof.
  unfold add_keys. revert ks. induction cs as [|x cs IH]; intros ks; simpl.
  - exists []. split; [now rewrite app_nil_r|constructor].
  - destruct (existsb (Nat.eqb x) ks) eqn:E; [apply IH|].
    apply existsb_eqb_not_In in E.
    destruct (IH (ks ++ [x])) as (rest & Hrest & Hall).
    exists (x :: rest). split; [now rewrite Hrest, <- app_assoc|].
    constructor; [exact E|].
    eapply Forall_impl; [|exact Hall]. intros a Ha Hin. apply Ha.
    apply in_or_app. now left.
Qed.

Lemma add_keys_nil (cs : list ref) : NoDup cs -> add_keys [] cs = cs.
Proof.
  intros Hnd. rewrite (@add_keys_NoDup cs [] Hnd). simpl.
  induction cs as [|c cs IH]; simpl; [reflexivity|].
  inversion Hnd; subst. now rewrite IH.
Qed.

Lemma keys_bm25_loop (l : list (ref * Q)) (s : nat) (d : Dict) :
  keys (fold_left bm25_step (combine (seq s (List.length l)) l) d)
  = add_keys (keys d) (map fst l).
Proof.
  revert s d. induction l as [|[c q] l IH]; intros s d; simpl; [reflexivity|].
  rewrite IH, keys_setitem, contains_keys.
  unfold add_keys at 2. simpl. reflexivity.
Qed.

Lemma keys_embedding_loop (l : list (ref * Q)) (s : nat) (d : Dict) :
  keys (fold_left embedding_step (combine (seq s (List.length l)) l) d)
  = add_keys (keys d) (map fst l).
Proof.
  revert s d. induction l as [|[c q] l IH]; intros s d; simpl; [reflexivity|].
  rewrite IH. unfold add_keys at 2. simpl. rewrite <- contains_keys.
  destruct (contains d c) eqn:E.
  - now rewrite keys_set_embedding_rrf.
  - now rewrite keys_setitem, E.
Qed.

Lemma lookup_bm25_loop (l : list (ref * Q)) (s : nat) (d : Dict) (k : ref) :
  NoDup (map fst l) ->
  lookup (fold_left bm25_step (combine (seq s (List.length l)) l) d) k
  = match rank_from s l k with
    | Some r => Some (mkEntry k (rrf_score r) 0%float)
    | None => lookup d k
    end.
Proof.
  revert s d. induction l as [|[c q] l IH]; intros s d Hnd; [reflexivity|].
  inversion Hnd as [|? ? Hc Hnd']; subst.
  simpl fold_left. rewrite IH by exact Hnd'. simpl rank_from.
  rewrite lookup_setitem. destruct (Nat.eqb_spec k c); [|reflexivity].
  subst. now rewrite rank_from_None.
Qed.

Lemma lookup_embedding_step (d : Dict) (c : ref) (x : float) (k : ref) :
  lookup (if contains d c
          then set_embedding_rrf d c x
          else setitem d c (mkEntry c 0%float x)) k
  = if k =? c
    then Some match lookup d k with
              | Some e => mkEntry (chunk e) (bm25_rrf e) x
              | None => mkEntry k 0%float x
              end
    else lookup d k.
Proof.
  rewrite (lookup_contains d c).
  destruct (lookup d c) as [e|] eqn:E.
  - rewrite lookup_set_embedding_rrf.
    destruct (Nat.eqb_spec k c); [subst; now rewrite E|reflexivity].
  - rewrite lookup_setitem.
    destruct (Nat.eqb_spec k c); [subst; now rewrite E|reflexivity].
Qed.

(** After the second loop a chunk of the semantic list holds the reciprocal
    of its last rank there, whatever it held before. *)
Lemma lookup_embedding_loop (l : list (ref * Q)) (s : nat) (d : Dict) (k : ref) :
  lookup (fold_left embedding_step (combine (seq s (List.length l)) l) d) k
  = match last_rank_from s l k with
    | Some r =>
        Some match lookup d k with
             | Some e => mkEntry (chunk e) (bm25_rrf e) (rrf_score r)
             | None => mkEntry k 0%float (rrf_score r)
             end
    | None => lookup d k
    end.
Proof.
  revert s d. induction l as [|[c q] l IH]; intros s d; [reflexivity|].
  simpl fold_left. rewrite IH. simpl last_rank_from.
  rewrite lookup_embedding_step.
  destruct (last_rank_from (S s) l k) as [r|]; destruct (Nat.eqb_spec k c);
    try reflexivity.
  subst. destruct (lookup d c); reflexivity.
Qed.

(** *** The dictionary after both loops *)

Lemma fusion_keys_left (lex sem : list (ref * Q)) :
  NoDup (map fst lex) ->
  keys (add_embedding (add_bm25 [] lex) sem)
  = add_keys (map fst lex) (map fst sem).
Proof.
  intros Hl. rewrite add_embedding_fold, keys_embedding_loop.
  rewrite add_bm25_fold, keys_bm25_loop. simpl keys.
  now rewrite (@add_keys_nil (map fst lex) Hl).
Qed.

(** The dictionary when the semantic list may repeat chunks. *)
Lemma fusion_dict_left (lex sem : list (ref * Q)) :
  NoDup (map fst lex) ->
  add_embedding (add_bm25 [] lex) sem
  = map (fun c => (c, entry_left lex sem c))
        (add_keys (map fst lex) (map fst sem)).
Proof.
  intros Hl. pose proof (@fusion_keys_left lex sem Hl) as Hkeys.
  apply dict_ext.
  - rewrite Hkeys. now apply add_keys_keeps_NoDup.
  - rewrite Hkeys. unfold keys. rewrite map_map. simpl. now rewrite map_id.
  - intros k Hk. rewrite Hkeys in Hk.
    rewrite (lookup_map_entry _ _ _ Hk).
    rewrite add_embedding_fold, lookup_embedding_loop.
    rewrite add_bm25_fold, (lookup_bm25_loop _ _ _ _ Hl). simpl lookup.
    unfold entry_left, contribution, contribution_from, last_contribution.
    destruct (last_rank_from 1 sem k) as [r2|] eqn:E2;
      destruct (rank_from 1 lex k) as [r1|] eqn:E1; try reflexivity.
    exfalso. apply add_keys_In in Hk. destruct Hk as [Hk|Hk].
    + destruct (rank_from_In 1 _ _ Hk) as (r & Hr & _). congruence.
    + destruct (last_rank_from_In 1 _ _ Hk) as (r & Hr & _). congruence.
Qed.

Lemma fusion_dict (lex sem : list (ref * Q)) :
  NoDup (map fst lex) -> NoDup (map fst sem) ->
  add_embedding (add_bm25 [] lex) sem
  = map (fun c => (c, entry_of lex sem c)) (candidates lex sem).
Proof.
  intros Hl Hs. rewrite (@fusion_dict_left lex sem Hl).
  rewrite (@add_keys_NoDup (map fst sem) (map fst lex) Hs).
  apply map_ext. intros c.
  unfold entry_left, entry_of, last_contribution, contribution,
    contribution_from.
  now rewrite (@last_rank_from_NoDup 1 sem c Hs).
Qed.

Lemma fuse_scored (lex sem : list (ref * Q)) (alpha : float) (top_k : Z) :
  NoDup (map fst lex) -> NoDup (map fst sem) ->
  fuse lex sem alpha top_k
  = slice_to top_k (sorted_desc snd (scored alpha lex sem)).
Proof.
  intros Hl Hs. unfold fuse. rewrite (@fusion_dict lex sem Hl Hs).
  unfold hybrid_results, scored. now rewrite map_map.
Qed.

Lemma fuse_scored_left (lex sem : list (ref * Q)) (alpha : float) (top_k : Z) :
  NoDup (map fst lex) ->
  fuse lex sem alpha top_k
  = slice_to top_k
      (sorted_desc snd
         (map (fun c => (c, fused_left alpha lex sem c))
              (add_keys (map fst lex) (map fst sem)))).
Proof.
  intros Hl. unfold fuse. rewrite (@fusion_dict_left lex sem Hl).
  unfold hybrid_results. now rewrite map_map.
Qed.

(** *** Reciprocal ranks *)

Local Open Scope float_scope.

Lemma rank_table : forallb rank_checked (seq 1 rank_bound) = true.
Proof. vm_compute. reflexivity. Qed.

Lemma rank_checked_at (r : nat) :
  (1 <= r <= rank_bound)%nat -> rank_checked r = true.
Proof.
  intros Hr. pose proof rank_table as H. rewrite forallb_forall in H.
  apply H. apply in_seq. lia.
Qed.

Lemma rrf_score_step (r : nat) :
  (1 <= r <= rank_bound)%nat -> (rrf_score (S r) <? rrf_score r) = true.
Proof.
  intros Hr. pose proof (@rank_checked_at r Hr) as H. unfold rank_checked in H.
  apply andb_true_iff in H. tauto.
Qed.

Lemma rrf_score_exact (r : nat) :
  (1 <= r <= rank_bound)%nat -> exact_at (rrf_score r) = true.
Proof.
  intros Hr. pose proof (@rank_checked_at r Hr) as H. unfold rank_checked in H.
  apply andb_true_iff in H. tauto.
Qed.

Lemma rrf_score_strict (r r' : nat) :
  (1 <= r)%nat -> (r < r')%nat -> (r' <= rank_bound)%nat ->
  (rrf_score r' <? rrf_score r) = true.
Proof.
  intros H1 Hlt. induction Hlt as [|r' Hlt IH]; intros Hb.
  - apply rrf_score_step. lia.
  - eapply FloatFacts.ltb_trans; [apply rrf_score_step; lia|apply IH; lia].
Qed.

Lemma exact_at_parts (x : float) :
  exact_at x = true ->
  (0 <? x) = true /\ 0 * x = 0 /\ 1 * x = x /\ 0 + x = x /\ x + 0 = x.
Proof.
  unfold exact_at. rewrite !andb_true_iff, !FloatAxioms.Leibniz.eqb_spec. tauto.
Qed.

(** A contribution: zero, or a reciprocal rank for which the arithmetic at
    the boundaries has been checked. *)
Lemma contribution_value (l : list (ref * Q)) (c : ref) :
  (List.length l <= rank_bound)%nat ->
  contribution l c = 0 \/ exact_at (contribution l c) = true.
Proof.
  intros Hb. unfold contribution, contribution_from.
  destruct (rank_from 1 l c) as [r|] eqn:E; [|now left].
  right. apply rrf_score_exact. apply rank_from_bound in E. lia.
Qed.

Lemma last_contribution_value (l : list (ref * Q)) (c : ref) :
  (List.length l <= rank_bound)%nat ->
  last_contribution l c = 0 \/ exact_at (last_contribution l c) = true.
Proof.
  intros Hb. unfold last_contribution.
  destruct (last_rank_from 1 l c) as [r|] eqn:E; [|now left].
  right. apply rrf_score_exact. apply last_rank_from_bound in E. lia.
Qed.

Lemma fused_score_0 (e b : float) :
  e = 0 \/ exact_at e = true -> b = 0 \/ exact_at b = true ->
  fused_score 0 e b = b.
Proof.
  intros He Hb. unfold fused_score.
  change (1 - 0) with 1.
  assert (E0 : 0 * e = 0).
  { destruct He as [->|He]; [reflexivity|].
    apply exact_at_parts in He. destruct He as (_ & He & _). exact He. }
  rewrite E0.
  destruct Hb as [->|Hb]; [reflexivity|].
  apply exact_at_parts in Hb. destruct Hb as (_ & _ & H1 & H0 & _).
  now rewrite H1, H0.
Qed.

Lemma fused_score_1 (e b : float) :
  e = 0 \/ exact_at e = true -> b = 0 \/ exact_at b = true ->
  fused_score 1 e b = e.
Proof.
  intros He Hb. unfold fused_score.
  change (1 - 1) with 0.
  assert (E0 : 0 * b = 0).
  { destruct Hb as [->|Hb]; [reflexivity|].
    apply exact_at_parts in Hb. destruct Hb as (_ & Hb & _). exact Hb. }
  rewrite E0.
  destruct He as [->|He]; [reflexivity|].
  apply exact_at_parts in He. destruct He as (_ & _ & H1 & _ & H0).
  now rewrite H1, H0.
Qed.

Lemma fused_left_0 (lex sem : list (ref * Q)) (c : ref) :
  (List.length lex <= rank_bound)%nat -> (List.length sem <= rank_bound)%nat ->
  fused_left 0 lex sem c = contribution lex c.
Proof.
  intros Hl Hs. unfold fused_left. apply fused_score_0.
  - now apply last_contribution_value.
  - now apply contribution_value.
Qed.

Lemma fused_left_1 (lex sem : list (ref * Q)) (c : ref) :
  (List.length lex <= rank_bound)%nat -> (List.length sem <= rank_bound)%nat ->
  fused_left 1 lex sem c = last_contribution sem c.
Proof.
  intros Hl Hs. unfold fused_left. apply fused_score_1.
  - now apply last_contribution_value.
  - now apply contribution_value.
Qed.

Lemma contribution_absent (l : list (ref * Q)) (c : ref) :
  ~ In c (map fst l) -> contribution l c = 0.
Proof.
  intros H. unfold contribution, contribution_from.
  now rewrite rank_from_None.
Qed.

Lemma contribution_present (l : list (ref * Q)) (c : ref) :
  (List.length l <= rank_bound)%nat ->
  In c (map fst l) -> (0 <? contribution l c) = true.
Proof.
  intros Hb H. unfold contribution, contribution_from.
  destruct (rank_from_In 1 _ _ H) as (r & Hr & _). rewrite Hr.
  apply rank_from_bound in Hr.
  assert (Hx : exact_at (rrf_score r) = true) by (apply rrf_score_exact; lia).
  apply exact_at_parts in Hx. destruct Hx as [Hx _]. exact Hx.
Qed.

Lemma last_contribution_absent (l : list (ref * Q)) (c : ref) :
  ~ In c (map fst l) -> last_contribution l c = 0.
Proof.
  intros H. unfold last_contribution. now rewrite last_rank_from_None.
Qed.

Lemma last_contribution_present (l : list (ref * Q)) (c : ref) :
  (List.length l <= rank_bound)%nat ->
  In c (map fst l) -> (0 <? last_contribution l c) = true.
Proof.
  intros Hb H. unfold last_contribution.
  destruct (last_rank_from_In 1 _ _ H) as (r & Hr & _). rewrite Hr.
  apply last_rank_from_bound in Hr.
  assert (Hx : exact_at (rrf_score r) = true) by (apply rrf_score_exact; lia).
  apply exact_at_parts in Hx. destruct Hx as [Hx _]. exact Hx.
Qed.

(** Along a result list without repetition the contributions strictly
    decrease. *)
Lemma contribution_decreasing (l : list (ref * Q)) (s : nat) :
  (1 <= s)%nat -> (s + List.length l <= S rank_bound)%nat ->
  NoDup (map fst l) ->
  StronglySorted
    (fun c c' => (contribution_from s l c' <? contribution_from s l c) = true)
    (map fst l).
Proof.
  revert s. induction l as [|[c0 q] l IH]; intros s H1 Hb Hnd; simpl;
    [constructor|].
  inversion Hnd as [|? ? Hc Hnd']; subst. simpl in Hb. constructor.
  - eapply PySortFacts.StronglySorted_In_impl;
      [|apply (IH (S s)); [lia|lia|exact Hnd']].
    intros a b Ha Hb' Hab. unfold contribution_from in *.
    rewrite !rank_from_tail by (intros ->; contradiction). exact Hab.
  - apply Forall_forall. intros y Hy. unfold contribution_from.
    rewrite rank_from_tail by (intros ->; contradiction).
    destruct (rank_from_In (S s) _ _ Hy) as (r & Hr & Hle). rewrite Hr.
    apply rank_from_bound in Hr.
    cbn [rank_from]. rewrite Nat.eqb_refl. apply rrf_score_strict; lia.
Qed.

Lemma candidates_In (a b : list (ref * Q)) (c : ref) :
  In c (candidates a b) <-> In c (map fst a) \/ In c (map fst b).
Proof.
  unfold candidates. rewrite in_app_iff, filter_In. unfold listed.
  destruct (existsb (Nat.eqb c) (map fst a)) eqn:E.
  - apply existsb_eqb_In in E. simpl. intuition discriminate.
  - simpl. tauto.
Qed.

Lemma semantic_only_absent (a b : list (ref * Q)) (c : ref) :
  In c (filter (fun c => negb (listed a c)) (map fst b)) ->
  ~ In c (map fst a).
Proof.
  intros H. apply filter_In in H. destruct H as [_ H].
  now apply negb_true_iff, existsb_eqb_not_In in H.
Qed.

Lemma StronglySorted_app_l (A : Type) (R : A -> A -> Prop) (l1 l2 : list A) :
  StronglySorted R (l1 ++ l2) -> StronglySorted R l1.
Proof.
  induction l1 as [|a l1 IH]; simpl; intros H; [constructor|].
  inversion H as [|? ? Hs Hall]; subst. constructor; [now apply IH|].
  apply Forall_app in Hall. tauto.
Qed.

Lemma StronglySorted_True (A : Type) (l : list A) :
  StronglySorted (fun _ _ => True) l.
Proof.
  induction l; constructor; auto. apply Forall_forall. auto.
Qed.

Lemma scored_seen_before (alpha : float) (lex sem : list (ref * Q)) :
  NoDup (map fst lex) -> NoDup (map fst sem) ->
  StronglySorted (seen_before (candidates lex sem)) (scored alpha lex sem).
Proof.
  intros Hl Hs. unfold scored. apply PySortFacts.StronglySorted_map_intro.
  unfold seen_before. simpl. apply position_sorted. now apply candidates_NoDup.
Qed.

Lemma map_fst_scored (f : ref -> float) (l : list ref) :
  map fst (map (fun c => (c, f c)) l) = l.
Proof. rewrite map_map. simpl. apply map_id. Qed.

(** *** The two ends of [alpha] *)

(** With [alpha = 0] the scored chunks are already in descending order, so
    the sort leaves them as they are. *)
Lemma sorted_alpha_0 (lex sem : list (ref * Q)) :
  (List.length lex <= rank_bound)%nat -> (List.length sem <= rank_bound)%nat ->
  NoDup (map fst lex) ->
  sorted_desc snd
    (map (fun c => (c, fused_left 0 lex sem c))
         (add_keys (map fst lex) (map fst sem)))
  = map (fun c => (c, fused_left 0 lex sem c))
        (add_keys (map fst lex) (map fst sem)).
Proof.
  intros Hbl Hbs Hl. apply FloatSortFacts.float_sorted_fixed.
  apply PySortFacts.StronglySorted_map_intro.
  unfold desc. simpl.
  destruct (@add_keys_split (map fst sem) (map fst lex)) as (rest & -> & Hrest).
  rewrite Forall_forall in Hrest.
  apply PySortFacts.StronglySorted_app_intro.
  - eapply PySortFacts.StronglySorted_In_impl;
      [|apply (@contribution_decreasing lex 1); [lia|lia|exact Hl]].
    intros a b _ _ Hab. rewrite !fused_left_0 by assumption.
    now apply FloatFacts.ltb_asym.
  - eapply PySortFacts.StronglySorted_In_impl; [|apply StronglySorted_True].
    intros a b Ha Hb _. rewrite !fused_left_0 by assumption.
    rewrite !contribution_absent by (apply Hrest; assumption).
    reflexivity.
  - intros a b Ha Hb. rewrite !fused_left_0 by assumption.
    rewrite (@contribution_absent lex b (Hrest b Hb)).
    apply FloatFacts.ltb_asym. now apply contribution_present.
Qed.

(** The order [alpha = 1] gives: the chunks of the semantic list by their
    last occurrence there, then the chunks only the lexical list holds. *)
Lemma last_order_NoDup (lex sem : list (ref * Q)) :
  NoDup (map fst lex) ->
  NoDup (last_seen (map fst sem)
         ++ filter (fun c => negb (listed sem c)) (map fst lex)).
Proof.
  intros Hl. apply NoDup_app; [apply last_seen_NoDup|now apply NoDup_filter|].
  intros a Ha Hf. apply (proj1 (last_seen_In _ _)) in Ha.
  apply semantic_only_absent in Hf. contradiction.
Qed.

Lemma last_order_In (lex sem : list (ref * Q)) (c : ref) :
  In c (last_seen (map fst sem)
        ++ filter (fun c => negb (listed sem c)) (map fst lex))
  <-> In c (map fst lex) \/ In c (map fst sem).
Proof.
  rewrite in_app_iff, last_seen_In, filter_In. unfold listed.
  destruct (existsb (Nat.eqb c) (map fst sem)) eqn:E.
  - apply existsb_eqb_In in E. simpl. intuition discriminate.
  - simpl. tauto.
Qed.

Lemma scored_left_not_nan (alpha : float) (lex sem : list (ref * Q))
  (l : list ref) :
  (alpha = 0 \/ alpha = 1) ->
  (List.length lex <= rank_bound)%nat -> (List.length sem <= rank_bound)%nat ->
  Forall (fun p : ref * float => is_nan (snd p) = false)
         (map (fun c => (c, fused_left alpha lex sem c)) l).
Proof.
  intros Ha Hbl Hbs. apply Forall_map, Forall_forall. intros c _. simpl.
  assert (Hv : forall x, x = 0 \/ exact_at x = true -> is_nan x = false).
  { intros x [->|Hx]; [reflexivity|].
    apply exact_at_parts in Hx. destruct Hx as (Hx & _).
    now apply FloatFacts.ltb_not_nan in Hx. }
  destruct Ha as [->| ->].
  - rewrite fused_left_0 by assumption. now apply Hv, contribution_value.
  - rewrite fused_left_1 by assumption. now apply Hv, last_contribution_value.
Qed.

Lemma sorted_alpha_1 (lex sem : list (ref * Q)) :
  (List.length lex <= rank_bound)%nat -> (List.length sem <= rank_bound)%nat ->
  NoDup (map fst lex) ->
  sorted_desc snd
    (map (fun c => (c, fused_left 1 lex sem c))
         (add_keys (map fst lex) (map fst sem)))
  = map (fun c => (c, fused_left 1 lex sem c))
        (last_seen (map fst sem)
         ++ filter (fun c => negb (listed sem c)) (map fst lex)).
Proof.
  intros Hbl Hbs Hl.
  pose proof (@add_keys_keeps_NoDup (map fst sem) (map fst lex) Hl) as Hnd.
  apply FloatSortFacts.float_sorted_unique
    with (before := seen_before (add_keys (map fst lex) (map fst sem))).
  - apply scored_left_not_nan; auto.
  - unfold seen_before. intros x y _ _ H1 H2. lia.
  - apply PySortFacts.StronglySorted_map_intro.
    unfold seen_before. simpl. now apply position_sorted.
  - apply Permutation_map. apply NoDup_Permutation.
    + exact Hnd.
    + now apply last_order_NoDup.
    + intros x. rewrite add_keys_In, last_order_In. tauto.
  - apply PySortFacts.StronglySorted_map_intro.
    unfold ranked_before, seen_before. simpl.
    apply PySortFacts.StronglySorted_app_intro.
    + eapply PySortFacts.StronglySorted_In_impl;
        [|apply (@last_seen_sorted sem 1)].
      intros a b _ _ (r & r' & Hr & Hr' & Hlt). left.
      rewrite !fused_left_1 by assumption.
      unfold last_contribution. rewrite Hr, Hr'.
      apply last_rank_from_bound in Hr. apply last_rank_from_bound in Hr'.
      apply rrf_score_strict; lia.
    + destruct (@add_keys_split (map fst sem) (map fst lex))
        as (rest & Hsplit & _).
      eapply PySortFacts.StronglySorted_In_impl;
        [|apply PySortFacts.StronglySorted_filter_intro;
          apply (@StronglySorted_app_l _ _ (map fst lex) rest);
          rewrite <- Hsplit; apply position_sorted; exact Hnd].
      intros a b Ha Hb Hab. right. split; [|exact Hab].
      rewrite !fused_left_1 by assumption.
      rewrite !last_contribution_absent
        by (eapply semantic_only_absent; eauto).
      reflexivity.
    + intros a b Ha Hb. left. rewrite !fused_left_1 by assumption.
      rewrite (@last_contribution_absent sem b (@semantic_only_absent _ _ b Hb)).
      apply last_contribution_present; [assumption|].
      now apply (proj1 (last_seen_In _ _)).
Qed.

(** The fused scores are rounded.  At [alpha = 0.25] a chunk at lexical
    rank 3 and semantic rank 18 and a chunk at lexical rank 5 and semantic
    rank 10 have the same exact score, [11/728]; the doubles the code
    computes, printed 0.015109890109890108 and 0.01510989010989011, differ
    in the last place, and the second chunk is ranked first. *)
Lemma fused_score_rounding :
  fused_score 0.25 (rrf_score 18) (rrf_score 3) = 0x1.ef1ef1ef1ef1ep-7 /\
  fused_score 0.25 (rrf_score 10) (rrf_score 5) = 0x1.ef1ef1ef1ef1fp-7 /\
  (fused_score 0.25 (rrf_score 18) (rrf_score 3)
   <? fused_score 0.25 (rrf_score 10) (rrf_score 5)) = true.
Proof. repeat split; reflexivity. Qed.

Local Close Scope float_scope.

(** *** The claims about [HybridRetriever.search] *)

Section WithLibrary.

Variable okapi : Type.
Variable get_scores : okapi -> list string -> list Q.
Variable flat_index : Type.
Variable index_search : flat_index -> string -> Z -> result (list (Z * Q)).

Lemma search_is_fuse (self : HybridRetriever okapi flat_index) (query : string)
  (top_k : Z) (alpha : float) (bm25_k embedding_k : Z)
  (lex sem : list (ref * Q)) :
  BM25.search get_scores (bm25 self) query bm25_k = Ok lex ->
  Embedding.search index_search (embedding self) query embedding_k = Ok sem ->
  search get_scores index_search self query top_k alpha bm25_k embedding_k
  = Ok (fuse lex sem alpha top_k).
Proof.
  intros Hl Hs. unfold search. rewrite Hl. simpl. rewrite Hs. reflexivity.
Qed.

(** A shorter lexical search returns a prefix of a longer one. *)
Lemma bm25_search_prefix (self : BM25.BM25Retriever okapi) (query : string)
  (k K : Z) (lex : list (ref * Q)) :
  BM25.search get_scores self query K = Ok lex ->
  (0 <= k <= Z.of_nat (List.length lex))%Z ->
  BM25.search get_scores self query k = Ok (firstn (Z.to_nat k) lex).
Proof.
  unfold BM25.search, BM25.top_indices. intros HK Hk.
  pose proof (PyFacts.mapM_length _ _ HK) as Hlen.
  rewrite (@PyFacts.slice_to_prefix _ k K) by lia.
  now apply PyFacts.mapM_firstn.
Qed.

(** C1, as amended. When neither candidate list repeats a chunk and no
    fused score is NaN, [search] returns the reciprocal-rank fusion of the
    two lists, computed in double precision: every chunk of either list
    (the lexical list fetched with [bm25_k], the semantic one with
    [embedding_k]) is scored [alpha] times its semantic contribution plus
    [1 - alpha] times its lexical contribution, a contribution being the
    double [1.0 / (60 + r)] at 1-based rank [r] and 0 for an absent chunk;
    the scored chunks, those with fused score 0 included, are ranked
    descending with ties in first-seen order (lexical list first, then the
    semantic-only chunks), and the ranking is cut to [top_k]. *)
Theorem hybrid_search_fuses (self : HybridRetriever okapi flat_index)
  (query : string) (top_k : Z) (alpha : float) (bm25_k embedding_k : Z)
  (lex sem : list (ref * Q)) :
  BM25.search get_scores (bm25 self) query bm25_k = Ok lex ->
  Embedding.search index_search (embedding self) query embedding_k = Ok sem ->
  NoDup (map fst lex) -> NoDup (map fst sem) ->
  Forall (fun p => is_nan (snd p) = false) (scored alpha lex sem) ->
  exists ranked,
    search get_scores index_search self query top_k alpha bm25_k embedding_k
    = Ok (slice_to top_k ranked) /\
    Permutation (scored alpha lex sem) ranked /\
    StronglySorted (ranked_before snd (seen_before (candidates lex sem))) ranked.
Proof.
  intros Hl Hs Hnl Hns Hnan.
  exists (sorted_desc snd (scored alpha lex sem)). split; [|split].
  - rewrite (search_is_fuse _ _ _ _ _ _ Hl Hs). f_equal.
    now apply fuse_scored.
  - apply FloatSortFacts.float_sorted_perm.
  - apply FloatSortFacts.float_sorted_ranked; [exact Hnan|].
    now apply scored_seen_before.
Qed.

(** For [top_k >= 0], [search] returns at most [top_k] pairs, and it
    returns whenever both retrievers do. *)
Theorem hybrid_search_top_k (self : HybridRetriever okapi flat_index)
  (query : string) (top_k : Z) (alpha : float) (bm25_k embedding_k : Z)
  (lex sem : list (ref * Q)) :
  BM25.search get_scores (bm25 self) query bm25_k = Ok lex ->
  Embedding.search index_search (embedding self) query embedding_k = Ok sem ->
  (0 <= top_k)%Z ->
  exists out,
    search get_scores index_search self query top_k alpha bm25_k embedding_k
    = Ok out /\
    (Z.of_nat (List.length out) <= top_k)%Z.
Proof.
  intros Hl Hs Hk. exists (fuse lex sem alpha top_k).
  split; [now apply search_is_fuse|].
  unfold fuse. now apply PyFacts.slice_to_length.
Qed.

(** C4, what the code does at the two ends of [alpha], for candidate lists
    of at most [rank_bound] chunks and a lexical list that holds no chunk
    twice; the semantic list may repeat chunks, as its padded rows do.
    With [alpha = 0] the chunks come back in first-seen order (the lexical
    candidates, then the chunks only the semantic list holds), cut to
    [top_k]; that is the order of [search_bm25_only(query, top_k)] whenever
    [top_k] does not exceed the number of lexical candidates.  With
    [alpha = 1] they come back in the order of their last occurrences in
    the semantic list, followed by the chunks only the lexical list holds,
    cut to [top_k]; that is the order of the semantic candidate list only
    when that list holds no chunk twice. *)
Theorem hybrid_alpha_boundaries (self : HybridRetriever okapi flat_index)
  (query : string) (top_k bm25_k embedding_k : Z) (lex sem : list (ref * Q)) :
  search_bm25_only get_scores self query bm25_k = Ok lex ->
  search_embedding_only index_search self query embedding_k = Ok sem ->
  NoDup (map fst lex) ->
  List.length lex <= rank_bound -> List.length sem <= rank_bound ->
  (exists out,
     search get_scores index_search self query top_k 0%float bm25_k embedding_k
     = Ok out /\
     map fst out = slice_to top_k (add_keys (map fst lex) (map fst sem)) /\
     ((0 <= top_k <= Z.of_nat (List.length lex))%Z ->
      exists only,
        search_bm25_only get_scores self query top_k = Ok only /\
        map fst out = map fst only)) /\
  (exists out,
     search get_scores index_search self query top_k 1%float bm25_k embedding_k
     = Ok out /\
     map fst out
     = slice_to top_k
         (last_seen (map fst sem)
          ++ filter (fun c => negb (listed sem c)) (map fst lex)) /\
     (NoDup (map fst sem) ->
      map fst out = slice_to top_k (candidates sem lex))).
Proof.
  unfold search_bm25_only, search_embedding_only.
  intros Hl Hs Hnl Hbl Hbs. split.
  - exists (slice_to top_k
              (map (fun c => (c, fused_left 0%float lex sem c))
                   (add_keys (map fst lex) (map fst sem)))).
    split; [|split].
    + rewrite (search_is_fuse _ _ _ _ _ _ Hl Hs). f_equal.
      rewrite (@fuse_scored_left lex sem 0%float top_k Hnl).
      now rewrite sorted_alpha_0.
    + rewrite <- PyFacts.slice_to_map. now rewrite map_fst_scored.
    + intros Hk. exists (firstn (Z.to_nat top_k) lex).
      split; [now apply bm25_search_prefix with (K := bm25_k)|].
      rewrite <- PyFacts.slice_to_map. rewrite map_fst_scored.
      rewrite PyFacts.slice_to_nonneg by lia.
      destruct (@add_keys_split (map fst sem) (map fst lex)) as (rest & -> & _).
      rewrite firstn_app, length_map.
      replace (Z.to_nat top_k - List.length lex) with 0 by lia.
      simpl. now rewrite app_nil_r, firstn_map.
  - exists (slice_to top_k
              (map (fun c => (c, fused_left 1%float lex sem c))
                   (last_seen (map fst sem)
                    ++ filter (fun c => negb (listed sem c)) (map fst lex)))).
    assert (Hout : map fst
                     (slice_to top_k
                        (map (fun c => (c, fused_left 1%float lex sem c))
                           (last_seen (map fst sem)
                            ++ filter (fun c => negb (listed sem c))
                                      (map fst lex))))
                   = slice_to top_k
                       (last_seen (map fst sem)
                        ++ filter (fun c => negb (listed sem c)) (map fst lex))).
    { rewrite <- PyFacts.slice_to_map. now rewrite map_fst_scored. }
    split; [|split].
    + rewrite (search_is_fuse _ _ _ _ _ _ Hl Hs). f_equal.
      rewrite (@fuse_scored_left lex sem 1%float top_k Hnl).
      now rewrite sorted_alpha_1.
    + exact Hout.
    + intros Hns. rewrite Hout. unfold candidates.
      now rewrite (@last_seen_fixed (map fst sem) Hns).
Qed.

End WithLibrary.

Lemma NoDup_012 : NoDup [0; 1; 2].
Proof. repeat constructor; simpl; intuition lia. Defined.

Lemma NoDup_210 : NoDup [2; 1; 0].
Proof. repeat constructor; simpl; intuition lia. Defined.

Lemma hybrid_search_top_k_witness :
  exists out,
    search Examples.count_scores Examples.flat_search Examples.physics_retriever
           "force mass" 2 0.5%float 20 20
    = Ok out /\
    (Z.of_nat (List.length out) <= 2)%Z.
Proof.
  exact (@hybrid_search_top_k _ Examples.count_scores _ Examples.flat_search
           Examples.physics_retriever "force mass" 2%Z 0.5%float 20%Z 20%Z
           _ _ eq_refl eq_refl ltac:(lia)).
Defined.

Lemma hybrid_search_fuses_witness :
  exists ranked,
    search Examples.count_scores Examples.flat_search Examples.physics_retriever
           "force mass" 5 0.5%float 3 3
    = Ok (slice_to 5 ranked) /\
    Permutation
      (scored 0.5%float [(0, 2%Q); (1, 1%Q); (2, 0%Q)]
              [(2, (9 # 10)%Q); (1, (5 # 10)%Q); (0, (1 # 10)%Q)])
      ranked /\
    StronglySorted
      (ranked_before snd
         (seen_before
            (candidates [(0, 2%Q); (1, 1%Q); (2, 0%Q)]
                        [(2, (9 # 10)%Q); (1, (5 # 10)%Q); (0, (1 # 10)%Q)])))
      ranked.
Proof.
  exact (@hybrid_search_fuses _ Examples.count_scores _ Examples.flat_search
           Examples.physics_retriever "force mass" 5%Z 0.5%float 3%Z 3%Z
           [(0, 2%Q); (1, 1%Q); (2, 0%Q)]
           [(2, (9 # 10)%Q); (1, (5 # 10)%Q); (0, (1 # 10)%Q)]
           eq_refl eq_refl NoDup_012 NoDup_210
           ltac:(repeat constructor)).
Defined.

(** C1 as stated fails: with [alpha = 0] the two chunks that only the
    semantic list holds have fused score 0 and are returned all the same,
    while the ranking of the specification leaves them out. *)
Lemma hybrid_search_keeps_zero_scores :
  BM25.search Examples.count_scores (bm25 Examples.physics_retriever)
              "force mass" 1
  = Ok [(0, 2%Q)] /\
  Embedding.search Examples.flat_search (embedding Examples.physics_retriever)
                   "force mass" 3
  = Ok [(2, (9 # 10)%Q); (1, (5 # 10)%Q); (0, (1 # 10)%Q)] /\
  search Examples.count_scores Examples.flat_search Examples.physics_retriever
         "force mass" 5 0%float 1 3
  = Ok [(0, rrf_score 1); (2, 0%float); (1, 0%float)] /\
  ranking 0%float 5 [(0, 2%Q)]
          [(2, (9 # 10)%Q); (1, (5 # 10)%Q); (0, (1 # 10)%Q)]
  = [(0, rrf_score 1)].
Proof. repeat split; reflexivity. Qed.

Lemma hybrid_alpha_boundaries_witness :
  (exists out,
     search Examples.count_scores Examples.flat_search Examples.physics_retriever
            "force mass" 2 0%float 3 3 = Ok out /\
     map fst out = [0; 1] /\
     exists only,
       search_bm25_only Examples.count_scores Examples.physics_retriever
                        "force mass" 2 = Ok only /\
       map fst out = map fst only) /\
  (exists out,
     search Examples.count_scores Examples.flat_search Examples.physics_retriever
            "force mass" 5 1%float 20 20 = Ok out /\
     map fst out = [1; 0; 2]).
Proof.
  split.
  - destruct (proj1 (@hybrid_alpha_boundaries _ Examples.count_scores _
                Examples.flat_search Examples.physics_retriever "force mass"
                2%Z 3%Z 3%Z
                [(0, 2%Q); (1, 1%Q); (2, 0%Q)]
                [(2, (9 # 10)%Q); (1, (5 # 10)%Q); (0, (1 # 10)%Q)]
                eq_refl eq_refl NoDup_012
                ltac:(unfold rank_bound; simpl; lia)
                ltac:(unfold rank_bound; simpl; lia)))
      as (out0 & H0 & Hf0 & Hb0).
    exists out0. split; [exact H0|]. split; [exact Hf0|].
    apply Hb0. simpl. lia.
  - destruct (proj2 (@hybrid_alpha_boundaries _ Examples.count_scores _
                Examples.flat_search Examples.physics_retriever "force mass"
                5%Z 20%Z 20%Z
                [(0, 2%Q); (1, 1%Q); (2, 0%Q)]
                (Examples.padded_rows 17)
                eq_refl eq_refl NoDup_012
                ltac:(unfold rank_bound; simpl; lia)
                ltac:(unfold rank_bound; simpl; lia)))
      as (out1 & H1 & Hf1 & _).
    exists out1. split; [exact H1|exact Hf1].
Defined.

(** C4 as stated fails at [alpha = 1] with the default arguments over three
    chunks: the semantic retriever pads its twenty rows with the last
    chunk, the second loop of [search] leaves that chunk with the
    reciprocal of its last rank, and the chunk the semantic retriever
    ranks first comes back last. *)
Lemma hybrid_alpha_1_padded :
  Py.fmap (map fst)
    (search Examples.count_scores Examples.flat_search Examples.physics_retriever
            "force mass" 5 1%float 20 20)
  = Ok [1; 0; 2] /\
  Py.fmap (map fst)
    (search_embedding_only Examples.flat_search Examples.physics_retriever
                           "force mass" 5)
  = Ok [2; 1; 0; 2; 2] /\
  same_order_on_common [1; 0; 2] [2; 1; 0; 2; 2] = false.
Proof. repeat split; reflexivity. Qed.

(** The retriever of the examples is the one the constructor builds. *)
Lemma physics_retriever_built :
  __init__ Examples.count_build (Examples.flat_build Examples.physics_similarities)
           (Examples.store_of Examples.physics_texts) [0; 1; 2] "all-MiniLM-L6-v2"
  = Ok Examples.physics_retriever.
Proof. reflexivity. Qed.

End HybridFacts.

(* ================================================================== *)
(** ** More on the chunker: layout, budgets at and below zero, windows *)
(* ================================================================== *)

Module ChunkerMore.

Import PyStr Chunker Layout.

Section WithEncoding.

Variable encode : string -> result nat.
Variable chunk_size : Z.

Local Abbreviation number_step := (ChunkerLoops.number_step encode).
Local Abbreviation body := (ChunkerLoops.body encode chunk_size).

Lemma number_step_from (items : list (nat * string)) (acc : list Chunk)
  (pos : nat) :
  Py.fmap fst (fold_left number_step items (Ok (acc, pos)))
  = Py.fmap (app acc) (number_from encode pos items).
Proof.
  revert acc pos. induction items as [|[i raw] items IH]; intros acc pos; simpl.
  - now rewrite app_nil_r.
  - destruct (truthy (strip raw)); [|apply IH].
    destruct (encode (strip raw)) as [tokens|e]; simpl;
      [|now rewrite ChunkerFacts.fold_number_Raise].
    rewrite IH.
    destruct (number_from encode (pos + String.length (strip raw)) items);
      simpl; [|reflexivity].
    now rewrite <- app_assoc.
Qed.

Lemma number_chunks_from (raw : list string) :
  number_chunks encode raw
  = number_from encode 0 (combine (seq 0 (List.length raw)) raw).
Proof.
  rewrite ChunkerFacts.number_chunks_fold, number_step_from.
  destruct (number_from encode 0 (combine (seq 0 (List.length raw)) raw));
    reflexivity.
Qed.

Lemma number_from_laid_out (items : list (nat * string)) (pos : nat)
  (chunks : list Chunk) :
  number_from encode pos items = Ok chunks -> laid_out pos chunks.
Proof.
  revert pos chunks.
  induction items as [|[i raw] items IH]; intros pos chunks; simpl.
  - intros H. inversion H; subst. exact I.
  - destruct (truthy (strip raw)); [|apply IH].
    intros H. apply PyFacts.bind_Ok_inv in H. destruct H as (tokens & _ & H).
    apply PyFacts.bind_Ok_inv in H. destruct H as (rest & Hrest & H).
    inversion H; subst. simpl. repeat split. apply IH. exact Hrest.
Qed.

Lemma number_from_ids (items : list (nat * string)) (pos : nat)
  (chunks : list Chunk) :
  StronglySorted lt (map fst items) ->
  number_from encode pos items = Ok chunks ->
  StronglySorted lt (map chunk_id chunks) /\
  Forall (fun c => In (chunk_id c) (map fst items)) chunks.
Proof.
  revert pos chunks.
  induction items as [|[i raw] items IH]; intros pos chunks Hs; simpl.
  - intros H. inversion H; subst. split; constructor.
  - inversion Hs as [|? ? Hs' Hall]; subst.
    destruct (truthy (strip raw)).
    + intros H. apply PyFacts.bind_Ok_inv in H. destruct H as (tokens & _ & H).
      apply PyFacts.bind_Ok_inv in H. destruct H as (rest & Hrest & H).
      inversion H; subst. destruct (IH _ _ Hs' Hrest) as [IH1 IH2]. simpl. split.
      * constructor; [exact IH1|].
        apply Forall_map. eapply Forall_impl; [|exact IH2].
        intros c Hc. rewrite Forall_forall in Hall. now apply Hall.
      * constructor; [now left|].
        eapply Forall_impl; [|exact IH2]. intros c Hc. now right.
    + intros H. destruct (IH _ _ Hs' H) as [IH1 IH2]. split; [exact IH1|].
      eapply Forall_impl; [|exact IH2]. intros c Hc. now right.
Qed.

Lemma combine_seq_fst (A : Type) (l : list A) (s : nat) :
  map fst (combine (seq s (List.length l)) l) = seq s (List.length l).
Proof.
  revert s. induction l as [|x l IH]; intros s; simpl; [reflexivity|].
  now rewrite IH.
Qed.

Lemma chunk_text_with_number (input : string) (separators : list string)
  (chunks : list Chunk) :
  chunk_text_with encode chunk_size input separators = Ok chunks ->
  exists raw,
    _split_recursive encode chunk_size input separators = Ok raw /\
    number_chunks encode raw = Ok chunks.
Proof.
  unfold chunk_text_with. intros H. apply PyFacts.bind_Ok_inv in H.
  destruct H as (raw & Hraw & H). eauto.
Qed.

(** The positions recorded by [chunk_text] lay the chunks end to end: the
    first chunk starts at 0, every chunk ends [len(text)] after its start,
    and every later chunk starts where the one before it ended. *)
Theorem chunk_positions_contiguous (input : string) (separators : list string)
  (chunks : list Chunk) :
  chunk_text_with encode chunk_size input separators = Ok chunks ->
  laid_out 0 chunks.
Proof.
  intros H. apply chunk_text_with_number in H. destruct H as (raw & _ & H).
  rewrite number_chunks_from in H. eapply number_from_laid_out. exact H.
Qed.

(** The chunk ids returned by [chunk_text] strictly increase (so they are
    unique within the document) and stay below the number of pieces the
    splitter returned; every text is its own trimmed form and the recorded
    token count is the count of that text. *)
Theorem chunk_ids_ascending (input : string) (separators : list string)
  (chunks : list Chunk) :
  chunk_text_with encode chunk_size input separators = Ok chunks ->
  StronglySorted lt (map chunk_id chunks) /\
  (forall raw,
     _split_recursive encode chunk_size input separators = Ok raw ->
     Forall (fun c => chunk_id c < List.length raw) chunks) /\
  Forall (fun c => strip (Chunker.text c) = Chunker.text c /\
                   encode (Chunker.text c) = Ok (token_count c)) chunks.
Proof.
  intros H. apply chunk_text_with_number in H. destruct H as (raw & Hraw & H).
  pose proof H as Hfrom. rewrite number_chunks_from in Hfrom.
  destruct (@number_from_ids (combine (seq 0 (List.length raw)) raw) 0 chunks)
    as [Hs Hin]; [|exact Hfrom|].
  { rewrite combine_seq_fst. apply PySortFacts.StronglySorted_lt_seq. }
  split; [exact Hs|split].
  - intros raw' Hraw'. rewrite Hraw in Hraw'. inversion Hraw'; subst raw'.
    eapply Forall_impl; [|exact Hin].
    intros c Hc. rewrite combine_seq_fst in Hc. apply in_seq in Hc. lia.
  - eapply Forall_impl; [|apply (@ChunkerFacts.number_chunks_numbered encode raw chunks H)].
    intros c (p & _ & Ht & _ & Hc). split; [|exact Hc].
    rewrite Ht. apply PyStrFacts.strip_idem.
Qed.

(** *** Budgets below zero and at zero, and a tokenizer that raises *)

Lemma fold_body_Raise rec splits e :
  fold_left (body rec) splits (Raise e) = Raise e.
Proof. induction splits as [|s splits IH]; simpl; auto. Qed.

Lemma fold_body_nil (rec : string -> result (list string)) (splits : list string)
  (raw : list string) :
  (chunk_size < 0)%Z ->
  (forall s r, rec s = Ok r -> r = []) ->
  fold_left (body rec) splits (Ok []) = Ok raw -> raw = [].
Proof.
  intros HB Hrec. induction splits as [|s splits IH]; simpl.
  - intros H. inversion H. reflexivity.
  - destruct (negb (truthy (strip s))); [exact IH|].
    destruct (encode s) as [tokens|e]; simpl;
      [|rewrite fold_body_Raise; discriminate].
    rewrite (proj2 (Z.leb_gt _ _)) by lia.
    destruct (rec s) as [r|e] eqn:Er; simpl;
      [|rewrite fold_body_Raise; discriminate].
    rewrite (Hrec _ _ Er). exact IH.
Qed.

Lemma truthy_false_empty (s : string) : truthy s = false -> s = EmptyString.
Proof. destruct s; [reflexivity|discriminate]. Qed.

Lemma split_recursive_negative (separators : list string) (input : string)
  (raw : list string) :
  (chunk_size < 0)%Z -> In EmptyString separators ->
  _split_recursive encode chunk_size input separators = Ok raw -> raw = [].
Proof.
  intros HB. revert input raw.
  induction separators as [|sep rest IH]; intros input raw Hin; [destruct Hin|].
  rewrite ChunkerFacts.split_recursive_cons.
  destruct (negb (truthy (strip input))); [intros H; inversion H; reflexivity|].
  destruct (truthy sep) eqn:Esep.
  - apply fold_body_nil; [exact HB|]. intros s r. apply IH.
    destruct Hin as [Heq|Hin]; [subst sep; discriminate|exact Hin].
  - unfold char_windows. destruct (Z.eqb_spec chunk_size 0); [lia|].
    rewrite (proj2 (Z.ltb_lt _ _) HB). intros H. inversion H. reflexivity.
Qed.

(** What makes the splitter raise: the zero step of the fallback [range],
    or the tokenizer. *)
Definition cause (e : exn) : Prop :=
  (e = ValueError /\ chunk_size = 0%Z) \/ exists s, encode s = Raise e.

Lemma fold_body_error (rec : string -> result (list string)) :
  (forall s e, rec s = Raise e -> cause e) ->
  forall splits acc e,
    fold_left (body rec) splits (Ok acc) = Raise e -> cause e.
Proof.
  intros Hrec. induction splits as [|s splits IH]; simpl; intros acc e H;
    [discriminate|].
  destruct (negb (truthy (strip s))); [eauto|].
  destruct (encode s) as [tokens|e'] eqn:Es; simpl in H.
  - destruct (Z.of_nat tokens <=? chunk_size)%Z; [eauto|].
    destruct (rec s) as [r|e'] eqn:Er; simpl in H; [eauto|].
    rewrite fold_body_Raise in H. inversion H; subst. eauto.
  - rewrite fold_body_Raise in H. inversion H; subst. right. eauto.
Qed.

Lemma split_recursive_error (separators : list string) (input : string) (e : exn) :
  _split_recursive encode chunk_size input separators = Raise e -> cause e.
Proof.
  revert input e. induction separators as [|sep rest IH]; intros input e.
  - simpl. discriminate.
  - rewrite ChunkerFacts.split_recursive_cons.
    destruct (negb (truthy (strip input))); [discriminate|].
    destruct (truthy sep).
    + apply (@fold_body_error
               (fun s => _split_recursive encode chunk_size s rest)).
      intros s e'. apply IH.
    + unfold char_windows. destruct (Z.eqb_spec chunk_size 0).
      * intros H. inversion H. left. auto.
      * destruct (chunk_size <? 0)%Z; discriminate.
Qed.

Lemma number_from_error (items : list (nat * string)) (pos : nat) (e : exn) :
  number_from encode pos items = Raise e -> exists s, encode s = Raise e.
Proof.
  revert pos. induction items as [|[i raw] items IH]; intros pos; simpl;
    [discriminate|].
  destruct (truthy (strip raw)); [|apply IH].
  destruct (encode (strip raw)) as [tokens|e'] eqn:Et; simpl.
  - destruct (number_from encode (pos + String.length (strip raw)) items)
      as [rest|e'] eqn:Er; simpl; [discriminate|].
    intros H. inversion H; subst. eapply IH. exact Er.
  - intros H. inversion H; subst. eauto.
Qed.

Lemma chunk_text_with_error (input : string) (separators : list string)
  (e : exn) :
  chunk_text_with encode chunk_size input separators = Raise e -> cause e.
Proof.
  unfold chunk_text_with.
  destruct (_split_recursive encode chunk_size input separators) as [raw|e']
    eqn:E; simpl; intros H.
  - rewrite number_chunks_from in H. right. eapply number_from_error. exact H.
  - inversion H; subst. eapply split_recursive_error; eauto.
Qed.



End WithEncoding.

Lemma chunk_positions_contiguous_witness :
  laid_out 0 [mkChunk 0 "ab" 2 0 2; mkChunk 1 "cd" 2 2 4; mkChunk 2 "e" 1 4 5].
Proof.
  exact (@chunk_positions_contiguous Examples.chars 2%Z "ab  cde"
           default_separators _ eq_refl).
Defined.

Lemma chunk_ids_ascending_witness :
  StronglySorted lt
    (map chunk_id [mkChunk 0 "a" 1 0 1; mkChunk 1 "b" 1 1 2]).
Proof.
  exact (proj1 (@chunk_ids_ascending Examples.chars 1%Z "a  b"
                  default_separators _ eq_refl)).
Defined.



(** *** The character windows of the fallback *)

Lemma substring_drop (a b k : nat) (s : string) :
  substring (a + b) k s = substring b k (drop a s).
Proof.
  revert s. induction a as [|a IH]; intros s; [reflexivity|].
  destruct s as [|c s]; simpl; [now destruct b, k|apply IH].
Qed.

Lemma take_drop (n : nat) (s : string) :
  (substring 0 n s ++ drop n s)%string = s.
Proof.
  revert s. induction n as [|n IH]; intros s; [now destruct s|].
  destruct s as [|c s]; simpl; [reflexivity|now rewrite IH].
Qed.

Lemma drop_length (n : nat) (s : string) :
  String.length (drop n s) = String.length s - n.
Proof.
  revert s. induction n as [|n IH]; intros s; simpl; [lia|].
  destruct s as [|c s]; simpl; [reflexivity|apply IH].
Qed.

Lemma substring_length (i n : nat) (s : string) :
  String.length (substring i n s) = Nat.min n (String.length s - i).
Proof.
  revert i n. induction s as [|c s IH]; intros i n.
  - destruct i, n; simpl; lia.
  - destruct i as [|i].
    + destruct n as [|n]; simpl; [reflexivity|]. rewrite (IH 0 n). lia.
    + simpl. apply IH.
Qed.

Lemma concat_empty_cons (x : string) (l : list string) :
  String.concat "" (x :: l) = (x ++ String.concat "" l)%string.
Proof.
  destruct l as [|y l]; simpl; [|reflexivity].
  induction x as [|c x IH]; simpl; [reflexivity|now rewrite <- IH].
Qed.

Lemma windows_concat (n m : nat) (s : string) :
  String.length s <= m * n ->
  String.concat "" (map (fun j => substring (j * n) n s) (seq 0 m)) = s.
Proof.
  revert s. induction m as [|m IH]; intros s Hlen.
  - destruct s; [reflexivity|simpl in Hlen; lia].
  - rewrite <- cons_seq, <- seq_shift, map_cons, map_map, concat_empty_cons.
    rewrite (map_ext _ (fun j => substring (j * n) n (drop n s)))
      by (intros j; simpl Nat.mul; apply substring_drop).
    rewrite IH by (rewrite drop_length; simpl in Hlen; lia).
    apply take_drop.
Qed.

(** For a positive [chunk_size] the fallback windows are a partition of the
    text: joined back they give the text, none of them is empty and none
    is longer than [chunk_size] characters. *)
Theorem char_windows_partition (chunk_size : Z) (input : string) :
  (0 < chunk_size)%Z ->
  exists windows,
    char_windows chunk_size input = Ok windows /\
    String.concat "" windows = input /\
    Forall (fun w => 0 < String.length w <= Z.to_nat chunk_size) windows.
Proof.
  intros HB. unfold char_windows.
  destruct (Z.eqb_spec chunk_size 0) as [Hz|Hnz]; [lia|].
  rewrite (proj2 (Z.ltb_ge _ _)) by lia.
  set (n := Z.to_nat chunk_size). assert (Hn : 0 < n) by lia.
  set (len := String.length input).
  set (m := (len + n - 1) / n).
  assert (Hdiv : len + n - 1 = n * m + (len + n - 1) mod n)
    by (apply Nat.div_mod_eq).
  assert (Hmod : (len + n - 1) mod n < n) by (apply Nat.mod_upper_bound; lia).
  eexists. split; [reflexivity|]. unfold range_step, slice. fold len n m.
  rewrite map_map. split.
  - apply windows_concat. fold len. nia.
  - apply Forall_forall. intros w Hw. apply in_map_iff in Hw.
    destruct Hw as (j & <- & Hj). apply in_seq in Hj.
    rewrite substring_length. fold len.
    assert (j * n < len) by nia. lia.
Qed.

Lemma char_windows_partition_witness :
  exists windows,
    char_windows 3 "abcdefgh" = Ok windows /\
    String.concat "" windows = "abcdefgh" /\
    Forall (fun w => 0 < String.length w <= Z.to_nat 3) windows.
Proof.
  exact (@char_windows_partition 3%Z "abcdefgh" ltac:(lia)).
Defined.

End ChunkerMore.

(* ================================================================== *)
(** ** More on the retrievers *)
(* ================================================================== *)

Module TokenizeFacts.

Import PyStr Shapes.

Lemma lower_char_idem (c : ascii) : lower_char (lower_char c) = lower_char c.
Proof.
  destruct c as [[] [] [] [] [] [] [] []]; vm_compute; reflexivity.
Qed.

Lemma lower_idem (s : string) : lower (lower s) = lower s.
Proof.
  induction s as [|c s IH]; simpl; [reflexivity|].
  now rewrite lower_char_idem, IH.
Qed.

Lemma forallb_rev (A : Type) (p : A -> bool) (l : list A) :
  forallb p l = true -> forallb p (rev l) = true.
Proof.
  rewrite !forallb_forall. intros H x Hx. apply H. now apply in_rev.
Qed.

(** Every token is a non-empty run of the characters read. *)
Lemma findall_words_from_chars (p : ascii -> bool) (s : string) (cur : list ascii) :
  forallb p cur = true ->
  forallb p (list_ascii_of_string s) = true ->
  Forall (fun t => truthy t = true /\
                   forallb p (list_ascii_of_string t) = true)
         (findall_words_from cur s).
Proof.
  revert cur. induction s as [|c s IH]; intros cur Hcur Hs.
  - simpl. destruct cur as [|a cur]; constructor; [|constructor].
    rewrite list_ascii_of_string_of_list_ascii. split; [|now apply forallb_rev].
    destruct (rev (a :: cur)) eqn:E; [|reflexivity].
    apply (f_equal (@List.length ascii)) in E.
    rewrite length_rev in E. discriminate.
  - simpl in Hs. apply andb_true_iff in Hs. destruct Hs as [Hc Hs].
    simpl. destruct (isword c).
    + apply IH; [simpl; now rewrite Hc, Hcur|exact Hs].
    + apply Forall_app. split; [|now apply IH].
      destruct cur as [|a cur]; constructor; [|constructor].
      rewrite list_ascii_of_string_of_list_ascii. split; [|now apply forallb_rev].
      destruct (rev (a :: cur)) eqn:E; [|reflexivity].
      apply (f_equal (@List.length ascii)) in E.
      rewrite length_rev in E. discriminate.
Qed.

(** Every token holds word characters only. *)
Lemma findall_words_from_word (s : string) (cur : list ascii) :
  forallb isword cur = true ->
  Forall (fun t => forallb isword (list_ascii_of_string t) = true)
         (findall_words_from cur s).
Proof.
  revert cur. induction s as [|c s IH]; intros cur Hcur.
  - simpl. destruct cur as [|a cur]; constructor; [|constructor].
    rewrite list_ascii_of_string_of_list_ascii. now apply forallb_rev.
  - simpl. destruct (isword c) eqn:Ec.
    + apply IH. simpl. now rewrite Ec, Hcur.
    + apply Forall_app. split; [|now apply IH].
      destruct cur as [|a cur]; constructor; [|constructor].
      rewrite list_ascii_of_string_of_list_ascii. now apply forallb_rev.
Qed.

Lemma lower_is_lowered (s : string) :
  forallb is_lowered (list_ascii_of_string (lower s)) = true.
Proof.
  induction s as [|c s IH]; simpl; [reflexivity|].
  rewrite IH, andb_true_r. unfold is_lowered.
  destruct (ascii_dec (lower_char (lower_char c)) (lower_char c)) as [|Hn];
    [reflexivity|]. exfalso. apply Hn, lower_char_idem.
Qed.

(** The tokens of [_tokenize] are non-empty runs of word characters with no
    upper-case letter left in them, and lowering the text first changes
    nothing: tokenization ignores case. *)
Theorem tokenize_tokens (text : string) :
  Forall (fun t => truthy t = true /\
                   forallb isword (list_ascii_of_string t) = true /\
                   forallb is_lowered (list_ascii_of_string t) = true)
         (BM25._tokenize text) /\
  BM25._tokenize (lower text) = BM25._tokenize text.
Proof.
  split.
  - unfold BM25._tokenize, findall_words.
    pose proof (@findall_words_from_chars is_lowered (lower text) [] eq_refl
                  (lower_is_lowered text)) as H1.
    pose proof (@findall_words_from_word (lower text) [] eq_refl) as H2.
    rewrite Forall_forall in *. intros t Ht.
    destruct (H1 t Ht) as [Ha Hb]. repeat split; auto.
  - unfold BM25._tokenize. now rewrite lower_idem.
Qed.

End TokenizeFacts.

Module BM25More.

Import PySort BM25.

Section WithLibrary.

Variable okapi : Type.
Variable BM25Okapi : list (list string) -> result okapi.
Variable get_scores : okapi -> list string -> list Q.
Variable store : Store.

Hypothesis get_scores_length :
  forall corpus ix query_tokens,
    BM25Okapi corpus = Ok ix ->
    List.length (get_scores ix query_tokens) = List.length corpus.

Lemma slice_to_length_exact (A : Type) (k : Z) (l : list A) :
  List.length (slice_to k l)
  = if (k <? 0)%Z then List.length l - Z.to_nat (- k)
    else Nat.min (Z.to_nat k) (List.length l).
Proof.
  unfold slice_to. destruct (k <? 0)%Z; rewrite length_firstn; lia.
Qed.

(** [BM25Retriever.search] returns (it does not raise) for every query and
    every [top_k], also a negative one: [min(top_k, n)] pairs for
    [top_k >= 0] and [n - |top_k|] (or none) for [top_k < 0], [n] being
    the number of chunks; a chunk with score 0 is returned like any other,
    and with [top_k >= n] every chunk of the collection comes back exactly
    once. *)
Theorem bm25_search_length (chunks : list ref) (self : BM25Retriever okapi)
  (query : string) (top_k : Z) :
  __init__ BM25Okapi store chunks = Ok self ->
  exists results,
    search get_scores self query top_k = Ok results /\
    List.length results
    = (if (top_k <? 0)%Z then List.length chunks - Z.to_nat (- top_k)
       else Nat.min (Z.to_nat top_k) (List.length chunks)) /\
    ((Z.of_nat (List.length chunks) <= top_k)%Z ->
     Permutation chunks (map fst results)).
Proof.
  intros Hinit.
  apply (BM25Facts.init_inv BM25Okapi store) in Hinit.
  destruct Hinit as [Hc Hix].
  set (scores := get_scores (bm25 self) (_tokenize query)).
  assert (Hlen : List.length scores = List.length chunks).
  { unfold scores. erewrite get_scores_length by exact Hix. apply length_map. }
  eexists. split; [|split].
  - apply BM25Facts.search_by_indices. fold scores. now rewrite Hc.
  - rewrite length_map. unfold top_indices. fold scores.
    rewrite slice_to_length_exact, PySortFacts.sorted_desc_length, length_seq.
    now rewrite Hlen.
  - intros Hall. fold scores. rewrite map_map. simpl. unfold top_indices.
    rewrite PyFacts.slice_to_all
      by (rewrite PySortFacts.sorted_desc_length, length_seq; lia).
    rewrite Hc.
    transitivity (map (fun i => nth i chunks 0) (seq 0 (List.length chunks))).
    + rewrite (BM25Facts.map_nth_seq (fun c => c) 0 chunks), map_id.
      reflexivity.
    + apply Permutation_map. rewrite <- Hlen.
      apply PySortFacts.sorted_desc_perm.
Qed.

End WithLibrary.

Lemma bm25_search_length_witness :
  exists self results,
    __init__ Examples.count_build (Examples.store_of Examples.three_texts)
             [0; 1; 2] = Ok self /\
    search Examples.count_scores self "a line, a slope" (-1) = Ok results /\
    List.length results = 2.
Proof.
  destruct (__init__ Examples.count_build (Examples.store_of Examples.three_texts)
                     [0; 1; 2])
    as [self|e] eqn:Einit; [|vm_compute in Einit; discriminate].
  destruct (@bm25_search_length _ _ _ _ ExamplesFacts.count_scores_length
              [0; 1; 2] self "a line, a slope" (-1)%Z Einit)
    as (results & Hs & Hl & _).
  exists self, results. split; [reflexivity|]. split; [exact Hs|exact Hl].
Defined.

End BM25More.

Module EmbeddingMore.

Import Embedding Shapes.

Lemma getitem_in_range (A : Type) (l : list A) (i : Z) :
  in_range (List.length l) i -> exists a, getitem l i = Ok a /\ In a l.
Proof.
  unfold in_range, getitem. intros H.
  set (n := Z.of_nat (List.length l)) in *.
  set (j := if (i <? 0)%Z then (n + i)%Z else i).
  assert (Hj : (0 <= j < n)%Z) by (unfold j; destruct (Z.ltb_spec i 0); lia).
  rewrite (proj2 (Z.ltb_ge j 0)) by lia.
  rewrite (proj2 (Z.leb_gt n j)) by lia. simpl.
  destruct (nth_error l (Z.to_nat j)) as [a|] eqn:E.
  - exists a. split; [reflexivity|]. eapply nth_error_In; eauto.
  - apply nth_error_None in E. lia.
Qed.

Lemma getitem_out_of_range (A : Type) (l : list A) (i : Z) :
  ~ in_range (List.length l) i -> getitem l i = Raise IndexError.
Proof.
  unfold in_range, getitem. intros H.
  set (n := Z.of_nat (List.length l)) in *.
  set (j := if (i <? 0)%Z then (n + i)%Z else i).
  assert (Hj : (j < 0 \/ n <= j)%Z) by (unfold j; destruct (Z.ltb_spec i 0); lia).
  destruct (Z.ltb_spec j 0); [reflexivity|].
  rewrite (proj2 (Z.leb_le n j)) by lia. reflexivity.
Qed.

Section WithLibrary.

Variable flat_index : Type.
Variable index_search : flat_index -> string -> Z -> result (list (Z * Q)).

Local Abbreviation row_pair self :=
  (fun row : Z * Q =>
     let (idx, score) := row in
     chunk <- getitem (chunks self) idx ;; Ok (chunk, score)).

Lemma rows_in_range (self : EmbeddingRetriever flat_index) (rows : list (Z * Q)) :
  Forall (fun row => in_range (List.length (chunks self)) (fst row)) rows ->
  exists results,
    mapM (row_pair self) rows = Ok results /\
    map snd results = map snd rows /\
    Forall (fun p => In (fst p) (chunks self)) results.
Proof.
  induction 1 as [|[idx score] rows Hr Hrows IH]; simpl.
  - exists []. repeat split. constructor.
  - destruct (@getitem_in_range _ (chunks self) idx Hr) as (a & -> & Ha). simpl.
    destruct IH as (results & -> & Hs & Hall). simpl.
    exists ((a, score) :: results). simpl. rewrite Hs.
    repeat split. now constructor.
Qed.

Lemma rows_out_of_range (self : EmbeddingRetriever flat_index) (rows : list (Z * Q)) :
  Exists (fun row => ~ in_range (List.length (chunks self)) (fst row)) rows ->
  mapM (row_pair self) rows = Raise IndexError.
Proof.
  induction 1 as [[idx score] rows Hr|[idx score] rows Hrows IH]; simpl.
  - simpl in Hr. now rewrite (@getitem_out_of_range _ (chunks self) idx Hr).
  - destruct (getitem (chunks self) idx) as [a|e] eqn:E; simpl.
    + now rewrite IH.
    + unfold getitem in E.
      destruct ((_ <? 0) || _)%Z; [congruence|].
      destruct (nth_error _ _); congruence.
Qed.

(** [EmbeddingRetriever.search] turns the rows of the index into pairs one
    for one: when every label [idx] satisfies [-n <= idx < n] it returns a
    pair per row, with the row's score and a chunk of the collection; when
    some label lies outside that range it raises [IndexError]; and what the
    index call raises, it raises. *)
Theorem embedding_search_labels (self : EmbeddingRetriever flat_index)
  (query : string) (top_k : Z) :
  (forall rows,
     index_search (index self) query top_k = Ok rows ->
     (Forall (fun row => in_range (List.length (chunks self)) (fst row)) rows ->
      exists results,
        search index_search self query top_k = Ok results /\
        map snd results = map snd rows /\
        Forall (fun p => In (fst p) (chunks self)) results) /\
     (Exists (fun row => ~ in_range (List.length (chunks self)) (fst row)) rows ->
      search index_search self query top_k = Raise IndexError)) /\
  (forall e,
     index_search (index self) query top_k = Raise e ->
     search index_search self query top_k = Raise e).
Proof.
  split.
  - intros rows Hrows. unfold search. rewrite Hrows. simpl. split.
    + apply rows_in_range.
    + apply rows_out_of_range.
  - intros e He. unfold search. now rewrite He.
Qed.

End WithLibrary.

Lemma embedding_search_labels_witness :
  search Examples.flat_search
         (mkEmbeddingRetriever [] "all-MiniLM-L6-v2" (fun _ => []))
         "slope" 1
  = Raise IndexError.
Proof.
  apply (proj2 (proj1 (@embedding_search_labels _ Examples.flat_search
                         (mkEmbeddingRetriever [] "all-MiniLM-L6-v2" (fun _ => []))
                         "slope" 1%Z)
                  [((-1)%Z, Examples.lowest_float32)] eq_refl)).
  constructor. unfold in_range. simpl. lia.
Defined.

End EmbeddingMore.

Module HybridMore.

Import FloatSort Hybrid RRF DictView Shapes.

Lemma setitem_Forall (P : ref * Entry -> Prop) (d : Dict) (k : ref) (v : Entry) :
  Forall P d -> P (k, v) -> Forall P (setitem d k v).
Proof.
  induction 1 as [|[k' v'] d Hkv Hd IH]; simpl; intros Hv.
  - now constructor.
  - destruct (k =? k'); constructor; auto.
Qed.

Lemma set_embedding_rrf_Forall (P : ref * Entry -> Prop) (d : Dict) (k : ref)
  (x : float) :
  Forall P d ->
  (forall k' v, P (k', v) -> P (k', mkEntry (chunk v) (bm25_rrf v) x)) ->
  Forall P (set_embedding_rrf d k x).
Proof.
  induction 1 as [|[k' v'] d Hkv Hd IH]; simpl; intros Hx; [constructor|].
  destruct (k =? k'); constructor; auto.
Qed.

Lemma bm25_loop_ok (items : list (nat * (ref * Q))) (d : Dict) :
  Forall entry_ok d -> Forall entry_ok (fold_left bm25_step items d).
Proof.
  revert d. induction items as [|[r [c q]] items IH]; intros d Hd; simpl;
    [exact Hd|].
  apply IH. apply setitem_Forall; [exact Hd|]. reflexivity.
Qed.

Lemma embedding_loop_ok (items : list (nat * (ref * Q))) (d : Dict) :
  Forall entry_ok d -> Forall entry_ok (fold_left embedding_step items d).
Proof.
  revert d. induction items as [|[r [c q]] items IH]; intros d Hd; simpl;
    [exact Hd|].
  apply IH. destruct (contains d c).
  - apply set_embedding_rrf_Forall; [exact Hd|].
    intros k' v Hc. exact Hc.
  - apply setitem_Forall; [exact Hd|]. reflexivity.
Qed.

Lemma fusion_dict_ok (lex sem : list (ref * Q)) :
  Forall entry_ok (add_embedding (add_bm25 [] lex) sem).
Proof.
  rewrite HybridFacts.add_embedding_fold, HybridFacts.add_bm25_fold.
  apply embedding_loop_ok, bm25_loop_ok. constructor.
Qed.

(** *** The keys of the dictionary *)

Lemma add_keys_length (cs ks : list ref) :
  List.length (add_keys ks cs) <= List.length ks + List.length cs.
Proof.
  unfold add_keys. revert ks. induction cs as [|x cs IH]; intros ks; simpl; [lia|].
  destruct (existsb (Nat.eqb x) ks).
  - specialize (IH ks). lia.
  - specialize (IH (ks ++ [x])). rewrite length_app in IH. simpl in IH. lia.
Qed.

Lemma fusion_keys (lex sem : list (ref * Q)) :
  keys (add_embedding (add_bm25 [] lex) sem)
  = add_keys (add_keys [] (map fst lex)) (map fst sem).
Proof.
  rewrite HybridFacts.add_embedding_fold, HybridFacts.keys_embedding_loop.
  now rewrite HybridFacts.add_bm25_fold, HybridFacts.keys_bm25_loop.
Qed.

Lemma hybrid_results_chunks (alpha : float) (d : Dict) :
  Forall entry_ok d -> map fst (hybrid_results alpha d) = keys d.
Proof.
  unfold hybrid_results, keys. rewrite map_map. simpl.
  induction 1 as [|kv d Hkv Hd IH]; simpl; [reflexivity|].
  unfold entry_ok in Hkv. now rewrite Hkv, IH.
Qed.

Lemma NoDup_firstn (A : Type) (n : nat) (l : list A) :
  NoDup l -> NoDup (firstn n l).
Proof.
  intros H. rewrite <- (firstn_skipn n l) in H.
  now apply NoDup_app_remove_r in H.
Qed.

Lemma NoDup_slice_to (A : Type) (k : Z) (l : list A) :
  NoDup l -> NoDup (slice_to k l).
Proof.
  destruct (PyFacts.slice_to_firstn k l) as [n ->]. apply NoDup_firstn.
Qed.

Lemma fuse_chunks (lex sem : list (ref * Q)) (alpha : float) :
  Permutation
    (add_keys (add_keys [] (map fst lex)) (map fst sem))
    (map fst (sorted_desc snd
                (hybrid_results alpha (add_embedding (add_bm25 [] lex) sem)))).
Proof.
  rewrite <- fusion_keys.
  rewrite <- (@hybrid_results_chunks alpha _ (fusion_dict_ok lex sem)).
  apply Permutation_map, FloatSortFacts.float_sorted_perm.
Qed.

(** For every pair of candidate lists, repeated chunks included, the
    output of the fusion holds each chunk at most once, holds only chunks of
    the two lists, and holds every one of them when [top_k] is at least the
    total length of the lists. *)
Lemma fuse_distinct (lex sem : list (ref * Q)) (alpha : float) (top_k : Z) :
  NoDup (map fst (fuse lex sem alpha top_k)) /\
  (forall c, In c (map fst (fuse lex sem alpha top_k)) ->
             In c (map fst lex) \/ In c (map fst sem)) /\
  ((Z.of_nat (List.length lex + List.length sem) <= top_k)%Z ->
   forall c, In c (map fst lex) \/ In c (map fst sem) ->
             In c (map fst (fuse lex sem alpha top_k))).
Proof.
  pose proof (fuse_chunks lex sem alpha) as Hperm.
  assert (Hin : forall c,
             In c (add_keys (add_keys [] (map fst lex)) (map fst sem))
             <-> In c (map fst lex) \/ In c (map fst sem)).
  { intros c. rewrite !HybridFacts.add_keys_In. simpl. tauto. }
  unfold fuse. rewrite <- PyFacts.slice_to_map. split; [|split].
  - apply NoDup_slice_to. eapply Permutation_NoDup; [exact Hperm|].
    apply HybridFacts.add_keys_keeps_NoDup, HybridFacts.add_keys_keeps_NoDup.
    constructor.
  - intros c Hc. apply BM25Facts.In_slice_to in Hc. apply Hin.
    eapply Permutation_in; [apply Permutation_sym; exact Hperm|exact Hc].
  - intros Hk c Hc. rewrite PyFacts.slice_to_all.
    + eapply Permutation_in; [exact Hperm|]. now apply Hin.
    + rewrite <- (Permutation_length Hperm).
      pose proof (add_keys_length (map fst sem) (add_keys [] (map fst lex))).
      pose proof (add_keys_length (map fst lex) []).
      rewrite !length_map in *. simpl in *. lia.
Qed.

Section WithLibrary.

Variable okapi : Type.
Variable get_scores : okapi -> list string -> list Q.
Variable flat_index : Type.
Variable index_search : flat_index -> string -> Z -> result (list (Z * Q)).

(** Whatever the two retrievers return, repeated chunks included (as with
    the padded rows of the semantic retriever), [HybridRetriever.search]
    returns each chunk at most once and only chunks that one of the two
    candidate lists holds; with [top_k] at least the total length of the
    two lists it returns every candidate. *)
Theorem hybrid_search_distinct (self : HybridRetriever okapi flat_index)
  (query : string) (top_k : Z) (alpha : float) (bm25_k embedding_k : Z)
  (lex sem : list (ref * Q)) :
  BM25.search get_scores (bm25 self) query bm25_k = Ok lex ->
  Embedding.search index_search (embedding self) query embedding_k = Ok sem ->
  exists out,
    search get_scores index_search self query top_k alpha bm25_k embedding_k
    = Ok out /\
    NoDup (map fst out) /\
    (forall c, In c (map fst out) -> In c (map fst lex) \/ In c (map fst sem)) /\
    ((Z.of_nat (List.length lex + List.length sem) <= top_k)%Z ->
     forall c, In c (map fst lex) \/ In c (map fst sem) -> In c (map fst out)).
Proof.
  intros Hl Hs. exists (fuse lex sem alpha top_k).
  split; [now apply HybridFacts.search_is_fuse|]. apply fuse_distinct.
Qed.

End WithLibrary.

Lemma hybrid_search_distinct_witness :
  exists out,
    search Examples.count_scores Examples.flat_search Examples.physics_retriever
           "force mass" 5 0.5%float 20 20
    = Ok out /\
    NoDup (map fst out).
Proof.
  destruct (@hybrid_search_distinct _ Examples.count_scores _ Examples.flat_search
              Examples.physics_retriever "force mass" 5%Z 0.5%float 20%Z 20%Z
              _ _ eq_refl eq_refl)
    as (out & Hs & Hnd & _).
  exists out. split; [exact Hs|exact Hnd].
Defined.

End HybridMore.

(* ================================================================== *)
(** ** Facts about the ingestion pipeline *)
(* ================================================================== *)

Module PipeFacts.

Import Pipe Docs.

Lemma bind_Done_inv (A B : Type) (m : outcome A) (k : A -> outcome B) (b : B) :
  Pipe.bind m k = Done b -> exists a, m = Done a /\ k a = Done b.
Proof.
  destruct m as [a|e]; simpl; intros H; [eauto | discriminate].
Qed.

Lemma bind_Fail_inv (A B : Type) (m : outcome A) (k : A -> outcome B) (e : failure) :
  Pipe.bind m k = Fail e -> m = Fail e \/ exists a, m = Done a /\ k a = Fail e.
Proof.
  destruct m as [a|e']; simpl; intros H; [eauto|].
  left. inversion H; subst. reflexivity.
Qed.

Lemma mapM_Done_map (A B : Type) (f : A -> outcome B) (g : A -> B) (l : list A) :
  (forall x, In x l -> f x = Done (g x)) -> Pipe.mapM f l = Done (map g l).
Proof.
  induction l as [|x l IH]; intros H; simpl; [reflexivity|].
  rewrite H by (simpl; auto). simpl. rewrite IH by (intros; apply H; simpl; auto).
  reflexivity.
Qed.

Lemma mapM_Done_In (A B : Type) (f : A -> outcome B) (l : list A) (l' : list B) :
  Pipe.mapM f l = Done l' ->
  forall y, In y l' -> exists x, In x l /\ f x = Done y.
Proof.
  revert l'. induction l as [|x l IH]; intros l'; simpl.
  - intros H y Hy. inversion H; subst. destruct Hy.
  - intros H y Hy. apply bind_Done_inv in H. destruct H as (b & Hb & H).
    apply bind_Done_inv in H. destruct H as (bs & Hbs & H).
    inversion H; subst. destruct Hy as [<-|Hy]; [eauto|].
    destruct (IH _ Hbs _ Hy) as (x' & Hin & Hx'). eauto.
Qed.

Lemma mapM_Fail_Exists (A B : Type) (f : A -> outcome B) (l : list A) (e : failure) :
  Pipe.mapM f l = Fail e -> Exists (fun x => f x = Fail e) l.
Proof.
  induction l as [|x l IH]; simpl; [discriminate|].
  intros H. apply bind_Fail_inv in H. destruct H as [H|(b & Hb & H)]; [auto|].
  apply bind_Fail_inv in H. destruct H as [H|(bs & _ & H)]; [auto|discriminate].
Qed.

Lemma get_set (V : Type) (d : StrDict V) (k : string) (v : V) (name : string) :
  get (set d k v) name = if String.eqb name k then Some v else get d name.
Proof.
  induction d as [|[k' v'] d IH]; simpl; [reflexivity|].
  destruct (String.eqb_spec k k') as [->|Hk]; simpl.
  - destruct (String.eqb name k'); reflexivity.
  - destruct (String.eqb_spec name k') as [->|Hn].
    + destruct (String.eqb_spec k' k); [congruence|reflexivity].
    + exact IH.
Qed.

End PipeFacts.

(* ================================================================== *)
(** ** Facts about [src/core/pdf_extractor.py] *)
(* ================================================================== *)

Module PdfExtractorFacts.

Import Pipe Docs PyStr PdfExtractor PipeShapes.

Lemma process_lines_head (lines : list string) (x : string) (rest : list string) :
  process_lines lines = x :: rest -> truthy x = true.
Proof.
  induction lines as [|line lines IH]; simpl; [discriminate|].
  destruct (truthy (strip line)) eqn:E; simpl; [|exact IH].
  intros H. inversion H; subst. exact E.
Qed.

Lemma process_lines_kept (lines : list string) :
  filter truthy (process_lines lines) = filter truthy (map strip lines).
Proof.
  induction lines as [|line lines IH]; simpl; [reflexivity|].
  destruct (truthy (strip line)) eqn:E; simpl; [|exact IH].
  rewrite E. f_equal. rewrite filter_app, IH.
  match goal with |- context [if ?b then _ else _] => destruct b end; reflexivity.
Qed.

Lemma process_lines_separated (lines : list string) :
  separated (process_lines lines).
Proof.
  induction lines as [|line lines IH]; simpl; [exact I|].
  destruct (truthy (strip line)) eqn:E; simpl; [|exact IH].
  split; [exact E|].
  destruct lines as [|next lines']; [simpl; exact I|].
  destruct (ends_sentence (strip line) && truthy (strip next)
            && starts_upper (strip next)) eqn:Epar.
  - cbn [app]. split; [|exact IH].
    apply andb_prop in Epar. destruct Epar as [Epar _].
    apply andb_prop in Epar. destruct Epar as [_ Enext].
    simpl. rewrite Enext. simpl. discriminate.
  - cbn [app]. destruct (process_lines (next :: lines')) as [|x r] eqn:Ep;
      [exact I|].
    pose proof (process_lines_head _ Ep) as Hx.
    destruct x; [discriminate|]. exact IH.
Qed.

(** The line loop of [extract_text_from_pdf] keeps every non-blank line of
    the page, trimmed and in order, drops the blank ones, and adds nothing
    but empty entries; an empty entry stands only between two kept lines,
    and never next to another one. *)
Theorem process_lines_paragraphs (lines : list string) :
  filter truthy (process_lines lines) = filter truthy (map strip lines) /\
  separated (process_lines lines).
Proof.
  split; [apply process_lines_kept | apply process_lines_separated].
Qed.

Lemma pages_text_length (pages : list (option string)) :
  List.length (pages_text pages) = List.length (filter has_text pages).
Proof.
  induction pages as [|[t|] pages IH]; simpl; [reflexivity| |exact IH].
  destruct (truthy t); simpl; [f_equal|]; exact IH.
Qed.

Section WithFiles.

Variable path_exists : string -> bool.
Variable path_name : string -> string.
Variable open_pages : string -> outcome (list (option string)).

Local Abbreviation extract_text_from_pdf :=
  (extract_text_from_pdf path_exists path_name open_pages).
Local Abbreviation extract_from_multiple_pdfs :=
  (extract_from_multiple_pdfs path_exists path_name open_pages).

Lemma extract_Done (pdf_path : string) (doc : Document) :
  extract_text_from_pdf pdf_path = Done doc ->
  exists pages,
    path_exists pdf_path = true /\
    open_pages pdf_path = Done pages /\
    doc = mkDocument (Some (path_name pdf_path))
                     (Some (List.length (pages_text pages)))
                     (Some (String.concat Chunker.paragraph_break (pages_text pages)))
                     (Some (pages_text pages))
                     None.
Proof.
  unfold PdfExtractor.extract_text_from_pdf.
  destruct (path_exists pdf_path); simpl; [|discriminate].
  destruct (open_pages pdf_path) as [pages|e]; simpl; [|discriminate].
  intros H. inversion H; subst. eauto.
Qed.

(** When [extract_text_from_pdf] returns, the file exists, [filename] is the
    last component of the path, there is no [metadata] key, [pages] holds
    one text per page that had text, [text] joins them with a blank line,
    and [num_pages] is the number of those pages, which can be less than the
    number of pages of the file. *)
Theorem extract_text_counts_text_pages (pdf_path : string) (doc : Document) :
  extract_text_from_pdf pdf_path = Done doc ->
  path_exists pdf_path = true /\
  doc_filename doc = Some (path_name pdf_path) /\
  doc_metadata doc = None /\
  exists pages texts,
    open_pages pdf_path = Done pages /\
    doc_pages doc = Some texts /\
    doc_text doc = Some (String.concat Chunker.paragraph_break texts) /\
    doc_num_pages doc = Some (List.length texts) /\
    List.length texts = List.length (filter has_text pages) /\
    List.length texts <= List.length pages.
Proof.
  intros H. apply extract_Done in H. destruct H as (pages & Hex & Hop & ->).
  simpl. repeat split; try assumption.
  exists pages, (pages_text pages). repeat split; try assumption.
  - apply pages_text_length.
  - rewrite pages_text_length. apply filter_length_le.
Qed.

Lemma extract_multiple_from (pdf_paths : list string) (acc : list Document) :
  fold_left
    (fun results pdf_path =>
       match extract_text_from_pdf pdf_path with
       | Done result => results ++ [result]
       | Fail _ => results
       end)
    pdf_paths acc
  = acc ++ flat_map (fun pdf_path =>
                       match extract_text_from_pdf pdf_path with
                       | Done result => [result]
                       | Fail _ => []
                       end) pdf_paths.
Proof.
  revert acc. induction pdf_paths as [|p paths IH]; intros acc; simpl.
  - rewrite app_nil_r. reflexivity.
  - rewrite IH. destruct (extract_text_from_pdf p); simpl.
    + rewrite <- app_assoc. reflexivity.
    + reflexivity.
Qed.

Lemma extract_multiple_flat_map (pdf_paths : list string) :
  extract_from_multiple_pdfs pdf_paths
  = flat_map (fun pdf_path =>
                match extract_text_from_pdf pdf_path with
                | Done result => [result]
                | Fail _ => []
                end) pdf_paths.
Proof.
  unfold PdfExtractor.extract_from_multiple_pdfs. rewrite extract_multiple_from.
  reflexivity.
Qed.

Lemma extract_multiple_In (pdf_paths : list string) (doc : Document) :
  In doc (extract_from_multiple_pdfs pdf_paths) ->
  exists pdf_path, In pdf_path pdf_paths /\ extract_text_from_pdf pdf_path = Done doc.
Proof.
  rewrite extract_multiple_flat_map, in_flat_map.
  intros (p & Hp & Hin). exists p. split; [exact Hp|].
  destruct (extract_text_from_pdf p); simpl in Hin; [|destruct Hin].
  destruct Hin as [->|[]]. reflexivity.
Qed.

(** [extract_from_multiple_pdfs] never raises: it returns the documents of
    exactly the paths whose extraction succeeds, one per such path and in
    the order of the paths; the other paths are skipped. *)
Theorem extract_multiple_skips_failures (pdf_paths : list string) :
  Forall2 (fun pdf_path doc => extract_text_from_pdf pdf_path = Done doc)
          (filter (fun pdf_path => succeeds (extract_text_from_pdf pdf_path))
                  pdf_paths)
          (extract_from_multiple_pdfs pdf_paths).
Proof.
  rewrite extract_multiple_flat_map.
  induction pdf_paths as [|p paths IH]; simpl; [constructor|].
  destruct (extract_text_from_pdf p) as [doc|e] eqn:E; simpl.
  - constructor; assumption.
  - exact IH.
Qed.

End WithFiles.

Lemma extract_text_counts_text_pages_witness :
  exists doc,
    PdfExtractor.extract_text_from_pdf
      Shelf.path_exists Shelf.path_name Shelf.open_pages "docs/physics.pdf"
    = Done doc /\
    doc_filename doc = Some "physics.pdf" /\
    doc_num_pages doc = Some 1.
Proof.
  eexists. split; [reflexivity|].
  destruct (@extract_text_counts_text_pages
              Shelf.path_exists Shelf.path_name Shelf.open_pages
              "docs/physics.pdf" _ eq_refl)
    as (_ & Hname & _).
  split; [exact Hname | reflexivity].
Defined.

End PdfExtractorFacts.

(* ================================================================== *)
(** ** Facts about [src/core/csv_loader.py] *)
(* ================================================================== *)

Module CsvLoaderFacts.

Import Pipe Docs CsvLoader PipeShapes.

Local Abbreviation lookup_step :=
  (fun (acc : outcome (StrDict Metadata)) (item : Metadata) =>
     Pipe.bind acc (fun d =>
     Pipe.bind (subscript "filename" (get item "filename")) (fun key =>
     Done (set d key item)))).

Lemma lookup_Fail (metadata : list Metadata) (e : failure) :
  fold_left lookup_step metadata (Fail e) = Fail e.
Proof.
  induction metadata as [|item rest IH]; simpl; [reflexivity | exact IH].
Qed.

Lemma lookup_from (metadata : list Metadata) (d0 d : StrDict Metadata)
  (name : string) :
  fold_left lookup_step metadata (Done d0) = Done d ->
  get d name = match last_row metadata name with
               | Some row => Some row
               | None => get d0 name
               end.
Proof.
  revert d0. induction metadata as [|item rest IH]; intros d0; simpl.
  - intros H. inversion H; subst. reflexivity.
  - destruct (get item "filename") as [k|] eqn:Ek; simpl.
    + intros H. rewrite (IH _ H).
      destruct (last_row rest name); [reflexivity|].
      rewrite PipeFacts.get_set. destruct (String.eqb name k); reflexivity.
    + rewrite lookup_Fail. discriminate.
Qed.

Lemma lookup_total (metadata : list Metadata) (d0 : StrDict Metadata) :
  Forall (fun item => get item "filename" <> None) metadata ->
  exists d, fold_left lookup_step metadata (Done d0) = Done d.
Proof.
  revert d0. induction metadata as [|item rest IH]; intros d0 H; simpl; [eauto|].
  inversion H as [|? ? Hitem Hrest]; subst.
  destruct (get item "filename") as [k|]; [|congruence]. simpl.
  apply IH. exact Hrest.
Qed.

Lemma lookup_failure (metadata : list Metadata) (d0 : StrDict Metadata)
  (e : failure) :
  fold_left lookup_step metadata (Done d0) = Fail e ->
  e = KeyError "filename" /\
  Exists (fun item => get item "filename" = None) metadata.
Proof.
  revert d0. induction metadata as [|item rest IH]; intros d0; simpl;
    [discriminate|].
  destruct (get item "filename") as [k|] eqn:Ek; simpl.
  - intros H. destruct (IH _ H) as [He Hex]. auto.
  - rewrite lookup_Fail. intros H. inversion H; subst. auto.
Qed.

Lemma metadata_lookup_total (metadata : list Metadata) :
  Forall (fun item => get item "filename" <> None) metadata ->
  exists d, metadata_lookup metadata = Done d.
Proof.
  intros H. unfold metadata_lookup. exact (lookup_total [] H).
Qed.

Lemma metadata_lookup_get (metadata : list Metadata) (d : StrDict Metadata)
  (name : string) :
  metadata_lookup metadata = Done d -> get d name = last_row metadata name.
Proof.
  unfold metadata_lookup. intros H.
  rewrite (@lookup_from metadata [] d name H). simpl.
  destruct (last_row metadata name); reflexivity.
Qed.

Lemma metadata_lookup_failure (metadata : list Metadata) (e : failure) :
  metadata_lookup metadata = Fail e ->
  e = KeyError "filename" /\
  Exists (fun item => get item "filename" = None) metadata.
Proof.
  unfold metadata_lookup. intros H. exact (@lookup_failure metadata [] e H).
Qed.

(** When every metadata row and every document has a [filename],
    [match_metadata_to_documents] returns the documents in their order,
    each with its [metadata] set to the last row of the file that carries
    the document's filename, or to the empty dictionary when no row does;
    nothing else of a document changes. *)
Theorem match_metadata_last_row (documents : list Document)
  (metadata : list Metadata) :
  Forall (fun item => get item "filename" <> None) metadata ->
  Forall (fun doc => doc_filename doc <> None) documents ->
  match_metadata_to_documents documents metadata
  = Done (map (matched metadata) documents).
Proof.
  intros Hrows Hdocs. unfold match_metadata_to_documents.
  destruct (metadata_lookup_total Hrows) as [d Hd]. rewrite Hd. simpl.
  apply PipeFacts.mapM_Done_map. intros doc Hin.
  rewrite Forall_forall in Hdocs. specialize (Hdocs _ Hin).
  unfold matched. destruct (doc_filename doc) as [name|]; [|congruence].
  simpl. rewrite (@metadata_lookup_get metadata d name Hd).
  destruct (last_row metadata name); reflexivity.
Qed.

Lemma match_metadata_failure (documents : list Document)
  (metadata : list Metadata) (e : failure) :
  match_metadata_to_documents documents metadata = Fail e ->
  e = KeyError "filename" /\
  (Exists (fun item => get item "filename" = None) metadata \/
   Exists (fun doc => doc_filename doc = None) documents).
Proof.
  unfold match_metadata_to_documents. intros H.
  apply PipeFacts.bind_Fail_inv in H. destruct H as [H|(d & Hd & H)].
  - apply metadata_lookup_failure in H. destruct H as [-> Hex]. auto.
  - apply PipeFacts.mapM_Fail_Exists in H.
    rewrite Exists_exists in H. destruct H as (doc & Hin & Hdoc).
    destruct (doc_filename doc) as [name|] eqn:Ename; simpl in Hdoc.
    + destruct (get d name); discriminate.
    + inversion Hdoc; subst. split; [reflexivity|]. right.
      rewrite Exists_exists. eauto.
Qed.

(** [match_metadata_to_documents] raises nothing but [KeyError] for the key
    [filename], and only when a metadata row or a document lacks that
    key. *)
Theorem match_metadata_key_error (documents : list Document)
  (metadata : list Metadata) (e : failure) :
  match_metadata_to_documents documents metadata = Fail e ->
  e = KeyError "filename" /\
  (Exists (fun item => get item "filename" = None) metadata \/
   Exists (fun doc => doc_filename doc = None) documents).
Proof.
  apply match_metadata_failure.
Qed.

Lemma last_row_filename (metadata : list Metadata) (name : string)
  (row : Metadata) :
  last_row metadata name = Some row -> get row "filename" = Some name.
Proof.
  induction metadata as [|item rest IH]; simpl; [discriminate|].
  destruct (last_row rest name) as [r|].
  - intros H. inversion H; subst. apply IH. reflexivity.
  - destruct (get item "filename") as [k|] eqn:Ek; [|discriminate].
    destruct (String.eqb_spec name k) as [->|]; [|discriminate].
    intros H. inversion H; subst. exact Ek.
Qed.

Lemma match_metadata_In (documents : list Document) (metadata : list Metadata)
  (documents' : list Document) (doc' : Document) :
  match_metadata_to_documents documents metadata = Done documents' ->
  In doc' documents' ->
  exists doc row,
    In doc documents /\ doc' = with_metadata doc row /\
    (row = [] \/ get row "filename" = doc_filename doc).
Proof.
  unfold match_metadata_to_documents. intros H Hin.
  apply PipeFacts.bind_Done_inv in H. destruct H as (d & Hd & H).
  destruct (PipeFacts.mapM_Done_In _ _ H _ Hin) as (doc & Hdoc & Hf).
  exists doc. destruct (doc_filename doc) as [name|]; simpl in Hf; [|discriminate].
  destruct (get d name) as [row|] eqn:Eg; inversion Hf; subst.
  - exists row. repeat split; [exact Hdoc|]. right.
    rewrite (@metadata_lookup_get metadata d name Hd) in Eg.
    apply last_row_filename in Eg. exact Eg.
  - exists []. auto.
Qed.

Lemma last_row_In (metadata : list Metadata) (name : string) (row : Metadata) :
  last_row metadata name = Some row -> In row metadata.
Proof.
  induction metadata as [|item rest IH]; simpl; [discriminate|].
  destruct (last_row rest name) as [r|].
  - intros H. inversion H; subst. right. apply IH. reflexivity.
  - destruct (get item "filename") as [k|]; [|discriminate].
    destruct (String.eqb name k); [|discriminate].
    intros H. inversion H; subst. now left.
Qed.

Lemma match_metadata_row (documents : list Document) (metadata : list Metadata)
  (documents' : list Document) (doc' : Document) :
  match_metadata_to_documents documents metadata = Done documents' ->
  In doc' documents' ->
  exists doc row,
    In doc documents /\ doc' = with_metadata doc row /\
    (row = [] \/ (In row metadata /\ get row "filename" = doc_filename doc)).
Proof.
  unfold match_metadata_to_documents. intros H Hin.
  apply PipeFacts.bind_Done_inv in H. destruct H as (d & Hd & H).
  destruct (PipeFacts.mapM_Done_In _ _ H _ Hin) as (doc & Hdoc & Hf).
  exists doc. destruct (doc_filename doc) as [name|]; simpl in Hf; [|discriminate].
  destruct (get d name) as [row|] eqn:Eg; inversion Hf; subst.
  - exists row. repeat split; [exact Hdoc|]. right.
    rewrite (@metadata_lookup_get metadata d name Hd) in Eg.
    split; [eapply last_row_In; exact Eg|].
    apply last_row_filename in Eg. exact Eg.
  - exists []. auto.
Qed.

Lemma match_metadata_last_row_witness :
  match_metadata_to_documents
    [mkDocument (Some "physics.pdf") (Some 1) (Some "Force.") (Some ["Force."]) None;
     mkDocument (Some "poetry.pdf") (Some 1) (Some "Verse.") (Some ["Verse."]) None]
    [[("filename", "physics.pdf"); ("subject", "Maths")];
     [("filename", "physics.pdf"); ("subject", "Physics")]]
  = Done
    [mkDocument (Some "physics.pdf") (Some 1) (Some "Force.") (Some ["Force."])
                (Some [("filename", "physics.pdf"); ("subject", "Physics")]);
     mkDocument (Some "poetry.pdf") (Some 1) (Some "Verse.") (Some ["Verse."])
                (Some [])].
Proof.
  refine (@match_metadata_last_row _ _ _ _).
  - repeat constructor; discriminate.
  - repeat constructor; discriminate.
Defined.

Lemma match_metadata_key_error_witness :
  match_metadata_to_documents
    [mkDocument (Some "physics.pdf") (Some 1) (Some "Force.") (Some ["Force."]) None]
    [[("subject", "Physics")]]
  = Fail (KeyError "filename") /\
  (Exists (fun item => get item "filename" = None) [[("subject", "Physics")]] \/
   Exists (fun doc => doc_filename doc = None)
     [mkDocument (Some "physics.pdf") (Some 1) (Some "Force.") (Some ["Force."]) None]).
Proof.
  split; [reflexivity|].
  exact (proj2 (@match_metadata_key_error
    [mkDocument (Some "physics.pdf") (Some 1) (Some "Force.") (Some ["Force."]) None]
    [[("subject", "Physics")]] (KeyError "filename") eq_refl)).
Defined.

End CsvLoaderFacts.

(* ================================================================== *)
(** ** Facts about [chunk_document] and [src/core/ingestion.py] *)
(* ================================================================== *)

Module IngestionFacts.

Import Pipe Docs PyStr PipeShapes Ingestion.

Section WithFiles.

Variable encode : string -> result nat.
Variable path_exists : string -> bool.
Variable path_name : string -> string.
Variable open_pages : string -> outcome (list (option string)).
Variable read_rows : string -> outcome (list Metadata).
Variable glob_pdf : string -> list string.

Local Abbreviation chunk_document := (chunk_document encode).
Local Abbreviation extract_text_from_pdf :=
  (PdfExtractor.extract_text_from_pdf path_exists path_name open_pages).
Local Abbreviation extract_from_multiple_pdfs :=
  (PdfExtractor.extract_from_multiple_pdfs path_exists path_name open_pages).
Local Abbreviation load_csv_metadata :=
  (CsvLoader.load_csv_metadata path_exists read_rows).
Local Abbreviation ingest_documents :=
  (ingest_documents encode path_exists path_name open_pages read_rows glob_pdf).
Local Abbreviation ingest_single_pdf :=
  (ingest_single_pdf encode path_exists path_name open_pages).

(** What the tokenizer raised, as the failure that leaves the pipeline. *)
Local Abbreviation from_tokenizer e :=
  (exists s e', encode s = Raise e' /\ e = Builtin e').

(** *** [chunk_document] *)

Lemma chunk_text_texts (size : Z) (input : string) (chunks : list Chunker.Chunk) :
  Chunker.chunk_text encode size input = Ok chunks ->
  Forall (fun c => truthy (strip (Chunker.text c)) = true) chunks.
Proof.
  apply ChunkerFacts.chunk_text_with_nonempty.
Qed.

Lemma chunk_text_error (size : Z) (input : string) (e : exn) :
  Chunker.chunk_text encode size input = Raise e ->
  (e = ValueError /\ size = 0%Z) \/ exists s, encode s = Raise e.
Proof.
  apply ChunkerMore.chunk_text_with_error.
Qed.

Lemma chunk_document_Done (doc : Document) (size : Z) (chunks : list DocChunk) :
  chunk_document doc size = Done chunks ->
  Forall (fun c =>
            truthy (strip (Chunker.text (base c))) = true /\
            filename c = get_default (doc_filename doc) "unknown" /\
            metadata c = get_default (doc_metadata doc) [])
         chunks.
Proof.
  unfold Docs.chunk_document. intros H.
  apply PipeFacts.bind_Done_inv in H. destruct H as (input & _ & H).
  apply PipeFacts.bind_Done_inv in H. destruct H as (cs & Hcs & H).
  inversion H; subst.
  destruct (Chunker.chunk_text encode size input) as [cs'|e] eqn:E;
    simpl in Hcs; [|discriminate].
  inversion Hcs; subst. apply chunk_text_texts in E.
  rewrite Forall_map. eapply Forall_impl; [|exact E]. simpl. auto.
Qed.

Lemma chunk_document_Fail (doc : Document) (size : Z) (e : failure) :
  chunk_document doc size = Fail e ->
  (doc_text doc = None /\ e = KeyError "text") \/
  (size = 0%Z /\ e = Builtin ValueError) \/
  from_tokenizer e.
Proof.
  unfold Docs.chunk_document.
  destruct (doc_text doc) as [input|]; simpl.
  - destruct (Chunker.chunk_text encode size input) as [cs|e'] eqn:E; simpl;
      [discriminate|].
    intros H. inversion H; subst. apply chunk_text_error in E.
    destruct E as [[-> ->]|[s Hs]]; [auto|]. right. right. eauto.
  - intros H. inversion H; subst. auto.
Qed.


(** *** The loop over the documents *)

Local Abbreviation chunk_step self :=
  (fun (acc : outcome (list DocChunk)) (doc : Document) =>
     Pipe.bind acc (fun all_chunks =>
     Pipe.bind (chunk_document doc (chunk_size self)) (fun chunks =>
     Done (all_chunks ++ chunks)))).

Lemma chunk_fold_Fail (self : IngestionPipeline) (documents : list Document)
  (e : failure) :
  fold_left (chunk_step self) documents (Fail e) = Fail e.
Proof.
  induction documents as [|doc rest IH]; simpl; [reflexivity | exact IH].
Qed.

Lemma chunk_fold_Forall (P : DocChunk -> Prop) (self : IngestionPipeline)
  (documents : list Document) :
  (forall doc cs, In doc documents ->
     chunk_document doc (chunk_size self) = Done cs -> Forall P cs) ->
  forall acc chunks, Forall P acc ->
    fold_left (chunk_step self) documents (Done acc) = Done chunks ->
    Forall P chunks.
Proof.
  induction documents as [|doc rest IH]; intros HP acc chunks Hacc; simpl.
  - intros H. inversion H; subst. exact Hacc.
  - destruct (chunk_document doc (chunk_size self)) as [cs|e] eqn:E; simpl.
    + apply IH; [intros; eapply HP; simpl; eauto|].
      apply Forall_app. split; [exact Hacc|]. eapply HP; simpl; eauto.
    + rewrite chunk_fold_Fail. discriminate.
Qed.

Lemma chunk_fold_failure (self : IngestionPipeline) (documents : list Document)
  (acc : list DocChunk) (e : failure) :
  fold_left (chunk_step self) documents (Done acc) = Fail e ->
  exists doc, In doc documents /\ chunk_document doc (chunk_size self) = Fail e.
Proof.
  revert acc. induction documents as [|doc rest IH]; intros acc; simpl;
    [discriminate|].
  destruct (chunk_document doc (chunk_size self)) as [cs|e'] eqn:E; simpl.
  - intros H. destruct (IH _ H) as (d & Hd & Hf). eauto.
  - rewrite chunk_fold_Fail. intros H. inversion H; subst. eauto.
Qed.

Lemma load_rows_from (rows acc : list Metadata) :
  fold_left (fun acc row => acc ++ [row]) rows acc = acc ++ rows.
Proof.
  revert acc. induction rows as [|row rows IH]; intros acc; simpl.
  - rewrite app_nil_r. reflexivity.
  - rewrite IH, <- app_assoc. reflexivity.
Qed.

Lemma load_csv_Done (csv_path : string) (metadata : list Metadata) :
  load_csv_metadata csv_path = Done metadata ->
  path_exists csv_path = true /\ read_rows csv_path = Done metadata.
Proof.
  unfold CsvLoader.load_csv_metadata.
  destruct (path_exists csv_path); simpl; [|discriminate].
  destruct (read_rows csv_path) as [rows|e]; simpl; [|discriminate].
  rewrite load_rows_from. simpl. intros H. inversion H; subst. auto.
Qed.

Lemma load_csv_Fail (csv_path : string) (e : failure) :
  load_csv_metadata csv_path = Fail e ->
  (path_exists csv_path = false /\ e = FileNotFoundError csv_path) \/
  read_rows csv_path = Fail e.
Proof.
  unfold CsvLoader.load_csv_metadata.
  destruct (path_exists csv_path); simpl.
  - destruct (read_rows csv_path) as [rows|e']; simpl; [discriminate|].
    intros H. inversion H; subst. auto.
  - intros H. inversion H; subst. auto.
Qed.

(** *** The documents that reach the chunking loop *)

Local Abbreviation documents_for pdf_paths csv_path :=
  (match csv_path with
   | Some path =>
       if truthy path then
         Pipe.bind (load_csv_metadata path) (fun metadata =>
         CsvLoader.match_metadata_to_documents
           (extract_from_multiple_pdfs pdf_paths) metadata)
       else Done (extract_from_multiple_pdfs pdf_paths)
   | None => Done (extract_from_multiple_pdfs pdf_paths)
   end).

Local Abbreviation from_paths pdf_paths csv_path :=
  (fun doc : Document =>
     exists pdf_path,
       In pdf_path pdf_paths /\
       succeeds (extract_text_from_pdf pdf_path) = true /\
       doc_filename doc = Some (path_name pdf_path) /\
       doc_text doc <> None /\
       (get_default (doc_metadata doc) [] = [] \/
        exists path rows,
          csv_path = Some path /\ read_rows path = Done rows /\
          In (get_default (doc_metadata doc) []) rows /\
          get (get_default (doc_metadata doc) []) "filename"
          = doc_filename doc)).

Lemma extracted_from_paths (pdf_paths : list string)
  (csv_path : option string) (doc : Document) :
  In doc (extract_from_multiple_pdfs pdf_paths) ->
  from_paths pdf_paths csv_path doc.
Proof.
  intros Hin. apply PdfExtractorFacts.extract_multiple_In in Hin.
  destruct Hin as (p & Hp & Hdoc). exists p.
  pose proof Hdoc as Hd. apply PdfExtractorFacts.extract_Done in Hd.
  destruct Hd as (pages & _ & _ & ->). rewrite Hdoc. simpl.
  repeat split; auto. discriminate.
Qed.

Lemma documents_from_paths (pdf_paths : list string) (csv_path : option string)
  (documents : list Document) :
  documents_for pdf_paths csv_path = Done documents ->
  forall doc, In doc documents -> from_paths pdf_paths csv_path doc.
Proof.
  assert (Hplain : Done (extract_from_multiple_pdfs pdf_paths) = Done documents ->
                   forall doc, In doc documents ->
                     from_paths pdf_paths csv_path doc).
  { intros H doc Hin. inversion H; subst. apply extracted_from_paths. exact Hin. }
  destruct csv_path as [path|]; [|exact Hplain].
  destruct (truthy path); [|exact Hplain].
  intros H doc' Hin. apply PipeFacts.bind_Done_inv in H.
  destruct H as (rows & Hrows & H).
  apply load_csv_Done in Hrows. destruct Hrows as [_ Hrows].
  destruct (@CsvLoaderFacts.match_metadata_row _ _ _ _ H Hin)
    as (doc & row & Hdoc & -> & Hrow).
  apply (@extracted_from_paths pdf_paths (Some path)) in Hdoc.
  destruct Hdoc as (p & Hp & Hs & Hname & Htext & _).
  exists p. simpl. repeat split; auto.
  destruct Hrow as [->|[Hin' Hget]]; [now left|].
  right. exists path, rows. auto.
Qed.

Lemma documents_failure (pdf_paths : list string) (csv_path : option string)
  (e : failure) :
  documents_for pdf_paths csv_path = Fail e ->
  exists path,
    csv_path = Some path /\ truthy path = true /\
    ((path_exists path = false /\ e = FileNotFoundError path) \/
     read_rows path = Fail e \/
     (e = KeyError "filename" /\
      exists rows, read_rows path = Done rows /\
                   Exists (fun item => get item "filename" = None) rows)).
Proof.
  destruct csv_path as [path|]; [|discriminate].
  destruct (truthy path) eqn:Et; [|discriminate].
  intros H. exists path. split; [reflexivity|]. split; [exact Et|].
  apply PipeFacts.bind_Fail_inv in H. destruct H as [H|(rows & Hrows & H)].
  - apply load_csv_Fail in H. tauto.
  - apply load_csv_Done in Hrows. destruct Hrows as [_ Hrows].
    apply CsvLoaderFacts.match_metadata_failure in H.
    destruct H as [-> [Hex|Hex]]; [right; right; eauto|].
    rewrite Exists_exists in Hex. destruct Hex as (doc & Hin & Hnone).
    apply (@extracted_from_paths pdf_paths (Some path)) in Hin.
    destruct Hin as (p & _ & _ & Hname & _). congruence.
Qed.

Lemma extract_multiple_none (pdf_paths : list string) :
  Forall (fun pdf_path => succeeds (extract_text_from_pdf pdf_path) = false)
         pdf_paths ->
  extract_from_multiple_pdfs pdf_paths = [].
Proof.
  intros Hall. rewrite PdfExtractorFacts.extract_multiple_flat_map.
  induction Hall as [|p ps Hp _ IH]; simpl; [reflexivity|].
  destruct (extract_text_from_pdf p); [discriminate Hp | exact IH].
Qed.

(** *** [IngestionPipeline.ingest_documents] *)

Lemma ingest_documents_unfold (self : IngestionPipeline) (pdf_dir : string)
  (csv_path : option string) :
  glob_pdf pdf_dir <> [] ->
  ingest_documents self pdf_dir csv_path
  = Pipe.bind (documents_for (glob_pdf pdf_dir) csv_path)
      (fun documents => fold_left (chunk_step self) documents (Done [])).
Proof.
  unfold Ingestion.ingest_documents, chunk_all.
  destruct (glob_pdf pdf_dir); [congruence | reflexivity].
Qed.

Lemma ingest_documents_found (self : IngestionPipeline) (pdf_dir : string)
  (csv_path : option string) (chunks : list DocChunk) :
  ingest_documents self pdf_dir csv_path = Done chunks ->
  glob_pdf pdf_dir <> [].
Proof.
  unfold Ingestion.ingest_documents.
  destruct (glob_pdf pdf_dir); [discriminate | discriminate].
Qed.

(** Every chunk that [ingest_documents] returns has a non-blank text and
    the file name of one of the PDFs found in the directory, one whose
    extraction succeeded; its metadata is either empty or one of the rows
    read from the metadata file that was given, a row whose [filename] cell
    is the chunk's file name; and it is empty when no metadata file is
    given. *)
Theorem ingest_documents_chunks (self : IngestionPipeline) (pdf_dir : string)
  (csv_path : option string) (chunks : list DocChunk) :
  ingest_documents self pdf_dir csv_path = Done chunks ->
  Forall (fun c =>
            truthy (strip (Chunker.text (base c))) = true /\
            (exists pdf_path,
               In pdf_path (glob_pdf pdf_dir) /\
               succeeds (extract_text_from_pdf pdf_path) = true /\
               filename c = path_name pdf_path) /\
            (metadata c = [] \/
             exists path rows,
               csv_path = Some path /\ read_rows path = Done rows /\
               In (metadata c) rows /\
               get (metadata c) "filename" = Some (filename c)) /\
            (csv_path = None -> metadata c = []))
         chunks.
Proof.
  intros H. pose proof (@ingest_documents_found self pdf_dir csv_path chunks H) as Hglob.
  rewrite (@ingest_documents_unfold self pdf_dir csv_path Hglob) in H.
  apply PipeFacts.bind_Done_inv in H. destruct H as (documents & Hdocs & H).
  refine (@chunk_fold_Forall _ self documents _ [] chunks (Forall_nil _) H).
  intros doc cs Hin Hcs.
  pose proof (@documents_from_paths _ _ _ Hdocs doc Hin)
    as (p & Hp & Hs & Hname & _ & Hmeta).
  apply chunk_document_Done in Hcs.
  eapply Forall_impl; [|exact Hcs]. simpl.
  intros c (Htext & Hfile & Hm). rewrite Hname in Hfile. simpl in Hfile.
  split; [exact Htext|]. split; [eauto|]. split.
  - rewrite Hm, Hfile. rewrite Hname in Hmeta. exact Hmeta.
  - intros ->. simpl in Hdocs. inversion Hdocs; subst.
    apply PdfExtractorFacts.extract_multiple_In in Hin.
    destruct Hin as (q & _ & Hq). apply PdfExtractorFacts.extract_Done in Hq.
    destruct Hq as (pages & _ & _ & ->). rewrite Hm. reflexivity.
Qed.


(** When the directory holds PDFs but none of them can be read,
    [ingest_documents] without a metadata file raises nothing: it returns
    the empty list, whatever the budget. *)
Theorem ingest_documents_nothing_readable (self : IngestionPipeline)
  (pdf_dir : string) :
  glob_pdf pdf_dir <> [] ->
  Forall (fun pdf_path => succeeds (extract_text_from_pdf pdf_path) = false)
         (glob_pdf pdf_dir) ->
  ingest_documents self pdf_dir None = Done [].
Proof.
  intros Hglob Hall.
  rewrite (@ingest_documents_unfold self pdf_dir None Hglob). simpl.
  rewrite (extract_multiple_none Hall). reflexivity.
Qed.

(** *** [IngestionPipeline.ingest_single_pdf] *)

(** Every chunk that [ingest_single_pdf] returns has a non-blank text, the
    last component of the given path as its file name, and the metadata
    that was passed in, or the empty dictionary when none was. *)
Theorem ingest_single_pdf_chunks (self : IngestionPipeline) (pdf_path : string)
  (given : option Metadata) (chunks : list DocChunk) :
  ingest_single_pdf self pdf_path given = Done chunks ->
  Forall (fun c =>
            truthy (strip (Chunker.text (base c))) = true /\
            filename c = path_name pdf_path /\
            metadata c = get_default given [])
         chunks.
Proof.
  unfold Ingestion.ingest_single_pdf. intros H.
  apply PipeFacts.bind_Done_inv in H. destruct H as (doc & Hdoc & H).
  apply PdfExtractorFacts.extract_Done in Hdoc.
  destruct Hdoc as (pages & _ & _ & ->).
  apply chunk_document_Done in H. eapply Forall_impl; [|exact H].
  intros c (Ht & Hf & Hm). split; [exact Ht|].
  destruct given as [[|item items]|]; simpl in *; auto.
Qed.

End WithFiles.

Local Abbreviation shelf_ingest :=
  (Ingestion.ingest_documents Examples.chars Shelf.path_exists Shelf.path_name
     Shelf.open_pages Shelf.read_rows Shelf.glob_pdf
     (mkIngestionPipeline 512)).

Local Abbreviation guarded_chars :=
  (Examples.guarded Examples.endoftext String.length).


Lemma ingest_documents_chunks_witness :
  exists chunks,
    shelf_ingest "docs" (Some "docs/meta.csv") = Done chunks /\
    chunks <> [] /\
    Forall (fun c =>
              metadata c = [] \/
              exists path rows,
                Some "docs/meta.csv" = Some path /\
                Shelf.read_rows path = Done rows /\
                In (metadata c) rows /\
                get (metadata c) "filename" = Some (filename c)) chunks.
Proof.
  eexists. split; [reflexivity|]. split; [discriminate|].
  eapply Forall_impl;
    [|exact (@ingest_documents_chunks Examples.chars Shelf.path_exists
               Shelf.path_name Shelf.open_pages Shelf.read_rows Shelf.glob_pdf
               (mkIngestionPipeline 512) "docs" (Some "docs/meta.csv") _ eq_refl)].
  simpl. intros c (_ & _ & H & _). exact H.
Defined.


Lemma ingest_documents_nothing_readable_witness :
  shelf_ingest "cellar" None = Done [].
Proof.
  refine (@ingest_documents_nothing_readable Examples.chars Shelf.path_exists
            Shelf.path_name Shelf.open_pages Shelf.read_rows Shelf.glob_pdf
            (mkIngestionPipeline 512) "cellar" _ _).
  - discriminate.
  - repeat constructor.
Defined.

Lemma ingest_single_pdf_chunks_witness :
  exists chunks,
    Ingestion.ingest_single_pdf Examples.chars Shelf.path_exists Shelf.path_name
      Shelf.open_pages (mkIngestionPipeline 512) "docs/physics.pdf"
      (Some [("subject", "Physics")])
    = Done chunks /\
    Forall (fun c => filename c = "physics.pdf"
                     /\ metadata c = [("subject", "Physics")]) chunks.
Proof.
  eexists. split; [reflexivity|].
  eapply Forall_impl;
    [|exact (@ingest_single_pdf_chunks Examples.chars Shelf.path_exists
               Shelf.path_name Shelf.open_pages (mkIngestionPipeline 512)
               "docs/physics.pdf" (Some [("subject", "Physics")]) _ eq_refl)].
  simpl. intros c (_ & Hf & Hm). auto.
Defined.

End IngestionFacts.

(* ================================================================== *)
(** ** Facts about [src/core/prompts.py], [llm_client.py] and [modes.py] *)
(* ================================================================== *)

Module ModesFacts.

Import Pipe Docs LLM Modes ModeShapes PyStr.

Lemma concat_truthy (sep x : string) (l : list string) :
  truthy x = true -> truthy (String.concat sep (x :: l)) = true.
Proof.
  destruct x as [|a x]; [discriminate|]. intros _.
  destruct l; reflexivity.
Qed.

Lemma append_empty_r (s : string) : (s ++ EmptyString)%string = s.
Proof.
  induction s as [|a s IH]; simpl; [reflexivity|]. rewrite IH. reflexivity.
Qed.

Section WithLibrary.

Variable okapi : Type.
Variable get_scores : okapi -> list string -> list Q.
Variable flat_index : Type.
Variable index_search : flat_index -> string -> Z -> Py.result (list (Z * Q)).
Variable create : Request -> outcome Completion.
Variable str : failure -> string.
Variable MARK_MODE_PROMPT : string.
Variable EXPLAIN_MODE_PROMPT : string.
Variable EXAMPLE_MODE_PROMPT : string.
Variable FLASHCARDS_MODE_PROMPT : string.
Variable GRADE_LEVEL_ADJUSTMENTS : StrDict string.
Variable docs : ref -> DocChunk.

Local Abbreviation get_system_prompt :=
  (Prompts.get_system_prompt MARK_MODE_PROMPT EXPLAIN_MODE_PROMPT
     EXAMPLE_MODE_PROMPT FLASHCARDS_MODE_PROMPT GRADE_LEVEL_ADJUSTMENTS).
Local Abbreviation run :=
  (run get_scores index_search create str MARK_MODE_PROMPT EXPLAIN_MODE_PROMPT
       EXAMPLE_MODE_PROMPT FLASHCARDS_MODE_PROMPT GRADE_LEVEL_ADJUSTMENTS docs).
Local Abbreviation search self query top_k :=
  (Hybrid.search get_scores index_search (retriever self) query top_k
     0.5%float 20 20).

(** *** [get_system_prompt] *)

Lemma get_set_known (mode : string) :
  In mode ["mark"; "explain"; "example"; "flashcards"] <->
  get [("mark", MARK_MODE_PROMPT); ("explain", EXPLAIN_MODE_PROMPT);
       ("example", EXAMPLE_MODE_PROMPT); ("flashcards", FLASHCARDS_MODE_PROMPT)]
      mode <> None.
Proof.
  simpl. split.
  - intros [<-|[<-|[<-|[<-|[]]]]]; simpl; discriminate.
  - destruct (String.eqb_spec mode "mark") as [->|_]; [auto|].
    destruct (String.eqb_spec mode "explain") as [->|_]; [auto|].
    destruct (String.eqb_spec mode "example") as [->|_]; [auto|].
    destruct (String.eqb_spec mode "flashcards") as [->|_]; [auto 6|].
    intros H. exfalso. apply H. reflexivity.
Qed.

(** [get_system_prompt] raises, and then [ValueError], exactly for a mode
    other than the four names; for those it returns a prompt that begins
    with the text of the mode, and that is this text alone whenever the
    grade level is empty, [None] or not a key of the adjustments. *)
Theorem get_system_prompt_modes (mode : string) (grade_level : option string) :
  (In mode ["mark"; "explain"; "example"; "flashcards"] ->
   exists prompt text,
     get_system_prompt mode grade_level = Done (prompt ++ text)%string /\
     get_system_prompt mode None = Done prompt /\
     (get GRADE_LEVEL_ADJUSTMENTS (str_or grade_level EmptyString) = None ->
      text = EmptyString)) /\
  (~ In mode ["mark"; "explain"; "example"; "flashcards"] ->
   get_system_prompt mode grade_level = Fail (Builtin ValueError)).
Proof.
  unfold Prompts.get_system_prompt. split.
  - intros Hin. apply get_set_known in Hin.
    destruct (get _ mode) as [prompt|]; [|congruence].
    exists prompt. destruct grade_level as [level|]; simpl.
    + destruct (truthy level) eqn:Et.
      * destruct (get GRADE_LEVEL_ADJUSTMENTS level) as [adj|] eqn:Ea.
        -- eexists. split; [reflexivity|]. split; [reflexivity|].
           discriminate.
        -- exists EmptyString. rewrite append_empty_r. auto.
      * exists EmptyString. rewrite append_empty_r. auto.
    + exists EmptyString. rewrite append_empty_r. auto.
  - intros Hnot. destruct (get _ mode) as [prompt|] eqn:E; [|reflexivity].
    exfalso. apply Hnot. apply get_set_known. rewrite E. discriminate.
Qed.

Lemma system_prompt_total (m : Mode) (grade_level : option string) :
  exists prompt, get_system_prompt (mode_name m) grade_level = Done prompt.
Proof.
  unfold Prompts.get_system_prompt.
  destruct m; simpl;
    (destruct grade_level as [level|]; [|eauto]);
    (destruct (truthy level); [|eauto]);
    destruct (get GRADE_LEVEL_ADJUSTMENTS level); eauto.
Qed.

(** *** [_format_context] *)

Lemma format_context_truthy (chunks : list (ref * float)) :
  truthy (_format_context docs chunks) = true.
Proof.
  destruct chunks as [|c cs]; [reflexivity|].
  unfold _format_context, Py.enumerate1.
  cbn [List.length seq combine map]. apply concat_truthy. reflexivity.
Qed.

(** *** [generate] *)

Lemma messages_with_context (system_prompt user_message context : string) :
  truthy context = true ->
  messages_for system_prompt user_message (Some context)
  = [("system", system_prompt);
     ("system",
      ("Relevant context from educational documents:"
       ++ Chunker.paragraph_break ++ context)%string);
     ("user", user_message)].
Proof.
  intros H. unfold messages_for. rewrite H. reflexivity.
Qed.

Lemma generate_relayed (client : LLMClient) (system_prompt user_message : string)
  (chunks : list (ref * float)) (temperature : option Q) (max_tokens : option Z) :
  let result :=
    generate create str client system_prompt user_message
             (Some (_format_context docs chunks)) temperature max_tokens in
  mkModeResult (gen_response result) (List.length chunks)
               (gen_tokens_used result) (gen_error result)
  = relayed str chunks
      (create (mkRequest (model client)
                 [("system", system_prompt);
                  ("system",
                   ("Relevant context from educational documents:"
                    ++ Chunker.paragraph_break
                    ++ _format_context docs chunks)%string);
                  ("user", user_message)]
                 (float_or temperature (LLM.temperature client))
                 (int_or max_tokens (LLM.max_tokens client)))).
Proof.
  unfold generate. rewrite messages_with_context by apply format_context_truthy.
  cbv zeta. destruct (create _); reflexivity.
Qed.

(** *** The four modes *)

Lemma run_with (m : Mode) (self : EducationalModes okapi flat_index)
  (query : string) (grade_level : option string) (top_k : Z)
  (chunks : list (ref * float)) :
  search self query top_k = Ok chunks ->
  exists system_prompt user_message,
    get_system_prompt (mode_name m)
      (Some (str_or grade_level (default_grade_level self)))
    = Done system_prompt /\
    run m self query grade_level top_k
    = Done (relayed str chunks
              (create (mkRequest (model (llm self))
                 [("system", system_prompt);
                  ("system",
                   ("Relevant context from educational documents:"
                    ++ Chunker.paragraph_break
                    ++ _format_context docs chunks)%string);
                  ("user", user_message)]
                 (mode_temperature m)
                 (mode_max_tokens m (llm self))))).
Proof.
  intros Hs.
  destruct (system_prompt_total m
              (Some (str_or grade_level (default_grade_level self))))
    as [prompt Hp].
  exists prompt.
  destruct m; (eexists; split; [exact Hp|]);
    unfold ModeShapes.run, mark, explain, example, flashcards;
    rewrite Hs; cbn [lift Pipe.bind]; cbn [mode_name] in Hp; rewrite Hp;
    cbn [Pipe.bind]; cbv zeta; rewrite generate_relayed; reflexivity.
Qed.

Lemma run_Raise (m : Mode) (self : EducationalModes okapi flat_index)
  (query : string) (grade_level : option string) (top_k : Z) (e : exn) :
  search self query top_k = Raise e ->
  run m self query grade_level top_k = Fail (Builtin e).
Proof.
  intros Hs.
  destruct m; unfold ModeShapes.run, mark, explain, example, flashcards;
    rewrite Hs; reflexivity.
Qed.

Lemma search_length (self : EducationalModes okapi flat_index) (query : string)
  (top_k : Z) (chunks : list (ref * float)) :
  search self query top_k = Ok chunks ->
  (0 <= top_k)%Z -> (Z.of_nat (List.length chunks) <= top_k)%Z.
Proof.
  unfold Hybrid.search. intros H Hk.
  apply PyFacts.bind_Ok_inv in H. destruct H as (lex & _ & H).
  apply PyFacts.bind_Ok_inv in H. destruct H as (sem & _ & H).
  inversion H; subst. unfold Hybrid.fuse. apply PyFacts.slice_to_length. exact Hk.
Qed.

(** Whenever the retriever returns, each of the four modes returns too, and
    it has sent the API one request: the model of the client, the mode's
    own temperature, 1500 tokens for [example] and [flashcards] and the
    client's limit otherwise, and three messages, the system prompt of the
    mode, the formatted context (which is never left out) and the user
    message.  The result relays the reply: its text and token count, or
    [None], 0 and the text of the exception. *)
Theorem modes_request (m : Mode) (self : EducationalModes okapi flat_index)
  (query : string) (grade_level : option string) (top_k : Z)
  (chunks : list (ref * float)) :
  search self query top_k = Ok chunks ->
  exists system_prompt user_message,
    get_system_prompt (mode_name m)
      (Some (str_or grade_level (default_grade_level self)))
    = Done system_prompt /\
    run m self query grade_level top_k
    = Done (relayed str chunks
              (create (mkRequest (model (llm self))
                 [("system", system_prompt);
                  ("system",
                   ("Relevant context from educational documents:"
                    ++ Chunker.paragraph_break
                    ++ _format_context docs chunks)%string);
                  ("user", user_message)]
                 (mode_temperature m)
                 (mode_max_tokens m (llm self))))).
Proof.
  apply run_with.
Qed.

(** For [top_k >= 0], the [context_used] a mode reports is the number of
    chunks retrieved and at most [top_k]; and a result either has no
    [error] or has no response and counts no tokens. *)
Theorem modes_context_used (m : Mode) (self : EducationalModes okapi flat_index)
  (query : string) (grade_level : option string) (top_k : Z)
  (chunks : list (ref * float)) :
  search self query top_k = Ok chunks ->
  (0 <= top_k)%Z ->
  exists result,
    run m self query grade_level top_k = Done result /\
    context_used result = List.length chunks /\
    (Z.of_nat (context_used result) <= top_k)%Z /\
    (error result = None \/
     (response result = None /\ tokens_used result = 0%Z)).
Proof.
  intros Hs Hk.
  destruct (@run_with m self query grade_level top_k chunks Hs)
    as (sp & um & _ & Hrun).
  eexists. split; [exact Hrun|].
  pose proof (@search_length self query top_k chunks Hs Hk) as Hlen.
  destruct (create _); simpl; auto.
Qed.

(** A mode raises nothing of its own: whatever it raises was raised by the
    retriever.  Neither the mode name nor a failing API call makes it
    raise. *)
Theorem modes_raise_only_retrieval (m : Mode)
  (self : EducationalModes okapi flat_index) (query : string)
  (grade_level : option string) (top_k : Z) (e : failure) :
  run m self query grade_level top_k = Fail e ->
  exists e', search self query top_k = Raise e' /\ e = Builtin e'.
Proof.
  destruct (search self query top_k) as [chunks|e'] eqn:Hs.
  - destruct (@run_with m self query grade_level top_k chunks Hs)
    as (sp & um & _ & Hrun).
    rewrite Hrun. discriminate.
  - rewrite (@run_Raise m self query grade_level top_k e' Hs).
    intros H. inversion H; subst. eauto.
Qed.

End WithLibrary.

Lemma get_system_prompt_modes_witness :
  exists prompt text,
    Prompts.get_system_prompt "Mark the answer." "Explain the concept."
      "Give examples." "Make flashcards." Desk.adjustments
      "explain" (Some "high")
    = Done (prompt ++ text)%string /\
    Prompts.get_system_prompt "Mark the answer." "Explain the concept."
      "Give examples." "Make flashcards." Desk.adjustments
      "explain" None
    = Done prompt.
Proof.
  destruct (proj1 (@get_system_prompt_modes
                     "Mark the answer." "Explain the concept." "Give examples."
                     "Make flashcards." Desk.adjustments "explain" (Some "high")))
    as (prompt & text & H1 & H2 & _).
  - simpl. auto.
  - exists prompt, text. split; assumption.
Defined.

Lemma modes_request_witness :
  exists result,
    Desk.ask Desk.answering (Mark "F = ma") Desk.tutor "force mass" None 2
    = Done result /\
    response result = Some "Well done." /\
    tokens_used result = 42%Z.
Proof.
  destruct (@modes_request _ Examples.count_scores _ Examples.flat_search
              Desk.answering Desk.str
              "Mark the answer." "Explain the concept." "Give examples."
              "Make flashcards." Desk.adjustments Desk.docs
              (Mark "F = ma") Desk.tutor "force mass" None 2%Z _ eq_refl)
    as (system_prompt & user_message & _ & H).
  eexists. split; [exact H|]. split; reflexivity.
Defined.

Lemma modes_context_used_witness :
  exists result,
    Desk.ask Desk.unreachable Flashcards Desk.tutor "force mass" (Some "high") 2
    = Done result /\
    (Z.of_nat (context_used result) <= 2)%Z.
Proof.
  destruct (@modes_context_used _ Examples.count_scores _ Examples.flat_search
              Desk.unreachable Desk.str
              "Mark the answer." "Explain the concept." "Give examples."
              "Make flashcards." Desk.adjustments Desk.docs
              Flashcards Desk.tutor "force mass" (Some "high") 2%Z _ eq_refl
              ltac:(lia))
    as (result & H & _ & Hle & _).
  exists result. split; assumption.
Defined.

Lemma modes_raise_only_retrieval_witness :
  exists e',
    Hybrid.search Examples.count_scores Examples.flat_search
      (retriever Desk.empty_tutor) "slope" 3 0.5%float 20 20
    = Raise e' /\
    Builtin IndexError = Builtin e'.
Proof.
  exact (@modes_raise_only_retrieval _ Examples.count_scores _ Examples.flat_search
           Desk.answering Desk.str
           "Mark the answer." "Explain the concept." "Give examples."
           "Make flashcards." Desk.adjustments Desk.docs
           Explain Desk.empty_tutor "slope" None 3%Z (Builtin IndexError) eq_refl).
Defined.

End ModesFacts.

(* ================================================================== *)
(** ** Facts about the quota check and the middleware *)
(* ================================================================== *)

Module QuotaFacts.

Import Pipe Quota Middleware.

Lemma prefix_app (p rest : string) : String.prefix p (p ++ rest) = true.
Proof.
  induction p as [|a p IH]; simpl; [destruct rest; reflexivity|].
  destruct (ascii_dec a a); [exact IH | congruence].
Qed.

Section WithDatabase.

Variable fetch_tenant : string -> option Tenant.
Variable sum_tokens : string -> Z -> Z.
Variable with_commas : Z -> string.

Local Abbreviation check_quota := (check_quota fetch_tenant sum_tokens with_commas).
Local Abbreviation dispatch := (dispatch fetch_tenant sum_tokens with_commas).

Lemma check_quota_active (tenant_id : string) (tenant : Tenant) :
  fetch_tenant tenant_id = Some tenant ->
  truthy_int (is_active tenant) = true ->
  exists usage,
    check_quota tenant_id = (can_proceed usage, InfoUsage usage) /\
    daily_usage usage = sum_tokens tenant_id 1 /\
    monthly_usage usage = sum_tokens tenant_id 30 /\
    daily_limit usage = daily_token_limit tenant /\
    monthly_limit usage = monthly_token_limit tenant /\
    (can_proceed usage = true <->
     (daily_limit usage = (-1)%Z \/ (daily_usage usage < daily_limit usage)%Z) /\
     (monthly_limit usage = (-1)%Z \/
      (monthly_usage usage < monthly_limit usage)%Z)) /\
    (reason usage = None <-> can_proceed usage = true).
Proof.
  intros Hrow Hactive. unfold Quota.check_quota, get_tenant, _get_usage_in_period.
  rewrite Hrow, Hactive. cbn [negb]. cbv zeta.
  destruct (Z.eqb_spec (daily_token_limit tenant) (-1)) as [Hd|Hd];
    destruct (Z.leb_spec (daily_token_limit tenant) (sum_tokens tenant_id 1));
    destruct (Z.eqb_spec (monthly_token_limit tenant) (-1)) as [Hm|Hm];
    destruct (Z.leb_spec (monthly_token_limit tenant) (sum_tokens tenant_id 30));
    cbn [negb andb]; eexists (mkUsage _ _ _ _ _ _ _ _);
    (split; [reflexivity|]); cbn;
    repeat split; try reflexivity; try discriminate; try lia;
    try (intros [[?|?] [?|?]]; lia); try (intros; auto; lia).
Qed.

Lemma check_quota_missing (tenant_id : string) :
  match fetch_tenant tenant_id with
  | Some tenant => truthy_int (is_active tenant) = false
  | None => True
  end ->
  exists message, check_quota tenant_id = (false, InfoError message).
Proof.
  unfold Quota.check_quota, get_tenant.
  destruct (fetch_tenant tenant_id) as [tenant|]; [|eauto].
  intros ->. cbn [negb]. eauto.
Qed.


Lemma dispatch_checked (path : string) (header : option string) :
  exempt path = false ->
  dispatch path header true
  = let '(can_proceed, usage_info) := check_quota (tenant_for header) in
    if negb can_proceed then
      Pipe.bind (number "daily_usage" daily_usage usage_info) (fun daily_usage =>
      Pipe.bind (number "daily_limit" daily_limit usage_info) (fun daily_limit =>
      Pipe.bind (number "monthly_usage" monthly_usage usage_info) (fun monthly_usage =>
      Pipe.bind (number "monthly_limit" monthly_limit usage_info) (fun monthly_limit =>
      Done (TooManyRequests (get_reason usage_info) daily_usage daily_limit
                            monthly_usage monthly_limit)))))
    else Done (CallNext (Some (tenant_for header, usage_info))).
Proof.
  unfold exempt, Middleware.dispatch. intros H.
  apply orb_false_elim in H. destruct H as [-> ->]. reflexivity.
Qed.

(** A request for a path that is not exempt, from a tenant the database
    does not know or has switched off, makes [dispatch] raise [KeyError]:
    it builds the 429 answer from a dictionary that holds an error message
    alone.  A request without the tenant header is charged to
    [demo_user]. *)
Theorem dispatch_unknown_tenant (path : string) (header : option string) :
  exempt path = false ->
  match fetch_tenant (tenant_for header) with
  | Some tenant => truthy_int (is_active tenant) = false
  | None => True
  end ->
  dispatch path header true = Fail (KeyError "daily_usage").
Proof.
  intros Hpath Htenant. rewrite (@dispatch_checked path header Hpath).
  destruct (@check_quota_missing (tenant_for header) Htenant) as [message ->].
  reflexivity.
Qed.

(** When [dispatch] answers 429, the path is not exempt, the tenant exists
    and is active, one of its limits is not [-1] and is reached, and the
    answer carries the reason and the numbers [check_quota] reported. *)
Theorem dispatch_too_many_requests (path : string) (header : option string)
  (has_db : bool) (detail : option string) (du dl mu ml : Z) :
  dispatch path header has_db = Done (TooManyRequests detail du dl mu ml) ->
  exempt path = false /\ has_db = true /\
  exists tenant,
    fetch_tenant (tenant_for header) = Some tenant /\
    truthy_int (is_active tenant) = true /\
    detail <> None /\
    du = sum_tokens (tenant_for header) 1 /\
    dl = daily_token_limit tenant /\
    mu = sum_tokens (tenant_for header) 30 /\
    ml = monthly_token_limit tenant /\
    ((dl <> (-1)%Z /\ (dl <= du)%Z) \/ (ml <> (-1)%Z /\ (ml <= mu)%Z)).
Proof.
  destruct (exempt path) eqn:Hex.
  { unfold exempt in Hex. unfold Middleware.dispatch.
    destruct (existsb (String.eqb path) exempt_exact_paths); [discriminate|].
    cbn [orb] in Hex. rewrite Hex. discriminate. }
  destruct has_db.
  2:{ unfold exempt in Hex. unfold Middleware.dispatch.
      apply orb_false_elim in Hex. destruct Hex as [-> ->]. discriminate. }
  rewrite (@dispatch_checked path header Hex).
  destruct (fetch_tenant (tenant_for header)) as [tenant|] eqn:Hrow.
  2:{ destruct (@check_quota_missing (tenant_for header)) as [message ->];
        [rewrite Hrow; exact I | discriminate]. }
  destruct (truthy_int (is_active tenant)) eqn:Hactive.
  2:{ destruct (@check_quota_missing (tenant_for header)) as [message ->];
        [rewrite Hrow; exact Hactive | discriminate]. }
  destruct (@check_quota_active (tenant_for header) tenant Hrow Hactive)
    as (usage & -> & Hdu & Hmu & Hdl & Hml & Hcan & Hreason).
  destruct (can_proceed usage) eqn:Ecan; cbn; [discriminate|].
  intros H. inversion H; subst.
  split; [reflexivity|]. split; [reflexivity|]. exists tenant.
  repeat split; try assumption; try reflexivity.
  - intros Hnone. apply Hreason in Hnone. discriminate.
  - destruct (Z.eq_dec (daily_limit usage) (-1));
      destruct (Z.eq_dec (monthly_limit usage) (-1));
      destruct (Z_lt_le_dec (daily_usage usage) (daily_limit usage));
      destruct (Z_lt_le_dec (monthly_usage usage) (monthly_limit usage));
      try (left; split; assumption); try (right; split; assumption);
      exfalso; assert (false = true) by (apply Hcan; auto); discriminate.
Qed.

(** The quota check is skipped for the path [/] and for every path that
    begins with one of the exempt prefixes, whatever follows the prefix
    ([/administrator] as well as [/admin/tenants]), and whenever the
    application holds no database. *)
Theorem dispatch_exempt_prefix (exempt_path rest : string)
  (header : option string) (has_db : bool) :
  In exempt_path exempt_paths ->
  dispatch (exempt_path ++ rest) header has_db = Done (CallNext None) /\
  dispatch "/" header has_db = Done (CallNext None) /\
  (forall path, dispatch path header false = Done (CallNext None)).
Proof.
  intros Hin. split; [|split].
  - unfold Middleware.dispatch.
    destruct (existsb (String.eqb (exempt_path ++ rest)) exempt_exact_paths);
      [reflexivity|].
    assert (H : existsb (fun p => String.prefix p (exempt_path ++ rest))
                        exempt_paths = true).
    { apply existsb_exists. exists exempt_path. split; [exact Hin|].
      apply prefix_app. }
    rewrite H. reflexivity.
  - reflexivity.
  - intros path. unfold Middleware.dispatch.
    destruct (existsb (String.eqb path) exempt_exact_paths); [reflexivity|].
    destruct (existsb _ exempt_paths); reflexivity.
Qed.

End WithDatabase.


Lemma dispatch_unknown_tenant_witness :
  Middleware.dispatch Ledger.fetch_tenant Ledger.sum_tokens Ledger.with_commas
    "/mark" None true
  = Fail (KeyError "daily_usage").
Proof.
  exact (@dispatch_unknown_tenant Ledger.fetch_tenant Ledger.sum_tokens
           Ledger.with_commas "/mark" None eq_refl I).
Defined.

Lemma dispatch_too_many_requests_witness :
  exists tenant,
    Ledger.fetch_tenant "school" = Some tenant /\
    daily_token_limit tenant = 10000%Z.
Proof.
  destruct (@dispatch_too_many_requests Ledger.fetch_tenant Ledger.sum_tokens
              Ledger.with_commas "/mark" (Some "school") true
              (Some "Daily quota exceeded: 10,000 / 10,000 tokens")
              10000 10000 10000 100000 eq_refl)
    as (_ & _ & tenant & Hrow & _ & _ & _ & Hdl & _).
  exists tenant. split; [exact Hrow | symmetry; exact Hdl].
Defined.

Lemma dispatch_exempt_prefix_witness :
  Middleware.dispatch Ledger.fetch_tenant Ledger.sum_tokens Ledger.with_commas
    "/administrator" None true
  = Done (CallNext None).
Proof.
  refine (proj1 (@dispatch_exempt_prefix Ledger.fetch_tenant Ledger.sum_tokens
                   Ledger.with_commas "/admin" "istrator" None true _)).
  simpl. auto 6.
Defined.

End QuotaFacts.

